(** * StudentAnalysisBackend: the LLM response pipeline of [server.js]

    A shallow embedding of the request handlers of [server.js]: the JSON
    text extraction that precedes every [JSON.parse], the per-endpoint
    normalisation of the parsed value, the try/catch ladders around the
    external calls, the staging and removal of uploaded files, the
    upper-casing of USNs around the student collection, and, beside the
    pipeline, the upload filter, the health check and the handlers that
    gather GitHub and LeetCode data.

    Conventions.
    - A JavaScript string is the list of its UTF-16 code units.
    - [undefined] is [None] in an [option json]; every other value the
      handlers touch is a [json].
    - Numbers are exact decimals [m * 10^e]; IEEE-754 rounding, overflow
      and underflow are not part of the model.
    - [await] is sequencing: a handler runs to completion on one world.
    - The answer of another service (the completion service, the
      analysis service, the image host) is a parameter of the handler:
      either the service fails or it replies with a value. *)

From Stdlib Require Import ZArith NArith List String Ascii Bool Lia.
From stdpp Require Import base option list gmap.

Local Open Scope Z_scope.

(** ** JavaScript strings *)

Module Str.

Definition jsstring := list N.

(** An ASCII literal as a JavaScript string. *)
Definition js (s : string) : jsstring :=
  List.map N_of_ascii (list_ascii_of_string s).
Arguments js s%_string.

Definition len (s : jsstring) : Z := Z.of_nat (List.length s).

(** [s.indexOf(c)] for a one-unit needle: the first index, or [-1]. *)
Fixpoint indexOf_from (i : Z) (s : jsstring) (c : N) : Z :=
  match s with
  | [] => -1
  | x :: s' => if N.eqb x c then i else indexOf_from (i + 1) s' c
  end.
Definition indexOf (s : jsstring) (c : N) : Z := indexOf_from 0 s c.

(** [s.lastIndexOf(c)]: the last index, or [-1]. *)
Fixpoint lastIndexOf_from (i : Z) (best : Z) (s : jsstring) (c : N) : Z :=
  match s with
  | [] => best
  | x :: s' =>
      lastIndexOf_from (i + 1) (if N.eqb x c then i else best) s' c
  end.
Definition lastIndexOf (s : jsstring) (c : N) : Z := lastIndexOf_from 0 (-1) s c.

(** [s.slice(a, b)]: negative indices count from the end, both ends are
    clamped to the string. *)
Definition clamp_index (n : Z) (i : Z) : Z :=
  if i <? 0 then Z.max (n + i) 0 else Z.min i n.
Definition slice (s : jsstring) (a b : Z) : jsstring :=
  let from := clamp_index (len s) a in
  let to := clamp_index (len s) b in
  firstn (Z.to_nat (to - from)) (skipn (Z.to_nat from) s).

(** ECMAScript [WhiteSpace] and [LineTerminator], the class [\s]. *)
Definition is_space (c : N) : bool :=
  ((9 <=? c) && (c <=? 13) || (c =? 32) || (c =? 160) || (c =? 5760)
   || (8192 <=? c) && (c <=? 8202) || (c =? 8232) || (c =? 8233)
   || (c =? 8239) || (c =? 8287) || (c =? 12288) || (c =? 65279))%N.

(** [LineTerminator]: what [.] refuses. *)
Definition is_line_terminator (c : N) : bool :=
  ((c =? 10) || (c =? 13) || (c =? 8232) || (c =? 8233))%N.

Definition is_digit (c : N) : bool := ((48 <=? c) && (c <=? 57))%N.

Definition eqb (a b : jsstring) : bool := bool_decide (a = b).

End Str.
Export Str.

(** ** Regular expressions

    The fragment of the ECMAScript pattern language that the handlers
    use, with the backtracking order of the language: alternatives of a
    quantifier are tried greedy-first or lazy-first, and the first
    complete match wins.  Quantified sub-patterns are single-unit
    classes, as in the source patterns. *)

Module Regex.

Inductive re : Type :=
| Eps
| Atom (p : N -> bool)        (* one code unit of a class *)
| Seq (r1 r2 : re)
| Opt (r : re)                (* r?   *)
| Star (p : N -> bool)        (* [p]*  greedy *)
| Plus (p : N -> bool)        (* [p]+  greedy *)
| StarLazy (p : N -> bool)    (* [p]*? *)
| PlusLazy (p : N -> bool)    (* [p]+? *)
| Group (r : re).             (* ( r ), the capture group *)

Definition or_else {A} (x y : option A) : option A :=
  match x with Some a => Some a | None => y end.

Section Quantifiers.
Context {A : Type} (p : N -> bool) (k : jsstring -> option A).

Fixpoint star_greedy (s : jsstring) : option A :=
  match s with
  | c :: s' => if p c then or_else (star_greedy s') (k s) else k s
  | [] => k []
  end.

Definition plus_greedy (s : jsstring) : option A :=
  match s with
  | c :: s' => if p c then star_greedy s' else None
  | [] => None
  end.

Fixpoint star_lazy (s : jsstring) : option A :=
  or_else (k s)
    match s with
    | c :: s' => if p c then star_lazy s' else None
    | [] => None
    end.

Definition plus_lazy (s : jsstring) : option A :=
  match s with
  | c :: s' => if p c then star_lazy s' else None
  | [] => None
  end.
End Quantifiers.

(** [rmatch r s cap k]: match [r] at the head of [s]; [k] receives the
    rest of the input and the capture. *)
Fixpoint rmatch {A} (r : re) (s : jsstring) (cap : option jsstring)
    (k : jsstring -> option jsstring -> option A) : option A :=
  match r with
  | Eps => k s cap
  | Atom p =>
      match s with
      | c :: s' => if p c then k s' cap else None
      | [] => None
      end
  | Seq r1 r2 => rmatch r1 s cap (fun s' cap' => rmatch r2 s' cap' k)
  | Opt r1 => or_else (rmatch r1 s cap k) (k s cap)
  | Star p => star_greedy p (fun s' => k s' cap) s
  | Plus p => plus_greedy p (fun s' => k s' cap) s
  | StarLazy p => star_lazy p (fun s' => k s' cap) s
  | PlusLazy p => plus_lazy p (fun s' => k s' cap) s
  | Group r1 =>
      rmatch r1 s cap
        (fun s' _ => k s' (Some (firstn (List.length s - List.length s') s)))
  end.

(** [s.match(r)] without the [g] flag: the leftmost match; the result
    is element [1] of the match array. *)
Fixpoint str_match (r : re) (s : jsstring) : option (option jsstring) :=
  or_else (rmatch r s None (fun _ cap => Some cap))
    match s with
    | [] => None
    | _ :: s' => str_match r s'
    end.

Definition chr (c : N) : re := Atom (N.eqb c).
Fixpoint lit (s : jsstring) : re :=
  match s with
  | [] => Eps
  | c :: s' => Seq (chr c) (lit s')
  end.

(** A letter under the [i] flag. *)
Definition chr_i (lower upper : N) : re :=
  Atom (fun c => N.eqb c lower || N.eqb c upper).

Definition any (_ : N) : bool := true.
Definition dot (c : N) : bool := negb (is_line_terminator c).

End Regex.
Export Regex.

Declare Scope re_scope.
Delimit Scope re_scope with re.
Infix "·" := Seq (at level 60, right associativity) : re_scope.

(** [/```\s*(?:json)?\s*\n?([\s\S]+?)\n?```/] *)
Definition fence_re : re :=
  (lit (js "```") · Star is_space · Opt (lit (js "json")) · Star is_space
   · Opt (chr 10) · Group (PlusLazy any) · Opt (chr 10) · lit (js "```"))%re.

(** The GPA pattern of the marks handler, flag [i]: the letters GPA, a
    lazy run of [.], then the group: [\d+], an optional dot, [\d] repeated. *)
Definition gpa_re : re :=
  (chr_i 103 71 · chr_i 112 80 · chr_i 97 65 · StarLazy dot
   · Group (Plus is_digit · Opt (chr 46) · Star is_digit))%re.

(** ** Numbers and JSON values *)

Module Json.

(** A number: [Dec m e] is [m * 10^e], kept with [m] free of trailing
    zeros so that equal numbers are equal terms. *)
Inductive number : Type :=
| NaN
| Inf (negative : bool)
| Dec (m e : Z).

Fixpoint strip_zeros (fuel : nat) (m e : Z) : Z * Z :=
  match fuel with
  | O => (m, e)
  | S f => if m mod 10 =? 0 then strip_zeros f (m / 10) (e + 1) else (m, e)
  end.

Definition dec (m e : Z) : number :=
  if m =? 0 then Dec 0 0
  else let '(m', e') := strip_zeros (Z.to_nat (Z.log2 (Z.abs m)) + 1) m e in
       Dec m' e'.

Definition num_of_Z (z : Z) : number := dec z 0.

(** [x * 10] *)
Definition times10 (x : number) : number :=
  match x with
  | Dec m e => dec m (e + 1)
  | _ => x
  end.

#[warnings="-register-all"]
Inductive json : Type :=
| JNull
| JBool (b : bool)
| JNum (n : number)
| JStr (s : jsstring)
| JArr (l : list json)
| JObj (l : list (jsstring * json)).

Definition jnum (z : Z) : json := JNum (num_of_Z z).
Definition jstr (s : string) : json := JStr (js s).
Arguments jstr s%_string.

(** An object literal [{ k1: v1, ... }]: [obj ["k1" ~> v1; ...]]. *)
Definition obj (l : list (jsstring * json)) : json := JObj l.
Definition field (k : string) (v : json) : jsstring * json := (js k, v).
Arguments field k%_string v.

(** *** Property tables *)

Fixpoint assoc (k : jsstring) (l : list (jsstring * json)) : option json :=
  match l with
  | [] => None
  | (k', v) :: l' => if Str.eqb k k' then Some v else assoc k l'
  end.

(** [o[k] = v] on an ordinary object: an existing key keeps its place. *)
Fixpoint obj_set (k : jsstring) (v : json) (l : list (jsstring * json))
  : list (jsstring * json) :=
  match l with
  | [] => [(k, v)]
  | (k', v') :: l' =>
      if Str.eqb k k' then (k, v) :: l' else (k', v') :: obj_set k v l'
  end.

(** *** JSON.parse

    The ECMA-404 grammar.  [None] is the thrown [SyntaxError]. *)

Definition is_json_ws (c : N) : bool :=
  ((c =? 32) || (c =? 9) || (c =? 10) || (c =? 13))%N.

Fixpoint skip_ws (s : jsstring) : jsstring :=
  match s with
  | c :: s' => if is_json_ws c then skip_ws s' else s
  | [] => []
  end.

Definition hex_val (c : N) : option N :=
  (if (48 <=? c) && (c <=? 57) then Some (c - 48)
   else if (97 <=? c) && (c <=? 102) then Some (c - 87)
   else if (65 <=? c) && (c <=? 70) then Some (c - 55)
   else None)%N.

Definition hex4 (a b c d : N) : option N :=
  match hex_val a, hex_val b, hex_val c, hex_val d with
  | Some x, Some y, Some z, Some w => Some (((x * 16 + y) * 16 + z) * 16 + w)%N
  | _, _, _, _ => None
  end.

Definition simple_escape (e : N) : option N :=
  (if e =? 34 then Some 34 else if e =? 92 then Some 92
   else if e =? 47 then Some 47 else if e =? 98 then Some 8
   else if e =? 102 then Some 12 else if e =? 110 then Some 10
   else if e =? 114 then Some 13 else if e =? 116 then Some 9
   else None)%N.

(** The characters of a string literal, after the opening quote. *)
Fixpoint parse_chars (s : jsstring) (acc : jsstring) {struct s}
  : option (jsstring * jsstring) :=
  match s with
  | [] => None
  | c :: s' =>
      if (c =? 34)%N then Some (List.rev acc, s')
      else if (c =? 92)%N then
        match s' with
        | [] => None
        | e :: s'' =>
            if (e =? 117)%N then
              match s'' with
              | h1 :: h2 :: h3 :: h4 :: s3 =>
                  match hex4 h1 h2 h3 h4 with
                  | Some u => parse_chars s3 (u :: acc)
                  | None => None
                  end
              | _ => None
              end
            else
              match simple_escape e with
              | Some u => parse_chars s'' (u :: acc)
              | None => None
              end
        end
      else if (c <? 32)%N then None
      else parse_chars s' (c :: acc)
  end.

(** A run of digits: its value appended to [acc], and its length. *)
Fixpoint read_digits (s : jsstring) (acc : Z) (count : Z) : Z * Z * jsstring :=
  match s with
  | c :: s' =>
      if is_digit c then read_digits s' (acc * 10 + Z.of_N (c - 48)) (count + 1)
      else (acc, count, s)
  | [] => (acc, count, [])
  end.

Definition parse_exponent (s : jsstring) : option (Z * jsstring) :=
  match s with
  | c :: s' =>
      if ((c =? 101) || (c =? 69))%N then
        let '(neg, s1) :=
          match s' with
          | d :: s'' =>
              if (d =? 45)%N then (true, s'')
              else if (d =? 43)%N then (false, s'')
              else (false, s')
          | [] => (false, s')
          end in
        let '(x, n, r) := read_digits s1 0 0 in
        if n =? 0 then None else Some (if neg then - x else x, r)
      else Some (0, s)
  | [] => Some (0, s)
  end.

Definition parse_fraction (int : Z) (s : jsstring) : option (Z * Z * jsstring) :=
  match s with
  | c :: s' =>
      if (c =? 46)%N then
        let '(x, n, r) := read_digits s' int 0 in
        if n =? 0 then None else Some (x, n, r)
      else Some (int, 0, s)
  | [] => Some (int, 0, s)
  end.

Definition parse_number (s : jsstring) : option (number * jsstring) :=
  let '(neg, s0) :=
    match s with
    | c :: s' => if (c =? 45)%N then (true, s') else (false, s)
    | [] => (false, s)
    end in
  match s0 with
  | c :: s' =>
      if is_digit c then
        let '(int, _, s1) :=
          if (c =? 48)%N then (0, 1, s') else read_digits s0 0 0 in
        match parse_fraction int s1 with
        | Some (mant, k, s2) =>
            match parse_exponent s2 with
            | Some (x, s3) => Some (dec (if neg then - mant else mant) (x - k), s3)
            | None => None
            end
        | None => None
        end
      else None
  | [] => None
  end.

Fixpoint starts_with (p s : jsstring) : option jsstring :=
  match p, s with
  | [], _ => Some s
  | c :: p', d :: s' => if (c =? d)%N then starts_with p' s' else None
  | _ :: _, [] => None
  end.

Fixpoint parse_value (fuel : nat) (s : jsstring) {struct fuel}
  : option (json * jsstring) :=
  match fuel with
  | O => None
  | S f =>
      match skip_ws s with
      | [] => None
      | c :: s' =>
          if (c =? 123)%N then
            match skip_ws s' with
            | d :: r => if (d =? 125)%N then Some (JObj [], r)
                        else parse_members f (d :: r) []
            | [] => None
            end
          else if (c =? 91)%N then
            match skip_ws s' with
            | d :: r => if (d =? 93)%N then Some (JArr [], r)
                        else parse_elements f (d :: r) []
            | [] => None
            end
          else if (c =? 34)%N then
            match parse_chars s' [] with
            | Some (str, r) => Some (JStr str, r)
            | None => None
            end
          else if (c =? 116)%N then
            option_map (fun r => (JBool true, r)) (starts_with (js "rue") s')
          else if (c =? 102)%N then
            option_map (fun r => (JBool false, r)) (starts_with (js "alse") s')
          else if (c =? 110)%N then
            option_map (fun r => (JNull, r)) (starts_with (js "ull") s')
          else
            match parse_number (c :: s') with
            | Some (n, r) => Some (JNum n, r)
            | None => None
            end
      end
  end
with parse_elements (fuel : nat) (s : jsstring) (acc : list json) {struct fuel}
  : option (json * jsstring) :=
  match fuel with
  | O => None
  | S f =>
      match parse_value f s with
      | Some (v, r) =>
          match skip_ws r with
          | c :: r' =>
              if (c =? 44)%N then parse_elements f r' (acc ++ [v])
              else if (c =? 93)%N then Some (JArr (acc ++ [v]), r')
              else None
          | [] => None
          end
      | None => None
      end
  end
with parse_members (fuel : nat) (s : jsstring) (acc : list (jsstring * json))
    {struct fuel} : option (json * jsstring) :=
  match fuel with
  | O => None
  | S f =>
      match s with
      | q :: s0 =>
          if (q =? 34)%N then
            match parse_chars s0 [] with
            | Some (key, r0) =>
                match skip_ws r0 with
                | c :: r1 =>
                    if (c =? 58)%N then
                      match parse_value f r1 with
                      | Some (v, r2) =>
                          match skip_ws r2 with
                          | d :: r3 =>
                              if (d =? 44)%N then
                                parse_members f (skip_ws r3) (obj_set key v acc)
                              else if (d =? 125)%N then
                                Some (JObj (obj_set key v acc), r3)
                              else None
                          | [] => None
                          end
                      | None => None
                      end
                    else None
                | [] => None
                end
            | None => None
            end
          else None
      | [] => None
      end
  end.

(** [JSON.parse(text)] *)
Definition JSON_parse (text : jsstring) : option json :=
  match parse_value (2 * List.length text + 2) text with
  | Some (v, r) => match skip_ws r with [] => Some v | _ :: _ => None end
  | None => None
  end.

End Json.
Export Json.

Notation "k ~> v" := (field k v) (at level 70, no associativity).

(** ** Built-in conversions *)

Module Builtins.

Fixpoint digits_fuel (fuel : nat) (n : Z) (acc : jsstring) : jsstring :=
  match fuel with
  | O => acc
  | S f =>
      let acc' := Z.to_N (48 + n mod 10) :: acc in
      if n / 10 =? 0 then acc' else digits_fuel f (n / 10) acc'
  end.

(** The decimal digits of a non-negative integer. *)
Definition digits (n : Z) : jsstring :=
  digits_fuel (Z.to_nat (Z.log2 n) + 1) n [].

Definition zeros (n : Z) : jsstring := List.repeat 48%N (Z.to_nat n).

(** [Number::toString], radix 10. *)
Definition Number_toString (x : number) : jsstring :=
  match x with
  | NaN => js "NaN"
  | Inf false => js "Infinity"
  | Inf true => js "-Infinity"
  | Dec m e =>
      if m =? 0 then js "0"
      else
        let ds := digits (Z.abs m) in
        let k := len ds in
        let n := k + e in
        let body :=
          if (k <=? n) && (n <=? 21) then ds ++ zeros (n - k)
          else if (0 <? n) && (n <=? 21) then
            firstn (Z.to_nat n) ds ++ [46%N] ++ skipn (Z.to_nat n) ds
          else if (-6 <? n) && (n <=? 0) then js "0." ++ zeros (- n) ++ ds
          else
            let ex := (if n - 1 <? 0 then [45%N] else [43%N])
                        ++ digits (Z.abs (n - 1)) in
            match ds with
            | d :: [] => d :: 101%N :: ex
            | d :: rest => d :: 46%N :: rest ++ 101%N :: ex
            | [] => []
            end in
        (if m <? 0 then [45%N] else []) ++ body
  end.

Fixpoint join (sep : jsstring) (l : list jsstring) : jsstring :=
  match l with
  | [] => []
  | [x] => x
  | x :: l' => x ++ sep ++ join sep l'
  end.

(** [ToString] on the values a handler can hold. *)
Fixpoint ToString (v : json) : jsstring :=
  match v with
  | JNull => js "null"
  | JBool true => js "true"
  | JBool false => js "false"
  | JNum n => Number_toString n
  | JStr s => s
  | JArr l =>
      join [44%N]
        (List.map (fun x => match x with JNull => [] | _ => ToString x end) l)
  | JObj _ => js "[object Object]"
  end.

Definition ToString_opt (o : option json) : jsstring :=
  match o with
  | Some v => ToString v
  | None => js "undefined"
  end.

Fixpoint trim_start (s : jsstring) : jsstring :=
  match s with
  | c :: s' => if is_space c then trim_start s' else s
  | [] => []
  end.

Definition read_sign (s : jsstring) : bool * jsstring :=
  match s with
  | c :: s' =>
      if (c =? 45)%N then (true, s')
      else if (c =? 43)%N then (false, s')
      else (false, s)
  | [] => (false, s)
  end.

(** The exponent part of a [StrDecimalLiteral] prefix: used only when
    at least one digit follows. *)
Definition float_exponent (s : jsstring) : Z :=
  match s with
  | c :: s' =>
      if ((c =? 101) || (c =? 69))%N then
        let '(neg, s1) := read_sign s' in
        let '(x, n, _) := read_digits s1 0 0 in
        if n =? 0 then 0 else if neg then - x else x
      else 0
  | [] => 0
  end.

(** [parseFloat(string)]: the longest prefix that is a decimal literal. *)
Definition parseFloat_str (s : jsstring) : number :=
  let '(neg, s1) := read_sign (trim_start s) in
  match starts_with (js "Infinity") s1 with
  | Some _ => Inf neg
  | None =>
      let '(int, ni, s2) := read_digits s1 0 0 in
      let '(mant, nf, s3) :=
        match s2 with
        | c :: s2' =>
            if (c =? 46)%N then read_digits s2' int 0 else (int, 0, s2)
        | [] => (int, 0, s2)
        end in
      if (ni =? 0) && (nf =? 0) then NaN
      else dec (if neg then - mant else mant) (float_exponent s3 - nf)
  end.

Definition parseFloat (o : option json) : number :=
  parseFloat_str (ToString_opt o).

Fixpoint read_hex (s : jsstring) (acc : Z) (count : Z) : Z * Z :=
  match s with
  | c :: s' =>
      match hex_val c with
      | Some d => read_hex s' (acc * 16 + Z.of_N d) (count + 1)
      | None => (acc, count)
      end
  | [] => (acc, count)
  end.

(** [parseInt(string)] with the radix left out. *)
Definition parseInt_str (s : jsstring) : number :=
  let '(neg, s1) := read_sign (trim_start s) in
  let '(x, n) :=
    match s1 with
    | a :: b :: s2 =>
        if ((a =? 48) && ((b =? 120) || (b =? 88)))%N then read_hex s2 0 0
        else let '(x, n, _) := read_digits s1 0 0 in (x, n)
    | _ => let '(x, n, _) := read_digits s1 0 0 in (x, n)
    end in
  if n =? 0 then NaN else dec (if neg then - x else x) 0.

Definition parseInt (o : option json) : number :=
  parseInt_str (ToString_opt o).

(** *** [Number(string)]

    [StringToNumber]: the whole string, white space at both ends apart,
    is a numeric literal, or the result is [NaN]. *)

Definition trim (s : jsstring) : jsstring :=
  List.rev (trim_start (List.rev (trim_start s))).

(** All of [s] as digits of a radix. *)
Fixpoint read_radix (radix : Z) (s : jsstring) (acc : Z) (count : Z) : option (Z * Z) :=
  match s with
  | [] => Some (acc, count)
  | c :: s' =>
      match hex_val c with
      | Some d =>
          if Z.of_N d <? radix
          then read_radix radix s' (acc * radix + Z.of_N d) (count + 1)
          else None
      | None => None
      end
  end.

Definition radix_literal (radix : Z) (s : jsstring) : number :=
  match read_radix radix s 0 0 with
  | Some (x, n) => if n =? 0 then NaN else dec x 0
  | None => NaN
  end.

(** All of [s] as an exponent part, or nothing. *)
Definition exponent_part (s : jsstring) : option Z :=
  match s with
  | [] => Some 0
  | c :: s' =>
      if ((c =? 101) || (c =? 69))%N then
        let '(neg, s1) := read_sign s' in
        let '(x, n, r) := read_digits s1 0 0 in
        match r with
        | [] => if n =? 0 then None else Some (if neg then - x else x)
        | _ :: _ => None
        end
      else None
  end.

Definition decimal_literal (s : jsstring) : number :=
  let '(neg, s1) := read_sign s in
  if Str.eqb s1 (js "Infinity") then Inf neg
  else
    let '(int, ni, s2) := read_digits s1 0 0 in
    let '(mant, nf, s3) :=
      match s2 with
      | c :: s2' =>
          if (c =? 46)%N then read_digits s2' int 0 else (int, 0, s2)
      | [] => (int, 0, s2)
      end in
    if (ni =? 0) && (nf =? 0) then NaN
    else
      match exponent_part s3 with
      | Some x => dec (if neg then - mant else mant) (x - nf)
      | None => NaN
      end.

Definition StringToNumber (s : jsstring) : number :=
  match trim s with
  | [] => dec 0 0
  | a :: b :: digits =>
      if (a =? 48)%N && ((b =? 120) || (b =? 88))%N then radix_literal 16 digits
      else if (a =? 48)%N && ((b =? 111) || (b =? 79))%N then radix_literal 8 digits
      else if (a =? 48)%N && ((b =? 98) || (b =? 66))%N then radix_literal 2 digits
      else decimal_literal (a :: b :: digits)
  | t => decimal_literal t
  end.

(** *** JSON.stringify, without indentation *)

Definition hex_digit (d : N) : N := (if d <? 10 then 48 + d else 87 + d)%N.

Definition unicode_escape (c : N) : jsstring :=
  [92; 117; hex_digit (c / 4096); hex_digit ((c / 256) mod 16);
   hex_digit ((c / 16) mod 16); hex_digit (c mod 16)]%N.

Definition quote_unit (c : N) : jsstring :=
  (if c =? 34 then [92; 34] else if c =? 92 then [92; 92]
   else if c =? 8 then [92; 98] else if c =? 9 then [92; 116]
   else if c =? 10 then [92; 110] else if c =? 12 then [92; 102]
   else if c =? 13 then [92; 114]
   else if c <? 32 then unicode_escape c else [c])%N.

Definition is_high_surrogate (c : N) : bool := ((55296 <=? c) && (c <=? 56319))%N.
Definition is_low_surrogate (c : N) : bool := ((56320 <=? c) && (c <=? 57343))%N.

Fixpoint quote_units (s : jsstring) : jsstring :=
  match s with
  | [] => []
  | c :: s' =>
      if is_high_surrogate c then
        match s' with
        | d :: s'' =>
            if is_low_surrogate d then c :: d :: quote_units s''
            else unicode_escape c ++ quote_units s'
        | [] => unicode_escape c
        end
      else if is_low_surrogate c then unicode_escape c ++ quote_units s'
      else quote_unit c ++ quote_units s'
  end.

(** [QuoteJSONString] *)
Definition quote (s : jsstring) : jsstring := 34%N :: quote_units s ++ [34%N].

Fixpoint JSON_stringify (v : json) : jsstring :=
  match v with
  | JNull => js "null"
  | JBool true => js "true"
  | JBool false => js "false"
  | JNum (Dec m e) => Number_toString (Dec m e)
  | JNum _ => js "null"
  | JStr s => quote s
  | JArr l => 91%N :: join [44%N] (List.map JSON_stringify l) ++ [93%N]
  | JObj l =>
      123%N
        :: join [44%N]
             (List.map (fun kv => quote (fst kv) ++ 58%N :: JSON_stringify (snd kv)) l)
        ++ [125%N]
  end.

(** *** Letter case

    [s.toUpperCase()]: the string is read as code points, every code
    point is replaced by its full upper-case mapping in the Unicode
    Character Database (version 14: the simple mappings of
    UnicodeData.txt and the unconditional mappings of SpecialCasing.txt,
    which may give several code points), and the result is written in
    UTF-16 again.  A surrogate that is not part of a pair stands for
    itself.

    [s.toLowerCase()] on ASCII letters; code units outside [A-Z] are
    left as they are (the lower-case tables are not modelled). *)

(** The simple mappings, in runs [(first, last, stride, delta)]: each of
    [first], [first + stride], ..., [last] is moved by [delta]. *)
Definition upper_runs : list (N * N * N * Z) :=
  [
    (97, 122, 1, (-32)%Z); (181, 181, 1, 743%Z); (224, 246, 1, (-32)%Z);
    (248, 254, 1, (-32)%Z); (255, 255, 1, 121%Z); (257, 303, 2, (-1)%Z);
    (305, 305, 1, (-232)%Z); (307, 311, 2, (-1)%Z); (314, 328, 2, (-1)%Z);
    (331, 375, 2, (-1)%Z); (378, 382, 2, (-1)%Z); (383, 383, 1, (-300)%Z);
    (384, 384, 1, 195%Z); (387, 389, 2, (-1)%Z); (392, 392, 1, (-1)%Z);
    (396, 396, 1, (-1)%Z); (402, 402, 1, (-1)%Z); (405, 405, 1, 97%Z);
    (409, 409, 1, (-1)%Z); (410, 410, 1, 163%Z); (414, 414, 1, 130%Z);
    (417, 421, 2, (-1)%Z); (424, 424, 1, (-1)%Z); (429, 429, 1, (-1)%Z);
    (432, 432, 1, (-1)%Z); (436, 438, 2, (-1)%Z); (441, 441, 1, (-1)%Z);
    (445, 445, 1, (-1)%Z); (447, 447, 1, 56%Z); (453, 453, 1, (-1)%Z);
    (454, 454, 1, (-2)%Z); (456, 456, 1, (-1)%Z); (457, 457, 1, (-2)%Z);
    (459, 459, 1, (-1)%Z); (460, 460, 1, (-2)%Z); (462, 476, 2, (-1)%Z);
    (477, 477, 1, (-79)%Z); (479, 495, 2, (-1)%Z); (498, 498, 1, (-1)%Z);
    (499, 499, 1, (-2)%Z); (501, 501, 1, (-1)%Z); (505, 543, 2, (-1)%Z);
    (547, 563, 2, (-1)%Z); (572, 572, 1, (-1)%Z); (575, 576, 1, 10815%Z);
    (578, 578, 1, (-1)%Z); (583, 591, 2, (-1)%Z); (592, 592, 1, 10783%Z);
    (593, 593, 1, 10780%Z); (594, 594, 1, 10782%Z); (595, 595, 1, (-210)%Z);
    (596, 596, 1, (-206)%Z); (598, 599, 1, (-205)%Z); (601, 601, 1, (-202)%Z);
    (603, 603, 1, (-203)%Z); (604, 604, 1, 42319%Z); (608, 608, 1, (-205)%Z);
    (609, 609, 1, 42315%Z); (611, 611, 1, (-207)%Z); (613, 613, 1, 42280%Z);
    (614, 614, 1, 42308%Z); (616, 616, 1, (-209)%Z); (617, 617, 1, (-211)%Z);
    (618, 618, 1, 42308%Z); (619, 619, 1, 10743%Z); (620, 620, 1, 42305%Z);
    (623, 623, 1, (-211)%Z); (625, 625, 1, 10749%Z); (626, 626, 1, (-213)%Z);
    (629, 629, 1, (-214)%Z); (637, 637, 1, 10727%Z); (640, 640, 1, (-218)%Z);
    (642, 642, 1, 42307%Z); (643, 643, 1, (-218)%Z); (647, 647, 1, 42282%Z);
    (648, 648, 1, (-218)%Z); (649, 649, 1, (-69)%Z); (650, 651, 1, (-217)%Z);
    (652, 652, 1, (-71)%Z); (658, 658, 1, (-219)%Z); (669, 669, 1, 42261%Z);
    (670, 670, 1, 42258%Z); (837, 837, 1, 84%Z); (881, 883, 2, (-1)%Z);
    (887, 887, 1, (-1)%Z); (891, 893, 1, 130%Z); (940, 940, 1, (-38)%Z);
    (941, 943, 1, (-37)%Z); (945, 961, 1, (-32)%Z); (962, 962, 1, (-31)%Z);
    (963, 971, 1, (-32)%Z); (972, 972, 1, (-64)%Z); (973, 974, 1, (-63)%Z);
    (976, 976, 1, (-62)%Z); (977, 977, 1, (-57)%Z); (981, 981, 1, (-47)%Z);
    (982, 982, 1, (-54)%Z); (983, 983, 1, (-8)%Z); (985, 1007, 2, (-1)%Z);
    (1008, 1008, 1, (-86)%Z); (1009, 1009, 1, (-80)%Z); (1010, 1010, 1, 7%Z);
    (1011, 1011, 1, (-116)%Z); (1013, 1013, 1, (-96)%Z); (1016, 1016, 1, (-1)%Z);
    (1019, 1019, 1, (-1)%Z); (1072, 1103, 1, (-32)%Z); (1104, 1119, 1, (-80)%Z);
    (1121, 1153, 2, (-1)%Z); (1163, 1215, 2, (-1)%Z); (1218, 1230, 2, (-1)%Z);
    (1231, 1231, 1, (-15)%Z); (1233, 1327, 2, (-1)%Z); (1377, 1414, 1, (-48)%Z);
    (4304, 4346, 1, 3008%Z); (4349, 4351, 1, 3008%Z); (5112, 5117, 1, (-8)%Z);
    (7296, 7296, 1, (-6254)%Z); (7297, 7297, 1, (-6253)%Z);
    (7298, 7298, 1, (-6244)%Z); (7299, 7300, 1, (-6242)%Z);
    (7301, 7301, 1, (-6243)%Z); (7302, 7302, 1, (-6236)%Z);
    (7303, 7303, 1, (-6181)%Z); (7304, 7304, 1, 35266%Z);
    (7545, 7545, 1, 35332%Z); (7549, 7549, 1, 3814%Z); (7566, 7566, 1, 35384%Z);
    (7681, 7829, 2, (-1)%Z); (7835, 7835, 1, (-59)%Z); (7841, 7935, 2, (-1)%Z);
    (7936, 7943, 1, 8%Z); (7952, 7957, 1, 8%Z); (7968, 7975, 1, 8%Z);
    (7984, 7991, 1, 8%Z); (8000, 8005, 1, 8%Z); (8017, 8023, 2, 8%Z);
    (8032, 8039, 1, 8%Z); (8048, 8049, 1, 74%Z); (8050, 8053, 1, 86%Z);
    (8054, 8055, 1, 100%Z); (8056, 8057, 1, 128%Z); (8058, 8059, 1, 112%Z);
    (8060, 8061, 1, 126%Z); (8112, 8113, 1, 8%Z); (8126, 8126, 1, (-7205)%Z);
    (8144, 8145, 1, 8%Z); (8160, 8161, 1, 8%Z); (8165, 8165, 1, 7%Z);
    (8526, 8526, 1, (-28)%Z); (8560, 8575, 1, (-16)%Z); (8580, 8580, 1, (-1)%Z);
    (9424, 9449, 1, (-26)%Z); (11312, 11359, 1, (-48)%Z);
    (11361, 11361, 1, (-1)%Z); (11365, 11365, 1, (-10795)%Z);
    (11366, 11366, 1, (-10792)%Z); (11368, 11372, 2, (-1)%Z);
    (11379, 11379, 1, (-1)%Z); (11382, 11382, 1, (-1)%Z);
    (11393, 11491, 2, (-1)%Z); (11500, 11502, 2, (-1)%Z);
    (11507, 11507, 1, (-1)%Z); (11520, 11557, 1, (-7264)%Z);
    (11559, 11559, 1, (-7264)%Z); (11565, 11565, 1, (-7264)%Z);
    (42561, 42605, 2, (-1)%Z); (42625, 42651, 2, (-1)%Z);
    (42787, 42799, 2, (-1)%Z); (42803, 42863, 2, (-1)%Z);
    (42874, 42876, 2, (-1)%Z); (42879, 42887, 2, (-1)%Z);
    (42892, 42892, 1, (-1)%Z); (42897, 42899, 2, (-1)%Z);
    (42900, 42900, 1, 48%Z); (42903, 42921, 2, (-1)%Z);
    (42933, 42947, 2, (-1)%Z); (42952, 42954, 2, (-1)%Z);
    (42961, 42961, 1, (-1)%Z); (42967, 42969, 2, (-1)%Z);
    (42998, 42998, 1, (-1)%Z); (43859, 43859, 1, (-928)%Z);
    (43888, 43967, 1, (-38864)%Z); (65345, 65370, 1, (-32)%Z);
    (66600, 66639, 1, (-40)%Z); (66776, 66811, 1, (-40)%Z);
    (66967, 67003, 2, (-39)%Z); (66968, 66977, 1, (-39)%Z);
    (66980, 66993, 1, (-39)%Z); (66996, 67001, 1, (-39)%Z);
    (67004, 67004, 1, (-39)%Z); (68800, 68850, 1, (-64)%Z);
    (71872, 71903, 1, (-32)%Z); (93792, 93823, 1, (-32)%Z);
    (125218, 125251, 1, (-34)%Z)
  ]%N.

(** The mappings to several code points. *)
Definition upper_special : list (N * list N) :=
  [
    (223, [83; 83]); (329, [700; 78]); (496, [74; 780]);
    (912, [921; 776; 769]); (944, [933; 776; 769]); (1415, [1333; 1362]);
    (7830, [72; 817]); (7831, [84; 776]); (7832, [87; 778]);
    (7833, [89; 778]); (7834, [65; 702]); (8016, [933; 787]);
    (8018, [933; 787; 768]); (8020, [933; 787; 769]);
    (8022, [933; 787; 834]); (8064, [7944; 921]); (8065, [7945; 921]);
    (8066, [7946; 921]); (8067, [7947; 921]); (8068, [7948; 921]);
    (8069, [7949; 921]); (8070, [7950; 921]); (8071, [7951; 921]);
    (8072, [7944; 921]); (8073, [7945; 921]); (8074, [7946; 921]);
    (8075, [7947; 921]); (8076, [7948; 921]); (8077, [7949; 921]);
    (8078, [7950; 921]); (8079, [7951; 921]); (8080, [7976; 921]);
    (8081, [7977; 921]); (8082, [7978; 921]); (8083, [7979; 921]);
    (8084, [7980; 921]); (8085, [7981; 921]); (8086, [7982; 921]);
    (8087, [7983; 921]); (8088, [7976; 921]); (8089, [7977; 921]);
    (8090, [7978; 921]); (8091, [7979; 921]); (8092, [7980; 921]);
    (8093, [7981; 921]); (8094, [7982; 921]); (8095, [7983; 921]);
    (8096, [8040; 921]); (8097, [8041; 921]); (8098, [8042; 921]);
    (8099, [8043; 921]); (8100, [8044; 921]); (8101, [8045; 921]);
    (8102, [8046; 921]); (8103, [8047; 921]); (8104, [8040; 921]);
    (8105, [8041; 921]); (8106, [8042; 921]); (8107, [8043; 921]);
    (8108, [8044; 921]); (8109, [8045; 921]); (8110, [8046; 921]);
    (8111, [8047; 921]); (8114, [8122; 921]); (8115, [913; 921]);
    (8116, [902; 921]); (8118, [913; 834]); (8119, [913; 834; 921]);
    (8124, [913; 921]); (8130, [8138; 921]); (8131, [919; 921]);
    (8132, [905; 921]); (8134, [919; 834]); (8135, [919; 834; 921]);
    (8140, [919; 921]); (8146, [921; 776; 768]); (8147, [921; 776; 769]);
    (8150, [921; 834]); (8151, [921; 776; 834]); (8162, [933; 776; 768]);
    (8163, [933; 776; 769]); (8164, [929; 787]); (8166, [933; 834]);
    (8167, [933; 776; 834]); (8178, [8186; 921]); (8179, [937; 921]);
    (8180, [911; 921]); (8182, [937; 834]); (8183, [937; 834; 921]);
    (8188, [937; 921]); (64256, [70; 70]); (64257, [70; 73]);
    (64258, [70; 76]); (64259, [70; 70; 73]); (64260, [70; 70; 76]);
    (64261, [83; 84]); (64262, [83; 84]); (64275, [1348; 1350]);
    (64276, [1348; 1333]); (64277, [1348; 1339]); (64278, [1358; 1350]);
    (64279, [1348; 1341])
  ]%N.

Definition in_run (c : N) (r : N * N * N * Z) : bool :=
  let '(first, last, stride, _) := r in
  ((first <=? c) && (c <=? last) && ((c - first) mod stride =? 0))%N.

Definition upper_point (c : N) : list N :=
  match List.find (fun kv => (fst kv =? c)%N) upper_special with
  | Some (_, points) => points
  | None =>
      match List.find (in_run c) upper_runs with
      | Some (_, _, _, delta) => [Z.to_N (Z.of_N c + delta)]
      | None => [c]
      end
  end.

Fixpoint code_points (s : jsstring) : list N :=
  match s with
  | [] => []
  | hi :: rest =>
      match rest with
      | lo :: rest' =>
          if is_high_surrogate hi && is_low_surrogate lo
          then (65536 + (hi - 55296) * 1024 + (lo - 56320))%N :: code_points rest'
          else hi :: code_points rest
      | [] => [hi]
      end
  end.

Definition code_units (c : N) : list N :=
  (if c <? 65536 then [c]
   else [55296 + (c - 65536) / 1024; 56320 + (c - 65536) mod 1024])%N.

Definition toUpperCase (s : jsstring) : jsstring :=
  List.flat_map code_units (List.flat_map upper_point (code_points s)).

Definition lower_unit (c : N) : N :=
  (if (65 <=? c) && (c <=? 90) then c + 32 else c)%N.
Definition toLowerCase (s : jsstring) : jsstring := List.map lower_unit s.

End Builtins.
Export Builtins.

(** ** Values at run time *)

Module Value.

(** [!!v] *)
Definition truthy (v : json) : bool :=
  match v with
  | JNull => false
  | JBool b => b
  | JNum (Dec m _) => negb (m =? 0)
  | JNum NaN => false
  | JNum (Inf _) => true
  | JStr s => match s with [] => false | _ :: _ => true end
  | JArr _ | JObj _ => true
  end.

Definition truthy_opt (o : option json) : bool :=
  match o with
  | Some v => truthy v
  | None => false
  end.

(** [x || d] *)
Definition or_default (x : option json) (d : json) : json :=
  match x with
  | Some v => if truthy v then v else d
  | None => d
  end.

Definition isArray (x : option json) : bool :=
  match x with
  | Some (JArr _) => true
  | _ => false
  end.

(** [n || null] on a number *)
Definition num_or_null (n : number) : json :=
  if truthy (JNum n) then JNum n else JNull.

(** [responses.length] *)
Definition length_of (x : option json) : Z :=
  match x with
  | Some (JArr l) => Z.of_nat (List.length l)
  | Some (JStr s) => len s
  | _ => 0
  end.

Definition elements_of (x : option json) : list json :=
  match x with
  | Some (JArr l) => l
  | _ => []
  end.

(** [v.k] on a value that is neither [null] nor [undefined], for the
    property names the handlers read (none of them is inherited from a
    prototype): own properties of objects, nothing elsewhere. *)
Definition get (v : json) (k : jsstring) : option json :=
  match v with
  | JObj l => assoc k l
  | _ => None
  end.

(** [v?.k] *)
Definition get_opt (v : option json) (k : jsstring) : option json :=
  match v with
  | Some JNull | None => None
  | Some x => get x k
  end.

(** [{ ...o, k: v }] one key at a time; a key bound to [undefined] is
    left out, as [res.json] leaves it out of the reply. *)
Definition set_field (k : string) (v : option json) (o : json) : json :=
  match o, v with
  | JObj l, Some x => JObj (obj_set (js k) x l)
  | _, _ => o
  end.
Arguments set_field k%_string v o.

End Value.
Export Value.

(** ** Handlers as computations

    A handler threads a world (the upload directory, the student
    collection, the record of requests sent to other services) and
    either returns or throws. *)

Module Exec.

Record exn : Type := Exn {
  ename : jsstring;
  emessage : jsstring;
  ecode : Z;
  eerrors : list jsstring       (* the messages of [error.errors] *)
}.

Definition Error (msg : jsstring) : exn := Exn (js "Error") msg 0 [].
Definition TypeError : exn := Exn (js "TypeError") (js "Cannot read properties") 0 [].
Definition SyntaxError : exn := Exn (js "SyntaxError") (js "Unexpected token") 0 [].
Definition ENOENT : exn := Error (js "ENOENT: no such file or directory").
Definition MongoDown : exn := Exn (js "MongoNetworkError") (js "connection closed") 0 [].
Definition ValidationError (errors : list jsstring) : exn :=
  Exn (js "ValidationError") (js "Student validation failed") 0 errors.
Definition CastError : exn := Exn (js "CastError") (js "Cast to ObjectId failed") 0 [].
Definition DuplicateKey : exn :=
  Exn (js "MongoServerError") (js "E11000 duplicate key error") 11000 [].
Definition ImmutableField : exn :=
  Exn (js "MongoServerError")
    (js "Performing an update on the path '_id' would modify the immutable field '_id'") 66 [].

Inductive service : Type := Groq | AppPy | Cloudinary | Mongo.

Record world : Type := World {
  uploads : gmap jsstring jsstring;   (* path -> text of the staged file *)
  students : list json;               (* the Student collection *)
  mongo_up : bool;                    (* whether the connection answers *)
  sent : list service                 (* requests sent, latest first *)
}.

Inductive outcome (A : Type) : Type :=
| Ret (a : A)
| Throw (e : exn).
Arguments Ret {A} a.
Arguments Throw {A} e.

Definition M (A : Type) : Type := world -> outcome A * world.

Definition ret {A} (a : A) : M A := fun w => (Ret a, w).
Definition throw {A} (e : exn) : M A := fun w => (Throw e, w).
Definition bind {A B} (m : M A) (f : A -> M B) : M B :=
  fun w =>
    match m w with
    | (Ret a, w') => f a w'
    | (Throw e, w') => (Throw e, w')
    end.

(** [try { m } catch (e) { h e }] *)
Definition try_catch {A} (m : M A) (h : exn -> M A) : M A :=
  fun w =>
    match m w with
    | (Ret a, w') => (Ret a, w')
    | (Throw e, w') => h e w'
    end.

(** The answer of another service to the one request a handler sends
    it at a given place. *)
Inductive reply (A : Type) : Type :=
| Fails (e : exn)
| Replies (a : A).
Arguments Fails {A} e.
Arguments Replies {A} a.

Definition note (s : service) (w : world) : world :=
  World (uploads w) (students w) (mongo_up w) (s :: sent w).

(** [await] of a request to [s] whose answer is [r]. *)
Definition request {A} (s : service) (r : reply A) : M A :=
  fun w =>
    (match r with Fails e => Throw e | Replies a => Ret a end, note s w).

(** [JSON.parse(text)] *)
Definition parse (text : jsstring) : M json :=
  match JSON_parse text with
  | Some v => ret v
  | None => throw SyntaxError
  end.

(** [v.k], which throws on [null] and [undefined] *)
Definition member (v : option json) (k : string) : M (option json) :=
  match v with
  | Some JNull | None => throw TypeError
  | Some x => ret (get x (js k))
  end.
Arguments member v k%_string.

(** [fs.unlinkSync(path)] *)
Definition unlinkSync (path : jsstring) : M unit :=
  fun w =>
    match uploads w !! path with
    | Some _ =>
        (Ret tt, World (delete path (uploads w)) (students w) (mongo_up w) (sent w))
    | None => (Throw ENOENT, w)
    end.

(** [fs.readFileSync(path, 'utf8')] *)
Definition readFileSync (path : jsstring) : M jsstring :=
  fun w =>
    match uploads w !! path with
    | Some text => (Ret text, w)
    | None => (Throw ENOENT, w)
    end.

Fixpoint mapM {A B} (f : A -> M B) (l : list A) : M (list B) :=
  match l with
  | [] => ret []
  | x :: l' => bind (f x) (fun y => bind (mapM f l') (fun ys => ret (y :: ys)))
  end.

(** [l.map((x, index) => f index x)] *)
Fixpoint mapM_index {A B} (f : nat -> A -> M B) (i : nat) (l : list A) : M (list B) :=
  match l with
  | [] => ret []
  | x :: l' =>
      bind (f i x) (fun y => bind (mapM_index f (S i) l') (fun ys => ret (y :: ys)))
  end.

Record response : Type := Response { status : Z; body : json }.

(** [res.json(b)] and [res.status(c).json(b)] *)
Definition res_json (b : json) : M response := ret (Response 200 b).
Definition res_status (c : Z) (b : json) : M response := ret (Response c b).

End Exec.
Export Exec.

Notation "x <- m ;; k" := (bind m (fun x => k))
  (at level 100, m at next level, right associativity,
   format "'[v' x  <-  m  ;;  '/' k ']'").
Notation "m ;;; k" := (bind m (fun _ => k))
  (at level 100, right associativity, format "'[v' m  ;;;  '/' k ']'").

(** ** The JSON text of a completion *)

Module JsonText.

(** The block repeated before [JSON.parse] in the soft-skills, resume
    (twice) and marks handlers:
<<
    let jsonContent = content;
    const jsonMatch = content.match(FENCE);
    if (jsonMatch) { jsonContent = jsonMatch[1]; }
    else {
      const jsonStart = content.indexOf('{');
      const jsonEnd = content.lastIndexOf('}') + 1;
      if (jsonStart !== -1 && jsonEnd > jsonStart)
        jsonContent = content.slice(jsonStart, jsonEnd);
    }
>> *)
Definition extract_json_content (content : jsstring) : jsstring :=
  match str_match fence_re content with
  | Some jsonMatch =>
      match jsonMatch with
      | Some group1 => group1
      | None => js "undefined"
      end
  | None =>
      let jsonStart := indexOf content 123 in
      let jsonEnd := lastIndexOf content 125 + 1 in
      if negb (jsonStart =? -1) && (jsonEnd >? jsonStart)
      then slice content jsonStart jsonEnd
      else content
  end.

(** The profile handler:
<<
    const jsonMatch = content.match(FENCE) || [null, content];
    const jsonContent = jsonMatch[1];
>> *)
Definition extract_profile_content (content : jsstring) : jsstring :=
  match str_match fence_re content with
  | Some jsonMatch =>
      match jsonMatch with
      | Some group1 => group1
      | None => js "undefined"
      end
  | None => content
  end.

(** The three ordered strategies in the words of the specification:
    the content of a fenced block if there is one; else the text from
    the first opening brace to the last closing brace when both exist
    and the first precedes the last; else the whole text. *)
Fixpoint first_index (c : N) (s : jsstring) : option nat :=
  match s with
  | [] => None
  | x :: s' => if N.eqb x c then Some O else option_map S (first_index c s')
  end.

Fixpoint last_index (c : N) (s : jsstring) : option nat :=
  match s with
  | [] => None
  | x :: s' =>
      match last_index c s' with
      | Some j => Some (S j)
      | None => if N.eqb x c then Some O else None
      end
  end.

Definition fenced_block (text : jsstring) : option jsstring :=
  match str_match fence_re text with
  | Some (Some inner) => Some inner
  | _ => None
  end.

Definition spec_extract (text : jsstring) : jsstring :=
  match fenced_block text with
  | Some inner => inner
  | None =>
      match first_index 123 text, last_index 125 text with
      | Some i, Some j =>
          if Nat.ltb i j then firstn (j - i + 1) (skipn i text) else text
      | _, _ => text
      end
  end.

(** [groqResponse.choices[0]?.message?.content || d] *)
Definition content_or (completion : option jsstring) (d : jsstring) : jsstring :=
  match completion with
  | Some (c :: s) => c :: s
  | _ => d
  end.

(** The serialisation of a value inside a fence, as the prompts ask a
    model to answer. *)
Definition fence (s : jsstring) : jsstring :=
  js "```json" ++ [10%N] ++ s ++ [10%N] ++ js "```".

(** Extraction followed by [JSON.parse]; [None] is the thrown error. *)
Definition extractJson (content : jsstring) : option json :=
  JSON_parse (extract_json_content content).

End JsonText.
Export JsonText.

(** ** The student collection

    [Student] is a schema declared over a document store.  The store is
    the list of its documents, a query is a search in that list, and
    the declared schema is the casting and the validation below; every
    operation throws when the connection is down.

    Of the schema, the paths that the handlers rely on are modelled:
    [_id], [name], [usn], [email] ([String], required) and [semester]
    ([Number], required, one of 1 to 8).  What is given under another
    declared path is kept as it is given: the casting of those paths
    and of what lies below the top level, the defaults, and the order
    of the keys of a stored document are left out. *)

Module Db.

Definition has_id (id : jsstring) (d : json) : bool :=
  match get d (js "_id") with
  | Some (JStr s) => Str.eqb s id
  | _ => false
  end.

Definition has_usn (u : jsstring) (d : json) : bool :=
  match get d (js "usn") with
  | Some (JStr s) => Str.eqb s u
  | _ => false
  end.

(** *** Casting

    What the schema makes of a value given for a path: nothing when the
    value is [null] or [undefined], the value cast to the declared type,
    or a cast error. *)
Inductive casting : Type :=
| Absent
| Cast (v : json)
| CastFails.

(** A [String] path: a value with a [toString] of its own is printed;
    an object stands for its [_id] when that is a string; an array and
    any other object are refused. *)
Definition castString (x : option json) : casting :=
  match x with
  | None | Some JNull => Absent
  | Some (JStr s) => Cast (JStr s)
  | Some (JNum n) => Cast (JStr (Number_toString n))
  | Some (JBool true) => Cast (jstr "true")
  | Some (JBool false) => Cast (jstr "false")
  | Some (JArr _) => CastFails
  | Some (JObj l) =>
      match assoc (js "_id") l with
      | Some (JStr (c :: id)) => Cast (JStr (c :: id))
      | _ => CastFails
      end
  end.

(** A [Number] path: the empty string is [null]; a string and a
    boolean go through [Number(..)], which must not give [NaN]; an
    array and an object are refused. *)
Definition castNumber (x : option json) : casting :=
  match x with
  | None | Some JNull => Absent
  | Some (JStr []) => Absent
  | Some (JStr s) =>
      match StringToNumber s with
      | NaN => CastFails
      | n => Cast (JNum n)
      end
  | Some (JBool true) => Cast (jnum 1)
  | Some (JBool false) => Cast (jnum 0)
  | Some (JNum NaN) => CastFails
  | Some (JNum n) => Cast (JNum n)
  | Some (JArr _) | Some (JObj _) => CastFails
  end.

(** An [ObjectId] written as a string: 24 hexadecimal digits.  (The
    12-byte strings that some versions of the driver accept as well are
    not modelled.) *)
Definition is_object_id (s : jsstring) : bool :=
  (len s =? 24)
  && forallb (fun c => match hex_val c with Some _ => true | None => false end) s.

(** An [ObjectId] path: the value is written out, its [_id] standing
    for an object that has one, and read as an [ObjectId], which prints
    in lower case. *)
Definition castObjectId (x : option json) : casting :=
  match x with
  | None | Some JNull => Absent
  | Some v =>
      let written :=
        match get v (js "_id") with
        | Some id => if truthy id then ToString id else ToString v
        | None => ToString v
        end in
      if is_object_id written then Cast (JStr (toLowerCase written)) else CastFails
  end.

(** [required] on a [String] path: a string that is not empty. *)
Definition nonempty_string (x : option json) : bool :=
  match castString x with
  | Cast (JStr (_ :: _)) => true
  | _ => false
  end.

(** [required] and [enum: [1, 2, 3, 4, 5, 6, 7, 8]] on [semester]. *)
Definition semester_ok (x : option json) : bool :=
  match castNumber x with
  | Cast (JNum (Dec m e)) => (e =? 0) && (1 <=? m) && (m <=? 8)
  | _ => false
  end.

(** The validation of a document.  The result lists the paths that
    fail, a path standing for the message of its error. *)
Definition check (ok : bool) (path : string) : list jsstring :=
  if ok then [] else [js path].
Arguments check ok path%_string.

Definition validate (d : json) : list jsstring :=
  check (nonempty_string (get d (js "name"))) "name"
  ++ check (nonempty_string (get d (js "usn"))) "usn"
  ++ check (nonempty_string (get d (js "email"))) "email"
  ++ check (semester_ok (get d (js "semester"))) "semester".

Definition valid_student (d : json) : bool :=
  match validate d with [] => true | _ :: _ => false end.

(** The paths that the schema declares at top level.  The schema is
    strict: what is given under another name is not kept. *)
Definition declared : list jsstring :=
  List.map js
    [ "_id"; "name"; "usn"; "email"; "photo"; "githubUrl"; "leetcodeUrl";
      "semester"; "github"; "leetcode"; "marks"; "resume";
      "softSkillsAssessment"; "analysis"; "createdAt"; "updatedAt"; "__v" ]%string.

Definition declared_path (k : jsstring) : bool := existsb (Str.eqb k) declared.

Definition strict (d : json) : json :=
  match d with
  | JObj l => JObj (List.filter (fun kv => declared_path (fst kv)) l)
  | _ => d
  end.

(** The casting of a modelled path. *)
Definition caster (k : jsstring) : option (option json -> casting) :=
  if Str.eqb k (js "_id") then Some castObjectId
  else if Str.eqb k (js "name") || Str.eqb k (js "usn") || Str.eqb k (js "email")
  then Some castString
  else if Str.eqb k (js "semester") then Some castNumber
  else None.

(** The document as the schema keeps it: each modelled path holds the
    cast value, where there is one.  (A value that cannot be cast is
    left in place: the validation refuses it.) *)
Definition cast_path (cast : option json -> casting) (path : string) (d : json) : json :=
  match cast (get d (js path)) with
  | Cast v => set_field path (Some v) d
  | _ => d
  end.
Arguments cast_path cast path%_string d.

Definition cast_student (d : json) : json :=
  cast_path castNumber "semester"
    (cast_path castString "email"
       (cast_path castString "usn"
          (cast_path castString "name"
             (cast_path castObjectId "_id" (strict d))))).

Definition with_students (l : list json) (w : world) : world :=
  World (uploads w) l (mongo_up w) (Mongo :: sent w).

(** A query that only reads. *)
Definition query {A} (f : list json -> outcome A) : M A :=
  fun w =>
    if mongo_up w then (f (students w), note Mongo w)
    else (Throw MongoDown, note Mongo w).

(** [Student.findById(id)] *)
Definition findById (id : option json) : M (option json) :=
  match castObjectId id with
  | Cast (JStr s) => query (fun l => Ret (List.find (has_id s) l))
  | Absent => query (fun l => Ret None)
  | Cast _ | CastFails => throw CastError
  end.

(** A document whose [usn] is [null] or missing: what the filter
    [{ usn: null }] selects. *)
Definition lacks_usn (d : json) : bool :=
  match get d (js "usn") with
  | None | Some JNull => true
  | Some _ => false
  end.

(** [Student.findOne({ usn })].  A string is looked up as it is; any
    other value is cast as the [String] path casts it, [null] and
    [undefined] selecting the documents without a USN. *)
Definition findOne_usn (usn : option json) : M (option json) :=
  query (fun l =>
    match usn with
    | Some (JStr s) => Ret (List.find (has_usn s) l)
    | _ =>
        match castString usn with
        | Cast (JStr s) => Ret (List.find (has_usn s) l)
        | Cast _ | CastFails => Throw CastError
        | Absent => Ret (List.find lacks_usn l)
        end
    end).

Definition same_id (d d' : json) : bool :=
  match get d (js "_id") with
  | Some (JStr s) => has_id s d'
  | _ => false
  end.

Definition same_usn (d d' : json) : bool :=
  match get d (js "usn") with
  | Some (JStr s) => has_usn s d'
  | _ => false
  end.

(** The unique index on [usn]. *)
Definition usn_taken (d : json) (l : list json) : bool :=
  existsb (fun d' => same_usn d d' && negb (same_id d d')) l.

Fixpoint replace_or_add (d : json) (l : list json) : list json :=
  match l with
  | [] => [d]
  | d' :: l' => if same_id d d' then d :: l' else d' :: replace_or_add d l'
  end.

(** [doc.save()]: validation, then the write under the unique index. *)
Definition save (d : json) : M unit :=
  fun w =>
    if negb (valid_student d) then (Throw (ValidationError (validate d)), w)
    else if negb (mongo_up w) then (Throw MongoDown, note Mongo w)
    else if usn_taken d (students w) then (Throw DuplicateKey, note Mongo w)
    else (Ret tt, with_students (replace_or_add d (students w)) w).

End Db.
Export Db.

(** ** Soft-skills assessment *)

Module SoftSkills.

Record question : Type := Question {
  q_id : Z;
  q_question : jsstring;
  q_category : jsstring;
  q_skills : list jsstring
}.

Definition SOFT_SKILLS_QUESTIONS : list question :=
  [ Question 1
      (js "Describe a challenging project you worked on and how you overcame the obstacles. What did you learn from this experience?")
      (js "Problem Solving & Resilience")
      [js "problem_solving"; js "resilience"; js "learning_agility"];
    Question 2
      (js "Tell me about a time when you had to work with a difficult team member or in a challenging team environment. How did you handle the situation?")
      (js "Communication & Teamwork")
      [js "communication"; js "teamwork"; js "conflict_resolution"];
    Question 3
      (js "Describe a situation where you had to learn a new technology or skill quickly to complete a task or project. What was your approach?")
      (js "Adaptability & Learning")
      [js "adaptability"; js "learning_agility"; js "self_motivation"];
    Question 4
      (js "Give an example of when you had to take initiative or leadership in a project or situation, even when it wasn't formally assigned to you.")
      (js "Leadership & Initiative")
      [js "leadership"; js "initiative"; js "responsibility"];
    Question 5
      (js "Describe a time when you received constructive feedback or criticism. How did you respond, and what changes did you make as a result?")
      (js "Growth Mindset & Professionalism")
      [js "growth_mindset"; js "professionalism"; js "self_awareness"] ].

(** The callback of [responses.map]. *)
Definition format_response (index : nat) (response : json) : M json :=
  q <- match nth_error SOFT_SKILLS_QUESTIONS index with
       | Some q => ret q
       | None => throw TypeError
       end ;;
  answer <- member (Some response) "answer" ;;
  ret (obj [ "question" ~> (JStr (q_question q));
             "category" ~> (JStr (q_category q));
             "targetSkills" ~> (JArr (List.map JStr (q_skills q)));
             "studentAnswer" ~> (or_default answer (JStr []));
             "questionId" ~> (jnum (Z.of_nat index + 1)) ]).

(** The object built after a successful [JSON.parse]. *)
Definition normalize (analysisData : json) (now : jsstring) (formattedResponses : json)
  : M json :=
  let a := Some analysisData in
  overallSoftSkillsScore <- member a "overallSoftSkillsScore" ;;
  skillBreakdown <- member a "skillBreakdown" ;;
  strengths <- member a "strengths" ;;
  areasForImprovement <- member a "areasForImprovement" ;;
  developmentRecommendations <- member a "developmentRecommendations" ;;
  personalityTraits <- member a "personalityTraits" ;;
  careerFitness <- member a "careerFitness" ;;
  detailedAnalysis <- member a "detailedAnalysis" ;;
  ret (obj [
    "overallSoftSkillsScore" ~> (or_default overallSoftSkillsScore (jnum 50));
    "skillBreakdown" ~> (or_default skillBreakdown (obj []));
    "strengths" ~> (or_default strengths (JArr []));
    "areasForImprovement" ~> (or_default areasForImprovement (JArr []));
    "developmentRecommendations" ~> (or_default developmentRecommendations (JArr []));
    "personalityTraits" ~> (or_default personalityTraits (JArr []));
    "careerFitness" ~> (or_default careerFitness
       (obj [ "technicalRoles" ~> (jnum 5); "managementRoles" ~> (jnum 5);
              "consultingRoles" ~> (jnum 5); "entrepreneurialRoles" ~> (jnum 5) ]));
    "detailedAnalysis" ~> (or_default detailedAnalysis (jstr "Analysis completed successfully."));
    "assessmentDate" ~> (JStr now);
    "responses" ~> (formattedResponses) ]).

Definition skill (score : Z) : json :=
  obj [ "score" ~> (jnum score);
        "feedback" ~> (jstr "Assessment completed - detailed analysis available.") ].

(** The object of the [catch (parseError)] branch. *)
Definition parse_failure_payload (now : jsstring) (formattedResponses : json) : json :=
  obj [
    "overallSoftSkillsScore" ~> (jnum 70);
    "skillBreakdown" ~>
       (obj [ "communication" ~> (skill 7); "teamwork" ~> (skill 7);
             "problem_solving" ~> (skill 7); "leadership" ~> (skill 6);
             "adaptability" ~> (skill 7); "learning_agility" ~> (skill 8);
             "initiative" ~> (skill 6); "professionalism" ~> (skill 7) ]);
    "strengths" ~> (JArr [jstr "Completed comprehensive assessment"]);
    "areasForImprovement" ~> (JArr [jstr "Continue developing professional skills"]);
    "developmentRecommendations" ~>
       (JArr [jstr "Review detailed analysis for specific guidance"]);
    "personalityTraits" ~> (JArr [jstr "Engaged"; jstr "Thoughtful"]);
    "careerFitness" ~>
       (obj [ "technicalRoles" ~> (jnum 7); "managementRoles" ~> (jnum 6);
             "consultingRoles" ~> (jnum 6); "entrepreneurialRoles" ~> (jnum 6) ]);
    "detailedAnalysis" ~>
       (jstr "Soft skills assessment completed. The student provided thoughtful responses to all questions, demonstrating engagement with the assessment process.");
    "assessmentDate" ~> (JStr now);
    "responses" ~> (formattedResponses) ].

(** [content -> analysisData]: extraction, parse and normalisation
    under one [try], the static payload in its [catch]. *)
Definition analysis_of (content now : jsstring) (formattedResponses : json) : M json :=
  let jsonContent := extract_json_content content in
  try_catch
    (analysisData <- parse jsonContent ;;
     normalize analysisData now formattedResponses)
    (fun parseError => ret (parse_failure_payload now formattedResponses)).

(** The [if (studentId)] block; its own [catch] swallows every error. *)
Definition persist (studentId : option json) (analysisData : json) : M unit :=
  if truthy_opt studentId then
    try_catch
      (student <- findById studentId ;;
       match student with
       | Some s =>
           if truthy s
           then save (set_field "softSkillsAssessment" (Some analysisData) s)
           else ret tt
       | None => ret tt
       end)
      (fun dbError => ret tt)
  else ret tt.

(** [app.post('/api/soft-skills/analyze')].  [groq] is the answer of
    the completion service: the [content] of its first choice when
    there is one. *)
Definition analyze (req_body : json) (now : jsstring)
    (groq : reply (option jsstring)) : M response :=
  try_catch
    (responses <- member (Some req_body) "responses" ;;
     studentId <- member (Some req_body) "studentId" ;;
     if negb (truthy_opt responses) || negb (isArray responses)
        || negb (length_of responses =? 5)
     then res_status 400
            (obj [ "success" ~> (JBool false);
                   "error" ~> (jstr "All 5 question responses are required") ])
     else
       formatted <- mapM_index format_response 0 (elements_of responses) ;;
       let formattedResponses := JArr formatted in
       completion <- request Groq groq ;;
       let content := content_or completion [] in
       analysisData <- analysis_of content now formattedResponses ;;
       persist studentId analysisData ;;;
       res_json (obj [ "success" ~> (JBool true);
                       "data" ~> (analysisData);
                       "message" ~> (jstr "Soft skills assessment completed successfully") ]))
    (fun error =>
       res_status 500
         (obj [ "success" ~> (JBool false);
                "error" ~> (jstr "Error analyzing soft skills responses");
                "details" ~> (JStr (emessage error)) ])).

End SoftSkills.

(** ** Student records by USN *)

Module Students.

(** [if (body.usn) body.usn = body.usn.toUpperCase();] *)
Definition normalize_usn (req_body : json) : M json :=
  usn <- member (Some req_body) "usn" ;;
  if truthy_opt usn then
    match usn with
    | Some (JStr s) => ret (set_field "usn" (Some (JStr (toUpperCase s))) req_body)
    | _ => throw TypeError
    end
  else ret req_body.

(** [new Student(studentData)]: the declared paths, cast, under the
    [_id] that is given or else under a generated one, [new_id]. *)
Definition new_Student (studentData : json) (new_id : jsstring) : json :=
  let d := cast_student studentData in
  match get d (js "_id") with
  | Some _ => d
  | None => set_field "_id" (Some (JStr new_id)) d
  end.

(** [newStudent.save()]: the validation, a cast error counting as the
    error of its path; then the write, under the unique indexes. *)
Definition insert (d : json) : M unit :=
  fun w =>
    let id := castObjectId (get d (js "_id")) in
    let errors :=
      validate d ++ check (match id with CastFails => false | _ => true end) "_id" in
    match errors, id with
    | _ :: _, _ => (Throw (ValidationError errors), w)
    | [], Cast _ =>
        if negb (mongo_up w) then (Throw MongoDown, note Mongo w)
        else if existsb (same_id d) (students w) || usn_taken d (students w)
        then (Throw DuplicateKey, note Mongo w)
        else (Ret tt, with_students (students w ++ [d]) w)
    | [], _ => (Throw (Error (js "document must have an _id before saving")), w)
    end.

(** [app.get('/api/students/usn/:usn')] *)
Definition get_by_usn (usn : jsstring) : M response :=
  try_catch
    (student <- findOne_usn (Some (JStr (toUpperCase usn))) ;;
     match student with
     | None => res_status 404 (obj ["error" ~> jstr "Student not found"])
     | Some s => res_json s
     end)
    (fun error => res_status 500 (obj ["error" ~> jstr "Error fetching student by USN"])).

(** [app.post('/api/students')] *)
Definition create (req_body : json) (new_id : jsstring) : M response :=
  try_catch
    (studentData <- normalize_usn req_body ;;
     usn <- member (Some studentData) "usn" ;;
     existingStudent <- findOne_usn usn ;;
     match existingStudent with
     | Some _ =>
         res_status 400 (obj ["error" ~> jstr "Student with this USN already exists"])
     | None =>
         let newStudent := new_Student studentData new_id in
         insert newStudent ;;;
         res_status 201 newStudent
     end)
    (fun error =>
       if ecode error =? 11000 then
         res_status 400 (obj ["error" ~> jstr "Student with this USN already exists"])
       else if Str.eqb (ename error) (js "ValidationError") then
         res_status 400 (obj [ "error" ~> jstr "Validation error";
                               "details" ~> JArr (List.map JStr (eerrors error)) ])
       else res_status 500 (obj ["error" ~> jstr "Error creating student"])).

(** *** [Student.findByIdAndUpdate(id, update, { new: true, runValidators: true })]

    Of the update operators, [$set] is modelled: an update with another
    operator, or with a dotted path, is outside the model. *)

Definition is_operator (k : jsstring) : bool :=
  match k with
  | c :: _ => (c =? 36)%N
  | [] => false
  end.

(** [target[k] = v] *)
Definition assign (target : list (jsstring * json)) (kv : jsstring * json)
  : list (jsstring * json) :=
  obj_set (fst kv) (snd kv) target.

(** The update as it is sent: what is given at top level is moved
    under [$set], over the entries that [$set] has.  A [$set] that is
    not an object is refused, unless it is falsy and something is given
    at top level; an array has no declared path.  (A body that is an
    array, an update pipeline, is outside the model.) *)
Definition set_of (update : json) : outcome (list (jsstring * json)) :=
  match update with
  | JObj fields =>
      let plain := List.filter (fun kv => negb (is_operator (fst kv))) fields in
      let over given := fold_left assign (given ++ plain) [] in
      match assoc (js "$set") fields with
      | None => Ret (over [])
      | Some (JObj given) => Ret (over given)
      | Some (JArr _) => Ret (over [])
      | Some v =>
          match plain with
          | _ :: _ => if truthy v then Throw TypeError else Ret (over [])
          | [] => Throw (Error (js "Invalid atomic update value for $set"))
          end
      end
  | _ => Ret []
  end.

(** The entries of [$set], cast: an undeclared path is dropped, [null]
    stays, and a value that cannot be cast is an error. *)
Fixpoint cast_update (given : list (jsstring * json)) : option (list (jsstring * json)) :=
  match given with
  | [] => Some []
  | (k, v) :: rest =>
      if negb (declared_path k) then cast_update rest
      else
        let cast_value :=
          match caster k with
          | Some cast =>
              match cast (Some v) with
              | Cast x => Some x
              | Absent => Some JNull
              | CastFails => None
              end
          | None => Some v
          end in
        match cast_value, cast_update rest with
        | Some x, Some rest' => Some ((k, x) :: rest')
        | _, _ => None
        end
  end.

(** The update validators of [runValidators: true]: only the paths
    that the update sets. *)
Definition validate_update (fields : list (jsstring * json)) : list jsstring :=
  let on (path : string) (ok : option json -> bool) :=
    match assoc (js path) fields with
    | Some v => check (ok (Some v)) path
    | None => []
    end in
  on "name"%string nonempty_string ++ on "usn"%string nonempty_string
  ++ on "email"%string nonempty_string ++ on "semester"%string semester_ok.

(** Whether the update gives the document another [_id]. *)
Definition changes_id (fields : list (jsstring * json)) (d : json) : bool :=
  match assoc (js "_id") fields with
  | Some (JStr s) => negb (has_id s d)
  | Some _ => true
  | None => false
  end.

Definition apply_update (fields : list (jsstring * json)) (d : json) : json :=
  match d with
  | JObj l =>
      JObj (fold_left
              (fun acc kv =>
                 if Str.eqb (fst kv) (js "_id") then acc
                 else obj_set (fst kv) (snd kv) acc)
              fields l)
  | _ => d
  end.

Definition findByIdAndUpdate (id : jsstring) (update : json) : M (option json) :=
  fun w =>
    match castObjectId (Some (JStr id)), set_of update with
    | Cast (JStr id'), Ret given =>
        match cast_update given with
        | None => (Throw CastError, w)
        | Some fields =>
            match validate_update fields with
            | _ :: _ => (Throw (ValidationError (validate_update fields)), w)
            | [] =>
                if negb (mongo_up w) then (Throw MongoDown, note Mongo w)
                else
                  match List.find (has_id id') (students w) with
                  | None => (Ret None, note Mongo w)
                  | Some d =>
                      let d' := apply_update fields d in
                      if changes_id fields d then (Throw ImmutableField, note Mongo w)
                      else if usn_taken d' (students w)
                      then (Throw DuplicateKey, note Mongo w)
                      else (Ret (Some d'),
                            with_students (replace_or_add d' (students w)) w)
                  end
            end
        end
    | Cast (JStr _), Throw e => (Throw e, w)
    | _, _ => (Throw CastError, w)
    end.

(** [app.put('/api/students/:id')] *)
Definition update (id : jsstring) (req_body : json) : M response :=
  try_catch
    (body' <- normalize_usn req_body ;;
     updatedStudent <- findByIdAndUpdate id body' ;;
     match updatedStudent with
     | None => res_status 404 (obj ["error" ~> jstr "Student not found"])
     | Some d => res_json d
     end)
    (fun error =>
       if Str.eqb (ename error) (js "CastError") then
         res_status 400 (obj ["error" ~> jstr "Invalid student ID format"])
       else if Str.eqb (ename error) (js "ValidationError") then
         res_status 400 (obj [ "error" ~> jstr "Validation error";
                               "details" ~> JArr (List.map JStr (eerrors error)) ])
       else res_status 500 (obj ["error" ~> jstr "Error updating student"])).

End Students.

(** ** Profile analysis *)

Module Profile.

(** The [completeAnalysis] object. *)
Definition normalize (analysisData : json) : M json :=
  let a := Some analysisData in
  strengths <- member a "strengths" ;;
  weaknesses <- member a "weaknesses" ;;
  recommendations <- member a "recommendations" ;;
  overallScore <- member a "overallScore" ;;
  skillGaps <- member a "skillGaps" ;;
  careerSuggestions <- member a "careerSuggestions" ;;
  learningPath <- member a "learningPath" ;;
  detailedAnalysis <- member a "detailedAnalysis" ;;
  ret (obj [
    "strengths" ~> or_default strengths (JArr []);
    "weaknesses" ~> or_default weaknesses (JArr []);
    "recommendations" ~> or_default recommendations (JArr []);
    "overallScore" ~> or_default overallScore (jnum 50);
    "skillGaps" ~> or_default skillGaps (JArr []);
    "careerSuggestions" ~> or_default careerSuggestions (JArr []);
    "learningPath" ~> or_default learningPath (JArr []);
    "detailedAnalysis" ~> or_default detailedAnalysis (jstr "Analysis completed successfully.") ]).

(** [app.post('/api/students/usn/:usn/analyze')] *)
Definition analyze (usn : jsstring) (groq : reply (option jsstring)) : M response :=
  try_catch
    (student <- findOne_usn (Some (JStr (toUpperCase usn))) ;;
     match student with
     | None => res_status 404 (obj ["error" ~> jstr "Student not found"])
     | Some student =>
         completion <- request Groq groq ;;
         let content := content_or completion [] in
         let jsonContent := extract_profile_content content in
         try_catch
           (analysisData <- parse jsonContent ;;
            completeAnalysis <- normalize analysisData ;;
            save (set_field "analysis" (Some completeAnalysis) student) ;;;
            res_json completeAnalysis)
           (fun err => res_status 500 (obj ["error" ~> jstr "Error generating analysis"]))
     end)
    (fun error => res_status 500 (obj ["error" ~> jstr "Error analyzing student data"])).

End Profile.

(** ** Uploaded files *)

Module Upload.

(** [req.file] as the disk storage of the upload middleware leaves it:
<<
    destination: cb(null, 'uploads/')
    filename:    cb(null, Date.now() + '-' + file.originalname)
>>
    The file is staged at [f_path] before the handler runs. *)
Record file : Type := File {
  f_stamp : Z;                  (* Date.now() at the upload *)
  f_originalname : jsstring;
  f_mimetype : jsstring;
  f_size : Z
}.

Definition f_filename (f : file) : jsstring :=
  Number_toString (num_of_Z (f_stamp f)) ++ js "-" ++ f_originalname f.

Definition f_path (f : file) : jsstring := js "uploads/" ++ f_filename f.

(** [if (req.file && req.file.path) { try { fs.unlinkSync(..) } catch {} }] *)
Definition cleanup (req_file : option file) : M unit :=
  match req_file with
  | Some f =>
      match f_path f with
      | _ :: _ => try_catch (unlinkSync (f_path f)) (fun unlinkError => ret tt)
      | [] => ret tt
      end
  | None => ret tt
  end.

(** [app.post('/api/upload-photo')] *)
Definition upload_photo (req_file : option file) (cloudinary : reply json) : M response :=
  try_catch
    (match req_file with
     | None => res_status 400 (obj ["error" ~> jstr "No photo file uploaded"])
     | Some f =>
         result <- request Cloudinary cloudinary ;;
         unlinkSync (f_path f) ;;;
         secure_url <- member (Some result) "secure_url" ;;
         res_json (set_field "url" secure_url (obj []))
     end)
    (fun error =>
       cleanup req_file ;;;
       res_status 500 (obj ["error" ~> jstr "Error uploading photo"])).

(** [path.extname(name)] *)
Fixpoint basename (p : jsstring) : jsstring :=
  match p with
  | [] => []
  | c :: p' =>
      match last_index 47 p with
      | Some _ => basename p'
      | None => p
      end
  end.

Definition extname (p : jsstring) : jsstring :=
  let base := basename p in
  match last_index 46 base with
  | None | Some O => []
  | Some i => if Str.eqb base (js "..") then [] else skipn i base
  end.

(** [Array.isArray(x) ? x : d] *)
Definition array_or (x : option json) (d : json) : json :=
  match x with
  | Some (JArr l) => JArr l
  | _ => d
  end.

End Upload.
Export Upload.

(** ** Resume analysis *)

Module Resume.

Definition entry3 (k1 v1 k2 v2 k3 v3 : string) : json :=
  JObj [(js k1, jstr v1); (js k2, jstr v2); (js k3, jstr v3)].
Definition entry2 (k1 v1 k2 v2 : string) : json :=
  JObj [(js k1, jstr v1); (js k2, jstr v2)].

(** The structure kept when the structuring answer cannot be used. *)
Definition placeholder_structure : json :=
  obj [
    "skills" ~> JArr [jstr "Resume uploaded successfully"];
    "projects" ~> JArr [entry2 "title" "Resume Analysis"
                          "description" "Analysis completed - check detailed analysis"];
    "experience" ~> JArr [entry3 "company" "Analysis completed"
                            "position" "See detailed analysis" "duration" "N/A"];
    "education" ~> JArr [entry3 "degree" "Analysis completed"
                           "institution" "See detailed analysis" "year" "N/A"] ].

(** "Validate and sanitize the structure" *)
Definition sanitize (basicStructure : json) : M json :=
  let b := Some basicStructure in
  skills <- member b "skills" ;;
  projects <- member b "projects" ;;
  experience <- member b "experience" ;;
  education <- member b "education" ;;
  ret (obj [ "skills" ~> array_or skills (JArr []);
             "projects" ~> array_or projects (JArr []);
             "experience" ~> array_or experience (JArr []);
             "education" ~> array_or education (JArr []) ]).

(** The inner [try] of the first path: [content -> basicStructure]. *)
Definition structure_of (completion : option jsstring) : M json :=
  try_catch
    (let content := content_or completion (js "{}") in
     let jsonContent := extract_json_content content in
     basicStructure <- parse jsonContent ;;
     sanitize basicStructure)
    (fun err => ret placeholder_structure).

(** The first path: the analysis service, then the structuring
    completion. *)
Definition via_app_py (f : file) (appPy : reply json)
    (structuring : reply (option jsstring)) : M json :=
  fileBuffer <- readFileSync (f_path f) ;;
  data <- request AppPy appPy ;;
  success <- member (Some data) "success" ;;
  if truthy_opt success then
    analysis <- member (Some data) "analysis" ;;
    detailedAnalysis <- match analysis with
                        | Some (JStr s) => ret s   (* .substring(0, 2000) *)
                        | _ => throw TypeError
                        end ;;
    completion <- request Groq structuring ;;
    basicStructure <- structure_of completion ;;
    filename <- member (Some data) "filename" ;;
    extracted_text_length <- member (Some data) "extracted_text_length" ;;
    ret (set_field "source" (Some (jstr "app.py"))
        (set_field "extractedTextLength" (Some (or_default extracted_text_length (jnum 0)))
        (set_field "filename" (Some (or_default filename (JStr (f_originalname f))))
        (set_field "detailedAnalysis" (Some (JStr detailedAnalysis))
           basicStructure))))
  else
    error <- member (Some data) "error" ;;
    throw (Error (ToString (or_default error (jstr "App.py analysis failed")))).

Definition groq_fallback (groqResult : json) (f : file) (fileContent : jsstring) : M json :=
  let g := Some groqResult in
  skills <- member g "skills" ;;
  projects <- member g "projects" ;;
  experience <- member g "experience" ;;
  education <- member g "education" ;;
  detailedAnalysis <- member g "detailedAnalysis" ;;
  ret (obj [
    "skills" ~> array_or skills (JArr [jstr "Resume analysis completed"]);
    "projects" ~> array_or projects
       (JArr [entry2 "title" "Resume Uploaded"
                "description" "Resume has been uploaded and is ready for review"]);
    "experience" ~> array_or experience
       (JArr [entry3 "company" "Resume Uploaded"
                "position" "Please review manually" "duration" "N/A"]);
    "education" ~> array_or education
       (JArr [entry3 "degree" "Resume Uploaded"
                "institution" "Please review manually" "year" "N/A"]);
    "detailedAnalysis" ~> or_default detailedAnalysis
       (jstr "Resume uploaded successfully. Manual review recommended for detailed analysis.");
    "filename" ~> JStr (f_originalname f);
    "extractedTextLength" ~> jnum (len fileContent);
    "source" ~> jstr "groq-fallback" ]).

(** "Ultimate fallback" *)
Definition basic_fallback (f : file) : json :=
  obj [
    "skills" ~> JArr [jstr "Resume uploaded successfully"];
    "projects" ~> JArr [entry2 "title" "Resume Analysis"
       "description" "Resume has been uploaded. Please review the file manually for detailed information."];
    "experience" ~> JArr [entry3 "company" "Analysis pending"
       "position" "Manual review required" "duration" "N/A"];
    "education" ~> JArr [entry3 "degree" "Analysis pending"
       "institution" "Manual review required" "year" "N/A"];
    "detailedAnalysis" ~> jstr "Resume uploaded successfully. The file is saved and can be reviewed manually. Automated analysis was not available.";
    "filename" ~> JStr (f_originalname f);
    "extractedTextLength" ~> jnum 0;
    "source" ~> jstr "basic-fallback" ].

(** "Final fallback - just confirm upload" *)
Definition upload_only (f : file) : json :=
  obj [
    "skills" ~> JArr [jstr "Resume uploaded"];
    "projects" ~> JArr [entry2 "title" "Resume Upload"
       "description" "Your resume has been uploaded successfully"];
    "experience" ~> JArr [entry3 "company" "Upload completed"
       "position" "Ready for manual review" "duration" "N/A"];
    "education" ~> JArr [entry3 "degree" "Upload completed"
       "institution" "Ready for manual review" "year" "N/A"];
    "detailedAnalysis" ~> jstr "Resume uploaded successfully. File is available for manual review.";
    "filename" ~> JStr (f_originalname f);
    "extractedTextLength" ~> jnum 0;
    "source" ~> jstr "upload-only" ].

(** The second path: the completion service alone. *)
Definition groq_only (f : file) (groq : reply (option jsstring)) : M json :=
  try_catch
    (let fileExtension := toLowerCase (extname (f_originalname f)) in
     fileContent <-
       (if Str.eqb fileExtension (js ".txt") then readFileSync (f_path f)
        else ret (js "Resume file: " ++ f_originalname f ++ js " ("
                  ++ Number_toString (num_of_Z (f_size f)) ++ js " bytes)")) ;;
     completion <- request Groq groq ;;
     let content := content_or completion (js "{}") in
     let jsonContent := extract_json_content content in
     try_catch
       (groqResult <- parse jsonContent ;;
        groq_fallback groqResult f fileContent)
       (fun parseError => ret (basic_fallback f)))
    (fun groqError => ret (upload_only f)).

Definition error_reply (req_file : option file) : json :=
  obj [
    "error" ~> jstr "Resume analysis temporarily unavailable";
    "details" ~> jstr "The system is having trouble analyzing your resume. Your file upload was successful, but automated analysis is not available right now.";
    "fallback" ~> obj [
      "skills" ~> JArr [jstr "Resume uploaded successfully"];
      "projects" ~> JArr [entry2 "title" "Manual Review Required"
         "description" "Your resume has been uploaded and is available for manual review"];
      "experience" ~> JArr [entry3 "company" "Upload successful"
         "position" "Manual review needed" "duration" "N/A"];
      "education" ~> JArr [entry3 "degree" "Upload successful"
         "institution" "Manual review needed" "year" "N/A"];
      "detailedAnalysis" ~> jstr "Resume uploaded successfully. Automated analysis is temporarily unavailable, but your file is saved for manual review.";
      "filename" ~> JStr (match req_file with
                          | Some f => f_originalname f
                          | None => js "Unknown"
                          end);
      "source" ~> jstr "error-fallback" ] ].

(** [app.post('/api/analyze-resume')].  [health], [appPy]: the answers
    of the analysis service to the health probe (its HTTP status) and to
    the upload; [structuring], [groq]: the answers of the completion
    service in the first and in the second path. *)
Definition analyze (req_file : option file) (health : reply Z) (appPy : reply json)
    (structuring groq : reply (option jsstring)) : M response :=
  try_catch
    (match req_file with
     | None =>
         res_status 400 (obj [ "error" ~> jstr "No resume file uploaded";
                               "success" ~> JBool false ])
     | Some f =>
         appPyAvailable <-
           try_catch (healthCheck <- request AppPy health ;; ret (healthCheck =? 200))
                     (fun healthError => ret false) ;;
         first <-
           (if appPyAvailable : bool then
              try_catch
                (analysisResult <- via_app_py f appPy structuring ;;
                 ret (appPyAvailable, Some analysisResult))
                (fun appPyError => ret (false, None))
            else ret (appPyAvailable, None)) ;;
         let '(appPyAvailable, analysisResult) := first in
         analysisResult <-
           (if negb appPyAvailable || negb (truthy_opt analysisResult)
            then r <- groq_only f groq ;; ret (Some r)
            else ret analysisResult) ;;
         try_catch (unlinkSync (f_path f)) (fun cleanupError => ret tt) ;;;
         match analysisResult with
         | Some r => res_json r
         | None => throw TypeError       (* analysisResult.source *)
         end
     end)
    (fun error =>
       cleanup req_file ;;;
       res_status 500 (error_reply req_file)).

End Resume.

(** ** Marks analysis *)

Module Marks.

(** [typeof x === 'number' ? x : parse(x) || null] *)
Definition number_or_null (x : option json) (parsed : number) : json :=
  match x with
  | Some (JNum n) => JNum n
  | _ => num_or_null parsed
  end.

(** The callback of [subjects.map]. *)
Definition normalize_subject (subject : json) : M json :=
  name <- member (Some subject) "name" ;;
  score <- member (Some subject) "score" ;;
  ret (obj [ "name" ~> or_default name (jstr "Unknown Subject");
             "score" ~> match score with
                        | Some (JNum n) => JNum n
                        | _ => or_default (Some (JNum (parseFloat score))) (jnum 0)
                        end ]).

(** The object built after a successful [JSON.parse]. *)
Definition normalize (basicMarksData : json) : M json :=
  let b := Some basicMarksData in
  subjects <- member b "subjects" ;;
  subjects' <-
    (if isArray subjects
     then l <- mapM normalize_subject (elements_of subjects) ;; ret (JArr l)
     else ret (JArr [])) ;;
  totalPercentage <- member b "totalPercentage" ;;
  cgpa <- member b "cgpa" ;;
  semester <- member b "semester" ;;
  ret (obj [ "subjects" ~> subjects';
             "totalPercentage" ~> number_or_null totalPercentage (parseFloat totalPercentage);
             "cgpa" ~> number_or_null cgpa (parseFloat cgpa);
             "semester" ~> number_or_null semester (parseInt semester) ]).

(** The [catch (err)] branch: a GPA searched in the analysis text. *)
Definition gpa_fallback (detailedAnalysis : option json) : M json :=
  gpaMatch <- match detailedAnalysis with
              | Some (JStr s) => ret (str_match gpa_re s)
              | _ => throw TypeError
              end ;;
  let extractedGPA :=
    match gpaMatch with
    | Some group1 => JNum (parseFloat (option_map JStr group1))
    | None => JNull
    end in
  ret (obj [ "subjects" ~> JArr [obj [ "name" ~> jstr "Analysis completed";
                                       "score" ~> jnum 0 ]];
             "totalPercentage" ~> (if truthy extractedGPA
                                   then match extractedGPA with
                                        | JNum n => JNum (times10 n)
                                        | v => v
                                        end
                                   else JNull);
             "cgpa" ~> extractedGPA;
             "semester" ~> JNull ]).

Definition marks_of (completion : option jsstring) (detailedAnalysis : option json)
  : M json :=
  try_catch
    (let content := content_or completion [] in
     let jsonContent := extract_json_content content in
     basicMarksData <- parse jsonContent ;;
     normalize basicMarksData)
    (fun err => gpa_fallback detailedAnalysis).

Definition error_reply : json :=
  obj [ "success" ~> JBool false;
        "error" ~> jstr "Error analyzing marks";
        "nextEnabled" ~> JBool true;
        "data" ~> obj [ "subjects" ~> JArr []; "totalPercentage" ~> JNull;
                        "cgpa" ~> JNull; "semester" ~> JNull;
                        "detailedAnalysis" ~> JNull ];
        "message" ~> jstr "There was an error analyzing your marks, but you can continue to the next step." ].

(** [app.post('/api/analyze-marks')] *)
Definition analyze (req_file : option file) (appPy : reply json)
    (groq : reply (option jsstring)) : M response :=
  try_catch
    (match req_file with
     | None =>
         res_status 400 (obj [ "error" ~> jstr "No marksheet file uploaded";
                               "success" ~> JBool false ])
     | Some f =>
         fileBuffer <- readFileSync (f_path f) ;;
         data <- request AppPy appPy ;;
         unlinkSync (f_path f) ;;;
         success <- member (Some data) "success" ;;
         if truthy_opt success then
           detailedAnalysis <- member (Some data) "analysis" ;;
           completion <- request Groq groq ;;
           basicMarksData <- marks_of completion detailedAnalysis ;;
           filename <- member (Some data) "filename" ;;
           extracted_text_length <- member (Some data) "extracted_text_length" ;;
           res_status 200
             (obj [ "success" ~> JBool true;
                    "data" ~> set_field "extractedTextLength" extracted_text_length
                                (set_field "filename" filename
                                (set_field "detailedAnalysis" detailedAnalysis
                                   basicMarksData));
                    "nextEnabled" ~> JBool true;
                    "message" ~> jstr "Marks sheet analyzed successfully" ])
         else
           error <- member (Some data) "error" ;;
           throw (Error (ToString (or_default error (jstr "Analysis failed"))))
     end)
    (fun error =>
       cleanup req_file ;;;
       res_status 200 error_reply).

End Marks.

(** ** More of the built-ins: substrings, arithmetic, 32-bit integers *)

Module Text.

(** The text before and the text after the first occurrence of [sep]
    in [s]. *)
Fixpoint cut_at (sep s : jsstring) {struct s} : option (jsstring * jsstring) :=
  match starts_with sep s with
  | Some rest => Some ([], rest)
  | None =>
      match s with
      | [] => None
      | c :: s' =>
          match cut_at sep s' with
          | Some (a, b) => Some (c :: a, b)
          | None => None
          end
      end
  end.

(** [s.includes(x)] *)
Definition includes (s x : jsstring) : bool :=
  match cut_at x s with
  | Some _ => true
  | None => false
  end.

Fixpoint split_fuel (fuel : nat) (s sep : jsstring) : list jsstring :=
  match fuel with
  | O => [s]
  | S f =>
      match cut_at sep s with
      | Some (a, b) => a :: split_fuel f b sep
      | None => [s]
      end
  end.

(** [s.split(sep)]: the pieces between the occurrences of [sep], found
    from left to right; the code units of [s] when [sep] is empty. *)
Definition split (s sep : jsstring) : list jsstring :=
  match sep with
  | [] => List.map (fun c => [c]) s
  | _ :: _ => split_fuel (List.length s) s sep
  end.

(** [/a1|a2|.../.test(s)] for literal alternatives. *)
Definition regex_test (alternatives : list jsstring) (s : jsstring) : bool :=
  existsb
    (fun a => match str_match (lit a) s with Some _ => true | None => false end)
    alternatives.

End Text.
Export Text.

Module Arith.

#[export] Instance number_eq_dec : EqDecision number.
Proof. solve_decision. Defined.

(** [x * y] and [x + y] *)
Definition num_mul (x y : number) : number :=
  match x, y with
  | NaN, _ | _, NaN => NaN
  | Dec m e, Dec m' e' => dec (m * m') (e + e')
  | Inf a, Inf b => Inf (xorb a b)
  | Inf a, Dec m _ | Dec m _, Inf a =>
      if m =? 0 then NaN else Inf (xorb a (m <? 0))
  end.

Definition num_add (x y : number) : number :=
  match x, y with
  | NaN, _ | _, NaN => NaN
  | Dec m e, Dec m' e' =>
      let k := Z.min e e' in dec (m * 10 ^ (e - k) + m' * 10 ^ (e' - k)) k
  | Inf a, Inf b => if Bool.eqb a b then Inf a else NaN
  | Inf a, Dec _ _ | Dec _ _, Inf a => Inf a
  end.

(** [Math.floor(x)] *)
Definition Math_floor (x : number) : number :=
  match x with
  | Dec m e => if 0 <=? e then x else dec (m / 10 ^ (- e)) 0
  | _ => x
  end.

(** [x.toFixed(1)]: the integer [n] nearest to [10 * |x|], the larger
    one of two, printed with one digit after the point. *)
Definition toFixed1 (x : number) : jsstring :=
  match x with
  | Dec m e =>
      let a := Z.abs m in
      if 10 ^ 21 <=? (if 0 <=? e then a * 10 ^ e else a / 10 ^ (- e))
      then Number_toString x
      else
        let n := if 0 <=? e + 1 then a * 10 ^ (e + 1)
                 else (2 * a + 10 ^ (- (e + 1))) / (2 * 10 ^ (- (e + 1))) in
        (if m <? 0 then [45%N] else []) ++ digits (n / 10) ++ [46%N] ++ digits (n mod 10)
  | _ => Number_toString x
  end.

(** [ToInt32]: a number as a signed 32-bit integer. *)
Definition ToInt32 (z : Z) : Z := (z + 2 ^ 31) mod 2 ^ 32 - 2 ^ 31.

(** [a << k] and [a & b] *)
Definition shl (a k : Z) : Z := ToInt32 (Z.shiftl (ToInt32 a) k).
Definition band (a b : Z) : Z := Z.land (ToInt32 a) (ToInt32 b).

End Arith.
Export Arith.

(** ** Uploads: the filter and the error handler *)

Module Filter.

(** [/jpeg|jpg|png|gif|pdf|doc|docx/] *)
Definition allowedTypes : list jsstring :=
  [ js "jpeg"; js "jpg"; js "png"; js "gif"; js "pdf"; js "doc"; js "docx" ].

(** The [fileFilter] of the upload middleware: [Ret true] is
    [cb(null, true)], [Throw] the error handed to [cb]. *)
Definition fileFilter (f : file) : outcome bool :=
  let extname := regex_test allowedTypes (toLowerCase (extname (f_originalname f))) in
  let mimetype := regex_test allowedTypes (f_mimetype f) in
  if mimetype && extname then Ret true
  else Throw (Error (js "Invalid file type. Only images, PDF, DOC, and DOCX files are allowed.")).

(** What reaches the error-handling middleware: an error of the upload
    middleware itself (an instance of [multer.MulterError], with its
    [code] and [message]), or any other error. *)
Inductive raised : Type :=
| MulterError (code message : jsstring)
| Other (e : exn).

(** [app.use((err, req, res, next) => ...)] *)
Definition error_handler (err : raised) (req_path : jsstring) : response :=
  match err with
  | MulterError code message =>
      if Str.eqb code (js "LIMIT_FILE_SIZE")
      then Response 400 (obj ["error" ~> jstr "File too large. Maximum size is 16MB."])
      else Response 400 (obj ["error" ~> JStr message])
  | Other e =>
      Response 500
        (obj [ "error" ~> or_default (Some (JStr (emessage e))) (jstr "Internal server error");
               "path" ~> JStr req_path ])
  end.

End Filter.
Export Filter.

(** ** Service status *)

Module Health.

(** [app.get('/api/health')].  [readyState] is that of the database
    connection, [appPy] the answer of the analysis service ([data] of
    its response), [NODE_ENV] the environment variable. *)
Definition health (readyState : Z) (appPy : reply json) (now : jsstring)
    (NODE_ENV : option jsstring) : M response :=
  try_catch
    (let mongoStatus := if readyState =? 1 then jstr "connected" else jstr "disconnected" in
     appPyStatus <-
       try_catch
         (data <- request AppPy appPy ;;
          status <- member (Some data) "status" ;;
          ret (match status with
               | Some (JStr s) =>
                   if Str.eqb s (js "healthy") then jstr "connected" else jstr "partial"
               | _ => jstr "partial"
               end))
         (fun error => ret (jstr "disconnected")) ;;
     res_json (obj [ "status" ~> jstr "online";
                     "timestamp" ~> JStr now;
                     "environment" ~> JStr (content_or NODE_ENV (js "development"));
                     "apiVersion" ~> jstr "2.0.0";
                     "services" ~> obj [ "mongodb" ~> mongoStatus;
                                         "appPy" ~> appPyStatus ] ]))
    (fun error =>
       res_status 500 (obj [ "status" ~> jstr "error";
                             "error" ~> JStr (emessage error) ])).

End Health.

(** ** GitHub data *)

Module GitHub.

(** The answer of the GitHub API to one [axios.get]: a response
    outside 2xx (the thrown error carries [response.status]), no
    response at all, or the [data] of the response. *)
Inductive http_reply (A : Type) : Type :=
| Status (code : Z)
| Unreachable (e : exn)
| Data (a : A).
Arguments Status {A} code.
Arguments Unreachable {A} e.
Arguments Data {A} a.

(** [x.split(sep)] on a value: only a string has the method. *)
Definition split_of (x : json) (sep : jsstring) : M (list jsstring) :=
  match x with
  | JStr s => ret (split s sep)
  | _ => throw TypeError
  end.

(** [githubUrl.split('github.com/')[1]?.split('/')[0]] *)
Definition username_of (githubUrl : json) : M (option jsstring) :=
  pieces <- split_of githubUrl (js "github.com/") ;;
  ret (match nth_error pieces 1 with
       | Some piece => nth_error (split piece (js "/")) 0
       | None => None
       end).

(** [SameValueZero], the equality of a [Set]: two objects or two
    arrays of a parsed response are never the same one. *)
Definition same_value_zero (a b : json) : bool :=
  match a, b with
  | JNull, JNull => true
  | JBool x, JBool y => Bool.eqb x y
  | JNum x, JNum y => bool_decide (x = y)
  | JStr x, JStr y => Str.eqb x y
  | _, _ => false
  end.

(** [languages.add(x)], the set kept in insertion order *)
Definition set_add (x : json) (languages : list json) : list json :=
  if existsb (same_value_zero x) languages then languages else languages ++ [x].

(** The callback of [forEach], on the set built so far. *)
Definition add_language (languages : list json) (repo : json) : M (list json) :=
  language <- member (Some repo) "language" ;;
  if truthy_opt language
  then ret (match language with
            | Some x => set_add x languages
            | None => languages
            end)
  else ret languages.

Fixpoint forEach (f : list json -> json -> M (list json)) (l : list json)
    (acc : list json) : M (list json) :=
  match l with
  | [] => ret acc
  | x :: l' => bind (f acc x) (fun acc' => forEach f l' acc')
  end.

(** The callback of [map]: one entry of [topRepos]. *)
Definition top_repo (repo : json) : M json :=
  let r := Some repo in
  name <- member r "name" ;;
  description <- member r "description" ;;
  stargazers_count <- member r "stargazers_count" ;;
  language <- member r "language" ;;
  updated_at <- member r "updated_at" ;;
  ret (set_field "updatedAt" updated_at
      (set_field "language" (Some (or_default language (jstr "None")))
      (set_field "stars" stargazers_count
      (set_field "description" (Some (or_default description (JStr [])))
      (set_field "name" name (obj [])))))).

(** [reposResponse.data] as an array: [forEach] and [map] exist on
    arrays only. *)
Definition array_of (data : json) : M (list json) :=
  match data with
  | JArr l => ret l
  | _ => throw TypeError
  end.

(** [Math.floor(random * 500) + 100] *)
Definition contributions (random : number) : json :=
  JNum (num_add (Math_floor (num_mul random (num_of_Z 500))) (num_of_Z 100)).

Definition githubData (userData : json) (languages topRepos : list json)
    (random : number) : M json :=
  let u := Some userData in
  login <- member u "login" ;;
  public_repos <- member u "public_repos" ;;
  followers <- member u "followers" ;;
  following <- member u "following" ;;
  html_url <- member u "html_url" ;;
  avatar_url <- member u "avatar_url" ;;
  bio <- member u "bio" ;;
  ret (set_field "topRepos" (Some (JArr topRepos))
      (set_field "contributionsLastYear" (Some (contributions random))
      (set_field "bio" bio
      (set_field "avatar" avatar_url
      (set_field "profileUrl" html_url
      (set_field "languages" (Some (JArr languages))
      (set_field "following" following
      (set_field "followers" followers
      (set_field "publicRepos" public_repos
      (set_field "repositories" public_repos
      (set_field "username" login (obj [])))))))))))).

(** The [catch] block: [status] is [error.response?.status]. *)
Definition failed (status : option Z) : M response :=
  match status with
  | Some 404 => res_status 404 (obj ["error" ~> jstr "GitHub user not found"])
  | Some 403 => res_status 403 (obj ["error" ~> jstr "GitHub API rate limit exceeded"])
  | _ => res_status 500 (obj ["error" ~> jstr "Failed to fetch GitHub data"])
  end.

(** [await axios.get(...)] inside the [try]: a refusal of the API goes
    to the [catch] block with its status. *)
Definition get_or_fail {A} (r : http_reply A) (k : A -> M response) : M response :=
  match r with
  | Status code => failed (Some code)
  | Unreachable e => failed None
  | Data a => k a
  end.

(** [app.post('/api/fetch-github-data')].  [users name] and
    [repos name] are the answers of the API about the user [name];
    [random] is the value of [Math.random()].  An error thrown by the
    handler's own code has no [response]. *)
Definition fetch_github_data (req_body : json)
    (users repos : jsstring -> http_reply json) (random : number) : M response :=
  try_catch
    (githubUrl <- member (Some req_body) "githubUrl" ;;
     match githubUrl with
     | Some url =>
         if negb (truthy url)
         then res_status 400 (obj ["error" ~> jstr "GitHub URL is required"])
         else
           username <- username_of url ;;
           match username with
           | Some (c :: name) =>
               get_or_fail (users (c :: name)) (fun userData =>
               get_or_fail (repos (c :: name)) (fun reposData =>
                 l <- array_of reposData ;;
                 languages <- forEach add_language l [] ;;
                 topRepos <- mapM top_repo l ;;
                 data <- githubData userData languages topRepos random ;;
                 res_json data))
           | _ => res_status 400 (obj ["error" ~> jstr "Invalid GitHub URL"])
           end
     | None => res_status 400 (obj ["error" ~> jstr "GitHub URL is required"])
     end)
    (fun error => failed None).

End GitHub.

(** ** LeetCode data *)

Module LeetCode.

(** [x.includes(s)]: a substring of a string, an element of an array. *)
Definition includes_of (x : json) (s : string) : M bool :=
  match x with
  | JStr t => ret (includes t (js s))
  | JArr l => ret (existsb (GitHub.same_value_zero (JStr (js s))) l)
  | _ => throw TypeError
  end.
Arguments includes_of x s%_string.

(** The block that reads the user name off the URL; [username] is the
    value that [extractedUsername] holds before it. *)
Definition extract (leetcodeUrl : json) (username : option json) : M (option json) :=
  in_u <- includes_of leetcodeUrl "leetcode.com/u/" ;;
  if in_u : bool then
    pieces <- GitHub.split_of leetcodeUrl (js "leetcode.com/u/") ;;
    ret (match nth_error pieces 1 with
         | Some piece => option_map JStr (nth_error (split piece (js "/")) 0)
         | None => None
         end)
  else
    in_site <- includes_of leetcodeUrl "leetcode.com/" ;;
    if in_site : bool then
      pieces <- GitHub.split_of leetcodeUrl (js "leetcode.com/") ;;
      match nth_error pieces 1 with
      | Some piece =>
          let parts := split piece (js "/") in
          match nth_error parts 0 with
          | Some p0 =>
              if negb (Str.eqb p0 (js "u")) then ret (Some (JStr p0))
              else ret (option_map JStr (nth_error parts 1))
          | None => ret None
          end
      | None => throw TypeError
      end
    else ret username.

(** The callback of [reduce]:
<<
    a = ((a << 5) - a) + b.charCodeAt(0);
    return a & a;
>> *)
Definition hash_step (a : Z) (b : jsstring) : Z :=
  match b with
  | c :: _ => let a := (shl a 5 - a) + Z.of_N c in band a a
  | [] => 0                     (* charCodeAt(0) is NaN, and NaN & NaN is 0 *)
  end.

(** [units.reduce(hash_step, 0)] *)
Definition userHash (units : list jsstring) : Z := fold_left hash_step units 0.

(** [Math.abs(userHash % k) + c] *)
Definition scaled (userHash k c : Z) : Z := Z.abs (Z.rem userHash k) + c.

Definition profileUrl (leetcodeUrl : option json) (extractedUsername : json) : json :=
  or_default leetcodeUrl
    (JStr (js "https://leetcode.com/u/" ++ ToString extractedUsername ++ js "/")).

Definition mockLeetCodeData (leetcodeUrl : option json) (extractedUsername : json)
    (userHash : Z) (now : jsstring) : json :=
  obj [ "username" ~> extractedUsername;
        "totalSolved" ~> jnum (scaled userHash 800 200);
        "easySolved" ~> jnum (scaled userHash 300 100);
        "mediumSolved" ~> jnum (scaled userHash 350 80);
        "hardSolved" ~> jnum (scaled userHash 150 20);
        "contestRating" ~> jnum (scaled userHash 1000 1200);
        "ranking" ~> jnum (scaled userHash 80000 5000);
        "badges" ~> JArr [jstr "50 Days Badge"; jstr "Annual Badge"; jstr "Contest Badge"];
        "profileUrl" ~> profileUrl leetcodeUrl extractedUsername;
        "acceptanceRate" ~> JStr (toFixed1 (num_of_Z (scaled userHash 30 60)));
        "submissions" ~> jnum (scaled userHash 3000 1000);
        "lastActive" ~> JStr now;
        "note" ~> jstr "Mock data - replace with actual LeetCode API integration" ].

(** [Math.floor(Math.random() * k) + c] *)
Definition drawn (random : number) (k c : Z) : json :=
  JNum (num_add (Math_floor (num_mul random (num_of_Z k))) (num_of_Z c)).

(** The object of the [catch (apiError)] branch; [random i] is the
    value of the [i]-th call of [Math.random()]. *)
Definition fallbackData (leetcodeUrl : option json) (extractedUsername : json)
    (random : nat -> number) : json :=
  obj [ "username" ~> extractedUsername;
        "totalSolved" ~> drawn (random 0%nat) 800 200;
        "easySolved" ~> drawn (random 1%nat) 300 100;
        "mediumSolved" ~> drawn (random 2%nat) 350 80;
        "hardSolved" ~> drawn (random 3%nat) 150 20;
        "contestRating" ~> drawn (random 4%nat) 1000 1200;
        "ranking" ~> drawn (random 5%nat) 80000 5000;
        "badges" ~> JArr [jstr "Mock Badge"];
        "profileUrl" ~> profileUrl leetcodeUrl extractedUsername;
        "acceptanceRate" ~>
          JStr (toFixed1 (num_add (num_mul (random 6%nat) (num_of_Z 30)) (num_of_Z 60)));
        "submissions" ~> drawn (random 7%nat) 3000 1000;
        "warning" ~> jstr "Using fallback data - LeetCode API integration needed" ].

(** [app.post('/api/fetch-leetcode-data')] *)
Definition fetch_leetcode_data (req_body : json) (now : jsstring)
    (random : nat -> number) : M response :=
  try_catch
    (leetcodeUrl <- member (Some req_body) "leetcodeUrl" ;;
     username <- member (Some req_body) "username" ;;
     if negb (truthy_opt leetcodeUrl) && negb (truthy_opt username)
     then res_status 400 (obj ["error" ~> jstr "LeetCode URL or username is required"])
     else
       extracted <-
         match leetcodeUrl with
         | Some url =>
             if negb (truthy_opt username) && truthy url
             then try_catch
                    (extractedUsername <- extract url username ;;
                     ret (inl extractedUsername))
                    (fun error =>
                       ret (inr (Response 400
                                   (obj ["error" ~> jstr "Invalid LeetCode URL format"]))))
             else ret (inl username)
         | None => ret (inl username)
         end ;;
       match extracted with
       | inr early => ret early
       | inl None => res_status 400
                       (obj ["error" ~> jstr "Could not extract username from LeetCode URL"])
       | inl (Some extractedUsername) =>
           if negb (truthy extractedUsername)
           then res_status 400
                  (obj ["error" ~> jstr "Could not extract username from LeetCode URL"])
           else
             try_catch
               (units <- GitHub.split_of extractedUsername [] ;;
                res_json (mockLeetCodeData leetcodeUrl extractedUsername
                            (userHash units) now))
               (fun apiError =>
                  res_json (fallbackData leetcodeUrl extractedUsername random))
       end)
    (fun error =>
       res_status 500 (obj [ "error" ~> jstr "Failed to fetch LeetCode data";
                             "details" ~> JStr (emessage error) ])).

End LeetCode.

(** ** Auxiliary notions for the statements *)

(** *** Texts *)

(** Whether a pattern binds its capture group on every match. *)
Fixpoint has_group (r : re) : bool :=
  match r with
  | Group _ => true
  | Seq r1 r2 => has_group r1 || has_group r2
  | _ => false
  end.

(** Whether a text starts with three backquotes, and whether three
    backquotes occur somewhere in it. *)
Definition starts_fence (s : jsstring) : bool :=
  match s with
  | a :: b :: c :: _ => N.eqb 96 a && N.eqb 96 b && N.eqb 96 c
  | _ => false
  end.

Fixpoint has_fence (s : jsstring) : bool :=
  match s with
  | [] => false
  | _ :: s' => starts_fence s || has_fence s'
  end.

(** The closing line of a fence. *)
Definition closing : jsstring := [10; 96; 96; 96]%N.

(** The test of the second strategy, as the handlers write it. *)
Definition braces_in_order (content : jsstring) : bool :=
  let jsonStart := indexOf content 123 in
  let jsonEnd := lastIndexOf content 125 + 1 in
  negb (jsonStart =? -1) && (jsonEnd >? jsonStart).

(** *** Values and replies *)

Definition is_object (v : json) : bool :=
  match v with
  | JObj _ => true
  | _ => false
  end.

(** The keys of an object, in order. *)
Definition keys (v : json) : list jsstring :=
  match v with
  | JObj l => List.map fst l
  | _ => []
  end.

(** The status, the [data] field and the [source] field of the reply,
    when the handler returns. *)
Definition reply_status (res : outcome response * world) : option Z :=
  match fst res with
  | Ret r => Some (status r)
  | Throw _ => None
  end.

Definition reply_data (res : outcome response * world) : option json :=
  match fst res with
  | Ret r => get (body r) (js "data")
  | Throw _ => None
  end.

Definition source_of (r : json) : option json := get r (js "source").

Definition reply_source (res : outcome response * world) : option json :=
  match fst res with
  | Ret r => source_of (body r)
  | Throw _ => None
  end.

(** *** Computations *)

(** A computation that leaves the upload directory as it found it. *)
Definition preserves_uploads {A} (m : M A) : Prop :=
  forall w, uploads (snd (m w)) = uploads w.

(** *** Soft-skills and profile objects *)

(** A request that passes validation: five responses, none [null]. *)
Definition well_formed (fields : list (jsstring * json)) (items : list json) : Prop :=
  assoc (js "responses") fields = Some (JArr items)
  /\ List.length items = 5%nat
  /\ Forall (fun r => r <> JNull) items.

(** The fields of the soft-skills object, in order. *)
Definition soft_skills_fields : list jsstring :=
  [ js "overallSoftSkillsScore"; js "skillBreakdown"; js "strengths";
    js "areasForImprovement"; js "developmentRecommendations";
    js "personalityTraits"; js "careerFitness"; js "detailedAnalysis";
    js "assessmentDate"; js "responses" ].

(** The fields of the soft-skills object that come from the model, each
    with the literal that the handler writes after [||]. *)
Definition soft_skills_defaults : list (jsstring * json) :=
  [ "overallSoftSkillsScore" ~> jnum 50;
    "skillBreakdown" ~> obj [];
    "strengths" ~> JArr [];
    "areasForImprovement" ~> JArr [];
    "developmentRecommendations" ~> JArr [];
    "personalityTraits" ~> JArr [];
    "careerFitness" ~>
       obj [ "technicalRoles" ~> jnum 5; "managementRoles" ~> jnum 5;
             "consultingRoles" ~> jnum 5; "entrepreneurialRoles" ~> jnum 5 ];
    "detailedAnalysis" ~> jstr "Analysis completed successfully." ].

Definition skill_names : list jsstring :=
  [ js "communication"; js "teamwork"; js "problem_solving"; js "leadership";
    js "adaptability"; js "learning_agility"; js "initiative"; js "professionalism" ].

(** The object that the soft-skills handler builds from a parsed value
    other than [null]: each field is the parsed one when that is
    truthy, the literal of the source otherwise. *)
Definition normalized (a : json) (now : jsstring) (formattedResponses : json) : json :=
  obj [
    "overallSoftSkillsScore" ~> or_default (get a (js "overallSoftSkillsScore")) (jnum 50);
    "skillBreakdown" ~> or_default (get a (js "skillBreakdown")) (obj []);
    "strengths" ~> or_default (get a (js "strengths")) (JArr []);
    "areasForImprovement" ~> or_default (get a (js "areasForImprovement")) (JArr []);
    "developmentRecommendations" ~>
      or_default (get a (js "developmentRecommendations")) (JArr []);
    "personalityTraits" ~> or_default (get a (js "personalityTraits")) (JArr []);
    "careerFitness" ~> or_default (get a (js "careerFitness"))
       (obj [ "technicalRoles" ~> jnum 5; "managementRoles" ~> jnum 5;
              "consultingRoles" ~> jnum 5; "entrepreneurialRoles" ~> jnum 5 ]);
    "detailedAnalysis" ~> or_default (get a (js "detailedAnalysis"))
       (jstr "Analysis completed successfully.");
    "assessmentDate" ~> JStr now;
    "responses" ~> formattedResponses ].

(** What [analysis_of] returns, as a function of the completion. *)
Definition analysis_data (content now : jsstring) (formattedResponses : json) : json :=
  match JSON_parse (extract_json_content content) with
  | Some JNull | None => SoftSkills.parse_failure_payload now formattedResponses
  | Some a => normalized a now formattedResponses
  end.


(** *** Resume objects *)

Definition resume_fields : list jsstring :=
  [ js "skills"; js "projects"; js "experience"; js "education";
    js "detailedAnalysis"; js "filename"; js "extractedTextLength"; js "source" ].

Definition resume_sources : list jsstring :=
  [ js "app.py"; js "groq-fallback"; js "basic-fallback"; js "upload-only" ].


(** Every declared field is there, the four lists are arrays, and the
    [source] is one of the four tags of the handler. *)
Definition resume_shape (r : json) : bool :=
  bool_decide (keys r = resume_fields)
  && isArray (get r (js "skills")) && isArray (get r (js "projects"))
  && isArray (get r (js "experience")) && isArray (get r (js "education"))
  && match source_of r with
     | Some (JStr tag) => existsb (Str.eqb tag) resume_sources
     | _ => false
     end.

(** The shapes of the objects that the resume handler returns. *)
Definition four_arrays (skills projects experience education : list json) : json :=
  obj [ "skills" ~> JArr skills; "projects" ~> JArr projects;
        "experience" ~> JArr experience; "education" ~> JArr education ].

Definition app_py_result (skills projects experience education : list json)
    (detailedAnalysis : jsstring) (filename extractedTextLength : json) : json :=
  obj [ "skills" ~> JArr skills; "projects" ~> JArr projects;
        "experience" ~> JArr experience; "education" ~> JArr education;
        "detailedAnalysis" ~> JStr detailedAnalysis;
        "filename" ~> filename;
        "extractedTextLength" ~> extractedTextLength;
        "source" ~> jstr "app.py" ].

Definition groq_fallback_of (g : json) (f : file) (n : Z) : json :=
  obj [
    "skills" ~> array_or (get g (js "skills")) (JArr [jstr "Resume analysis completed"]);
    "projects" ~> array_or (get g (js "projects"))
       (JArr [Resume.entry2 "title" "Resume Uploaded"
                "description" "Resume has been uploaded and is ready for review"]);
    "experience" ~> array_or (get g (js "experience"))
       (JArr [Resume.entry3 "company" "Resume Uploaded"
                "position" "Please review manually" "duration" "N/A"]);
    "education" ~> array_or (get g (js "education"))
       (JArr [Resume.entry3 "degree" "Resume Uploaded"
                "institution" "Please review manually" "year" "N/A"]);
    "detailedAnalysis" ~> or_default (get g (js "detailedAnalysis"))
       (jstr "Resume uploaded successfully. Manual review recommended for detailed analysis.");
    "filename" ~> JStr (f_originalname f);
    "extractedTextLength" ~> jnum n;
    "source" ~> jstr "groq-fallback" ].

(** The object of the first resume path when the structuring answer is
    of no use: the place-holder lists, under the analysis text of the
    analysis service. *)
Definition unstructured_result (f : file) (fields : list (jsstring * json))
    (analysis : jsstring) : json :=
  set_field "source" (Some (jstr "app.py"))
    (set_field "extractedTextLength"
       (Some (or_default (assoc (js "extracted_text_length") fields) (jnum 0)))
    (set_field "filename"
       (Some (or_default (assoc (js "filename") fields) (JStr (f_originalname f))))
    (set_field "detailedAnalysis" (Some (JStr analysis))
       Resume.placeholder_structure))).

(** A completion from which no JSON can be read. *)
Definition unparsable (completion : option jsstring) : Prop :=
  JSON_parse (extract_json_content (content_or completion (js "{}"))) = None.

(** *** Marks objects *)




(** *** Stored students *)

(** Every USN on record is in upper case. *)
Definition upper_stored (w : world) : Prop :=
  Forall (fun d => forall s, get d (js "usn") = Some (JStr s) -> toUpperCase s = s)
         (students w).

(** *** Sample inputs *)

Definition a_date : jsstring := js "2024-05-01T10:00:00.000Z".

(** A world with nothing staged and nobody on record. *)
Definition idle_world : world := World ∅ [] true [].

Definition timeout_error : exn := Error (js "timeout of 60000ms exceeded").

Definition prose : jsstring :=
  js "The student communicates clearly and works well with others.".

(** A completion that wraps its object in a sentence. *)
Definition wrapped_answer : jsstring :=
  js "Here is the analysis: " ++ JSON_stringify (obj ["overallScore" ~> jnum 80]).

Definition sample_assessment : json :=
  obj [ "overallSoftSkillsScore" ~> jnum 85;
        "strengths" ~> JArr [jstr "Clear writing"; jstr "Curiosity"];
        "careerFitness" ~> obj ["technicalRoles" ~> jnum 8] ].

Definition four_answers : list (jsstring * json) :=
  [ "responses" ~> JArr [ obj ["answer" ~> jstr "I split the work."];
                          obj ["answer" ~> jstr "We talked it through."];
                          obj ["answer" ~> jstr "I read the manual."];
                          obj ["answer" ~> jstr "I volunteered."] ] ].

Definition five_answers : list (jsstring * json) :=
  [ "responses" ~> JArr [ obj ["answer" ~> jstr "I split the work."];
                          obj ["answer" ~> jstr "We talked it through."];
                          obj ["answer" ~> jstr "I read the manual."];
                          obj ["answer" ~> jstr "I volunteered."];
                          obj ["answer" ~> jstr "I asked for examples."] ] ].

Definition a_resume : file :=
  File 1714557600000 (js "resume.pdf") (js "application/pdf") 48213.

Definition staged_world : world :=
  World {[ f_path a_resume := js "resume text" ]} [] true [].

Definition analysis_reply : list (jsstring * json) :=
  [ "success" ~> JBool true;
    "analysis" ~> jstr "Experienced in Python and SQL.";
    "filename" ~> jstr "resume.pdf";
    "extracted_text_length" ~> jnum 1320 ].

Definition a_student : json :=
  obj [ "name" ~> jstr "Asha Rao"; "usn" ~> jstr "1ms21cs001";
        "email" ~> jstr "asha@example.edu"; "semester" ~> jnum 5 ].

Definition an_id : jsstring := js "665f1c2e9b1d8a0012345678".

(** The student above as [create] stores it. *)
Definition enrolled : json :=
  obj [ "name" ~> jstr "Asha Rao"; "usn" ~> jstr "1MS21CS001";
        "email" ~> jstr "asha@example.edu"; "semester" ~> jnum 5;
        "_id" ~> JStr an_id ].

Definition campus : world := World ∅ [enrolled] true [].

(** The record above under another USN. *)
Definition moved_to (usn : string) : json :=
  obj [ "name" ~> jstr "Asha Rao"; "usn" ~> jstr usn;
        "email" ~> jstr "asha@example.edu"; "semester" ~> jnum 5;
        "_id" ~> JStr an_id ].


(** *** Addresses, hashes and drawn numbers *)

(** [sep] does not start inside [a] when [r] follows [a]. *)
Fixpoint no_start (sep a r : jsstring) : Prop :=
  match a with
  | [] => True
  | c :: a' => starts_with sep (c :: a' ++ r) = None /\ no_start sep a' r
  end.

(** The polynomial of which [userHash] keeps the low 32 bits. *)
Definition poly31 (s : jsstring) : Z :=
  fold_left (fun a c => 31 * a + Z.of_N c) s 0.

(** A field that holds an integer between two bounds. *)
Definition in_range (data : json) (k : string) (lo hi : Z) : Prop :=
  exists n, get data (js k) = Some (jnum n) /\ lo <= n <= hi.
Arguments in_range data k%_string lo hi.

(** The body of the reply, when the handler returns. *)
Definition reply_body (res : outcome response * world) : option json :=
  match fst res with
  | Ret r => Some (body r)
  | Throw _ => None
  end.

(** The profile address that the handler writes for a user name. *)
Definition profile_of (name : jsstring) : jsstring :=
  js "https://leetcode.com/u/" ++ name ++ js "/".

(** The value of a number that is an integer. *)
Definition int_value (x : number) : option Z :=
  match x with
  | Dec m e => if 0 <=? e then Some (m * 10 ^ e) else None
  | _ => None
  end.

(** [denotes x s v]: [x] times [10 ^ s] is the integer [v]. *)
Definition denotes (x : number) (s v : Z) : Prop :=
  match x with
  | Dec m e => 0 <= e + s /\ m * 10 ^ (e + s) = v
  | _ => False
  end.


(** What may follow a name in an address: nothing, or a path. *)
Definition ends_name (rest : jsstring) : Prop :=
  rest = [] \/ exists t, rest = 47%N :: t.

(** An address that names [user]: the first [github.com/] in it is
    followed by [user], a name without slash or dot, and then by
    nothing or by a path. *)
Definition names_user (url user : jsstring) : Prop :=
  exists pre rest,
    cut_at (js "github.com/") url = Some (pre, user ++ rest)
    /\ user <> [] /\ (47%N ∉ user) /\ (46%N ∉ user) /\ ends_name rest.

(** The status that the handler gives to a refusal of the API. *)
Definition refusal_status (code : Z) : Z :=
  if code =? 404 then 404 else if code =? 403 then 403 else 500.





Definition octocat : json :=
  obj [ "login" ~> jstr "octocat"; "public_repos" ~> jnum 8;
        "followers" ~> jnum 120; "following" ~> jnum 9;
        "html_url" ~> jstr "https://github.com/octocat"; "bio" ~> JNull ].


(** The API as it answers about one known user. *)
Definition known (name : jsstring) (data : json) (asked : jsstring)
  : GitHub.http_reply json :=
  if Str.eqb asked name then GitHub.Data data else GitHub.Status 404.


Definition invalid_file_type : jsstring :=
  js "Invalid file type. Only images, PDF, DOC, and DOCX files are allowed.".

Definition notes_txt : file := File 1714557600000 (js "notes.txt") (js "text/plain") 120.

(** * Properties *)

(** ** The pattern matcher *)

Section MatcherFacts.
Context {A : Type}.
Implicit Types (p : N -> bool) (k : jsstring -> option A).

Lemma or_else_Some (x y : option A) a :
  or_else x y = Some a -> x = Some a \/ (x = None /\ y = Some a).
Proof. destruct x; simpl; intros H; [left | right]; auto. Qed.

Lemma star_greedy_inv p k s x :
  star_greedy p k s = Some x -> exists s', k s' = Some x.
Proof.
  induction s as [|c s IH]; simpl; intros H; [eauto|].
  destruct (p c); [|eauto].
  apply or_else_Some in H as [H | [_ H]]; eauto.
Qed.

Lemma star_lazy_inv p k s x :
  star_lazy p k s = Some x -> exists s', k s' = Some x.
Proof.
  induction s as [|c s IH]; simpl; intros H.
  - apply or_else_Some in H as [H | [_ H]]; [eauto | discriminate].
  - apply or_else_Some in H as [H | [_ H]]; [eauto|].
    destruct (p c); [eauto | discriminate].
Qed.

Lemma plus_greedy_inv p k s x :
  plus_greedy p k s = Some x -> exists s', k s' = Some x.
Proof.
  destruct s as [|c s]; simpl; [discriminate|].
  destruct (p c); [apply star_greedy_inv | discriminate].
Qed.

Lemma plus_lazy_inv p k s x :
  plus_lazy p k s = Some x -> exists s', k s' = Some x.
Proof.
  destruct s as [|c s]; simpl; [discriminate|].
  destruct (p c); [apply star_lazy_inv | discriminate].
Qed.

(** A successful match ends in the continuation; a capture once set
    stays set, and a pattern with a group sets it. *)
Lemma rmatch_capture r :
  forall s cap (k : jsstring -> option jsstring -> option A) x,
    rmatch r s cap k = Some x ->
    exists s' cap', k s' cap' = Some x
                    /\ (is_Some cap -> is_Some cap')
                    /\ (has_group r = true -> is_Some cap').
Proof.
  induction r as [|p|r1 IH1 r2 IH2|r IH|p|p|p|p|r IH]; simpl; intros s cap k x H.
  - exists s, cap; repeat split; auto; discriminate.
  - destruct s as [|c s]; [discriminate|].
    destruct (p c); [|discriminate].
    exists s, cap; repeat split; auto; discriminate.
  - apply IH1 in H as (s1 & cap1 & H & Hk1 & Hg1).
    apply IH2 in H as (s2 & cap2 & H & Hk2 & Hg2).
    exists s2, cap2; repeat split; auto.
    intros Hg. apply orb_true_iff in Hg as [Hg | Hg]; auto.
  - apply or_else_Some in H as [H | [_ H]].
    + apply IH in H as (s1 & cap1 & H & Hk1 & _).
      exists s1, cap1; repeat split; auto; discriminate.
    + exists s, cap; repeat split; auto; discriminate.
  - apply star_greedy_inv in H as [s' H].
    exists s', cap; repeat split; auto; discriminate.
  - apply plus_greedy_inv in H as [s' H].
    exists s', cap; repeat split; auto; discriminate.
  - apply star_lazy_inv in H as [s' H].
    exists s', cap; repeat split; auto; discriminate.
  - apply plus_lazy_inv in H as [s' H].
    exists s', cap; repeat split; auto; discriminate.
  - apply IH in H as (s1 & cap1 & H & _ & _).
    eexists _, _; split; [exact H|]. split; eauto.
Qed.
End MatcherFacts.

Lemma str_match_inv r s c :
  str_match r s = Some c ->
  exists s0, rmatch r s0 None (fun _ cap => Some cap) = Some c.
Proof.
  induction s as [|a s IH]; simpl; intros H.
  - apply or_else_Some in H as [H | [_ H]]; [eauto | discriminate].
  - apply or_else_Some in H as [H | [_ H]]; eauto.
Qed.

(** A match of the fence pattern always carries its group. *)
Lemma fence_match_group content c :
  str_match fence_re content = Some c -> exists inner, c = Some inner.
Proof.
  intros H. apply str_match_inv in H as [s0 H].
  apply rmatch_capture in H as (s' & cap' & H & _ & Hg).
  injection H as <-. destruct Hg as [inner ->]; [reflexivity | eauto].
Qed.

(** ** Indices *)

Lemma indexOf_from_first i s c :
  indexOf_from i s c =
  match first_index c s with
  | Some k => i + Z.of_nat k
  | None => -1
  end.
Proof.
  revert i. induction s as [|x s IH]; intros i; simpl; [reflexivity|].
  destruct (N.eqb x c); [lia|].
  rewrite IH. destruct (first_index c s); simpl; lia.
Qed.

Lemma lastIndexOf_from_last i best s c :
  lastIndexOf_from i best s c =
  match last_index c s with
  | Some k => i + Z.of_nat k
  | None => best
  end.
Proof.
  revert i best. induction s as [|x s IH]; intros i best; simpl; [reflexivity|].
  rewrite IH. destruct (last_index c s); [lia|].
  destruct (N.eqb x c); lia.
Qed.

Lemma first_index_nth c s i :
  first_index c s = Some i -> nth_error s i = Some c.
Proof.
  revert i. induction s as [|x s IH]; intros i; simpl; [discriminate|].
  destruct (N.eqb_spec x c) as [->|_].
  - intros [= <-]. reflexivity.
  - destruct (first_index c s); simpl; [|discriminate].
    intros [= <-]. simpl. auto.
Qed.

Lemma last_index_nth c s i :
  last_index c s = Some i -> nth_error s i = Some c.
Proof.
  revert i. induction s as [|x s IH]; intros i; simpl; [discriminate|].
  destruct (last_index c s).
  - intros [= <-]. simpl. auto.
  - destruct (N.eqb_spec x c) as [->|_]; [|discriminate].
    intros [= <-]. reflexivity.
Qed.

Lemma slice_within (s : jsstring) (a b : nat) :
  (a <= b)%nat -> (b <= List.length s)%nat ->
  slice s (Z.of_nat a) (Z.of_nat b) = firstn (b - a) (skipn a s).
Proof.
  intros Hab Hb. unfold slice, clamp_index, len.
  destruct (Z.ltb_spec (Z.of_nat a) 0); [lia|].
  destruct (Z.ltb_spec (Z.of_nat b) 0); [lia|].
  rewrite !Z.min_l by lia.
  replace (Z.to_nat (Z.of_nat b - Z.of_nat a)) with (b - a)%nat by lia.
  rewrite Nat2Z.id. reflexivity.
Qed.

(** ** Extraction strategies *)

Lemma extract_json_content_spec content :
  extract_json_content content = spec_extract content.
Proof.
  unfold extract_json_content, spec_extract, fenced_block.
  destruct (str_match fence_re content) as [c|] eqn:Hm.
  - destruct (fence_match_group _ _ Hm) as [inner ->]. reflexivity.
  - unfold indexOf, lastIndexOf.
    rewrite indexOf_from_first, lastIndexOf_from_last.
    destruct (first_index 123 content) as [i|] eqn:Hi; [|reflexivity].
    destruct (last_index 125 content) as [j|] eqn:Hj.
    + assert (i <> j) as Hne.
      { intros <-. apply first_index_nth in Hi. apply last_index_nth in Hj.
        rewrite Hi in Hj. discriminate. }
      assert (j < List.length content)%nat as Hlen.
      { apply nth_error_Some. apply last_index_nth in Hj. rewrite Hj. discriminate. }
      destruct (Z.eqb_spec (0 + Z.of_nat i) (-1)); [lia|]. simpl negb.
      destruct (Nat.ltb_spec i j).
      * destruct (Z.gtb_spec (0 + Z.of_nat j + 1) (0 + Z.of_nat i)); [|lia]. simpl.
        replace (0 + Z.of_nat i) with (Z.of_nat i) by lia.
        replace (0 + Z.of_nat j + 1) with (Z.of_nat (j + 1)) by lia.
        rewrite slice_within by lia.
        replace (j + 1 - i)%nat with (j - i + 1)%nat by lia. reflexivity.
      * destruct (Z.gtb_spec (0 + Z.of_nat j + 1) (0 + Z.of_nat i)); [lia|].
        reflexivity.
    + destruct (Z.eqb_spec (0 + Z.of_nat i) (-1)); [lia|]. simpl negb.
      destruct (Z.gtb_spec (-1 + 1) (0 + Z.of_nat i)); [lia|]. reflexivity.
Qed.

Lemma extract_profile_content_spec content :
  extract_profile_content content =
  match fenced_block content with
  | Some inner => inner
  | None => content
  end.
Proof.
  unfold extract_profile_content, fenced_block.
  destruct (str_match fence_re content) as [c|] eqn:Hm; [|reflexivity].
  destruct (fence_match_group _ _ Hm) as [inner ->]. reflexivity.
Qed.

(** C3, as amended.  At the soft-skills, resume (both paths) and marks
    handlers the text handed to [JSON.parse] is chosen by the three
    ordered strategies of the specification: the content of a fenced
    block if the pattern matches, else the slice from the first opening
    brace to the last closing brace when the first precedes the last,
    else the whole text.  The profile handler applies two strategies
    only: the fenced content, else the whole text. *)
Theorem extraction_strategies (content : jsstring) :
  extract_json_content content = spec_extract content
  /\ extract_profile_content content =
       match fenced_block content with
       | Some inner => inner
       | None => content
       end.
Proof.
  split; [apply extract_json_content_spec | apply extract_profile_content_spec].
Qed.

(** C3 as stated fails at the profile handler: on [wrapped_answer] the
    three strategies select the object, the profile handler keeps the
    whole sentence. *)
Lemma profile_extraction_differs :
  ~ (extract_json_content wrapped_answer = spec_extract wrapped_answer
     /\ extract_profile_content wrapped_answer = spec_extract wrapped_answer).
Proof.
  intros [_ H]. vm_compute in H. discriminate.
Qed.

(** ** Fenced and plain serialisations *)

Lemma rmatch_fence_head {A} (r : re) s cap (k : jsstring -> option jsstring -> option A) :
  rmatch (Seq (lit [96; 96; 96]%N) r) s cap k =
  match s with
  | a :: b :: c :: s' => if starts_fence s then rmatch r s' cap k else None
  | _ => None
  end.
Proof.
  destruct s as [|a [|b [|c s']]]; cbn -[N.eqb]; try reflexivity.
  - destruct (N.eqb 96 a); reflexivity.
  - destruct (N.eqb 96 a); [|reflexivity]. destruct (N.eqb 96 b); reflexivity.
  - destruct (N.eqb 96 a); [|reflexivity]. destruct (N.eqb 96 b); [|reflexivity].
    destruct (N.eqb 96 c); reflexivity.
Qed.

Lemma rmatch_no_fence {A} s cap (k : jsstring -> option jsstring -> option A) :
  starts_fence s = false -> rmatch fence_re s cap k = None.
Proof.
  intros H. unfold fence_re. change (js "```") with [96; 96; 96]%N.
  rewrite rmatch_fence_head.
  destruct s as [|a [|b [|c s']]]; try reflexivity. rewrite H. reflexivity.
Qed.

Lemma has_fence_cons a s : has_fence (a :: s) = false ->
  starts_fence (a :: s) = false /\ has_fence s = false.
Proof. simpl. intros H. apply orb_false_iff in H. exact H. Qed.

Lemma str_match_no_fence s : has_fence s = false -> str_match fence_re s = None.
Proof.
  induction s as [|a s IH]; intros H.
  - reflexivity.
  - apply has_fence_cons in H as [H1 H2].
    cbn [str_match]. rewrite rmatch_no_fence by assumption. simpl. auto.
Qed.

(** A text without a fence, followed by the closing line, starts no
    fence before that line. *)
Lemma starts_fence_before_closing v :
  v <> [] -> has_fence v = false -> starts_fence (v ++ closing) = false.
Proof.
  intros Hv H. destruct v as [|a v]; [congruence|].
  apply has_fence_cons in H as [H _].
  destruct v as [|b [|c v]]; cbn -[N.eqb] in *.
  - rewrite andb_false_r. reflexivity.
  - rewrite andb_false_r. reflexivity.
  - exact H.
Qed.

Lemma closing_line_mismatch {A} x v cap (k : jsstring -> option jsstring -> option A) :
  has_fence (x :: v) = false ->
  rmatch (Seq (Opt (chr 10)) (lit [96; 96; 96]%N)) (x :: v ++ closing) cap k = None.
Proof.
  intros H.
  assert (rmatch (Seq (lit [96; 96; 96]%N) Eps) (x :: v ++ closing) cap k = None) as H1.
  { rewrite rmatch_fence_head.
    pose proof (starts_fence_before_closing (x :: v) ltac:(discriminate) H) as Hs.
    change ((x :: v) ++ closing) with (x :: v ++ closing) in Hs.
    destruct (v ++ closing) as [|b [|c t]]; try reflexivity. rewrite Hs. reflexivity. }
  assert (rmatch (Seq (lit [96; 96; 96]%N) Eps) (v ++ closing) cap k = None) as H2.
  { rewrite rmatch_fence_head.
    destruct v as [|b v].
    - reflexivity.
    - apply has_fence_cons in H as [_ H].
      pose proof (starts_fence_before_closing (b :: v) ltac:(discriminate) H) as Hs.
      destruct ((b :: v) ++ closing) as [|b' [|c' [|d' t]]]; try reflexivity.
      rewrite Hs. reflexivity. }
  cbn -[N.eqb] in *. destruct (N.eqb 10 x); cbn -[N.eqb]; rewrite ?H2; exact H1.
Qed.

Lemma lazy_until_closing (capf : jsstring -> option jsstring) v :
  has_fence v = false ->
  star_lazy any
    (fun s' => rmatch (Seq (Opt (chr 10)) (lit [96; 96; 96]%N)) s' (capf s')
                 (fun _ cap => Some cap))
    (v ++ closing)
  = Some (capf closing).
Proof.
  induction v as [|x v IH]; intros H.
  - reflexivity.
  - change ((x :: v) ++ closing) with (x :: v ++ closing).
    cbn [star_lazy]. rewrite closing_line_mismatch by assumption.
    apply has_fence_cons in H as [_ H]. cbn [or_else any]. auto.
Qed.

Section MatcherSteps.
Context {A : Type}.
Implicit Types (k : jsstring -> option jsstring -> option A) (r : re).

Lemma rmatch_lit_app l r s cap k :
  rmatch (Seq (lit l) r) (l ++ s) cap k = rmatch r s cap k.
Proof.
  induction l as [|a l IH]; [reflexivity|].
  cbn [lit app]. cbn [rmatch chr]. rewrite N.eqb_refl. exact IH.
Qed.

Lemma rmatch_star_stop p r c s cap k :
  p c = false -> rmatch (Seq (Star p) r) (c :: s) cap k = rmatch r (c :: s) cap k.
Proof. intros H. cbn [rmatch star_greedy]. rewrite H. reflexivity. Qed.

Lemma rmatch_star_one p r a c s cap k x :
  p a = true -> p c = false ->
  rmatch r (c :: s) cap k = Some x ->
  rmatch (Seq (Star p) r) (a :: c :: s) cap k = Some x.
Proof.
  intros Ha Hc H. cbn [rmatch star_greedy]. rewrite Ha, Hc, H. reflexivity.
Qed.

Lemma rmatch_opt_take r1 r s cap k x :
  rmatch (Seq r1 r) s cap k = Some x -> rmatch (Seq (Opt r1) r) s cap k = Some x.
Proof. cbn [rmatch]. intros ->. reflexivity. Qed.

Lemma rmatch_opt_chr_skip a r c s cap k :
  N.eqb a c = false ->
  rmatch (Seq (Opt (chr a)) r) (c :: s) cap k = rmatch r (c :: s) cap k.
Proof. intros H. cbn [rmatch chr]. rewrite H. reflexivity. Qed.
End MatcherSteps.

Lemma not_space_not_newline c : is_space c = false -> N.eqb 10 c = false.
Proof.
  intros H. destruct (N.eqb_spec 10 c) as [<-|]; [discriminate H | reflexivity].
Qed.

Lemma take_before_closing (s t : jsstring) :
  firstn (List.length (s ++ t) - List.length t) (s ++ t) = s.
Proof.
  rewrite List.length_app.
  replace (List.length s + List.length t - List.length t)%nat
    with (List.length s) by lia.
  rewrite firstn_app, Nat.sub_diag, firstn_all. simpl. apply app_nil_r.
Qed.

Lemma fence_match c s0 :
  is_space c = false -> has_fence (c :: s0) = false ->
  str_match fence_re (fence (c :: s0)) = Some (Some (c :: s0)).
Proof.
  intros Hc Hf.
  assert (rmatch fence_re (fence (c :: s0)) None (fun _ cap => Some cap)
          = Some (Some (c :: s0))) as H.
  { unfold fence_re, fence.
    change (js "```json") with ([96; 96; 96] ++ [106; 115; 111; 110])%N.
    change (js "```") with [96; 96; 96]%N.
    change (js "json") with [106; 115; 111; 110]%N.
    rewrite <- !app_assoc. rewrite rmatch_lit_app.
    change ([106; 115; 111; 110] ++ [10] ++ (c :: s0) ++ [10] ++ [96; 96; 96])%N
      with (106 :: ([115; 111; 110] ++ 10 :: c :: s0 ++ closing))%N.
    rewrite rmatch_star_stop by reflexivity.
    apply rmatch_opt_take.
    change (106 :: ([115; 111; 110] ++ 10 :: c :: s0 ++ closing))%N
      with ([106; 115; 111; 110] ++ 10 :: c :: s0 ++ closing)%N.
    rewrite rmatch_lit_app.
    apply rmatch_star_one; [reflexivity | assumption |].
    rewrite rmatch_opt_chr_skip by (apply not_space_not_newline; assumption).
    cbn [rmatch plus_lazy any].
    apply has_fence_cons in Hf as [_ Hf].
    rewrite (lazy_until_closing
               (fun s' => Some (firstn (List.length (c :: s0 ++ closing) - List.length s')
                                  (c :: s0 ++ closing)))) by assumption.
    change (c :: s0 ++ closing) with ((c :: s0) ++ closing).
    rewrite take_before_closing. reflexivity. }
  unfold fence in *. change (js "```json") with [96; 96; 96; 106; 115; 111; 110]%N in *.
  cbn [app str_match] in *. rewrite H. reflexivity.
Qed.

(** *** What a serialisation starts with *)

Lemma digit_not_space c : is_digit c = true -> is_space c = false.
Proof.
  unfold is_digit. intros H. apply andb_true_iff in H as [H1 H2].
  apply N.leb_le in H1, H2. unfold is_space.
  replace (c <=? 13)%N with false by (symmetry; apply N.leb_gt; lia).
  replace (8192 <=? c)%N with false by (symmetry; apply N.leb_gt; lia).
  repeat match goal with
         | |- context [N.eqb c ?n] =>
             replace (N.eqb c n) with false by (symmetry; apply N.eqb_neq; lia)
         end.
  rewrite andb_false_r. reflexivity.
Qed.

Lemma digits_fuel_head fuel n acc :
  exists c rest, digits_fuel (S fuel) n acc = c :: rest /\ is_digit c = true.
Proof.
  revert n acc. induction fuel as [|fuel IH]; intros n acc.
  - exists (Z.to_N (48 + n mod 10)), acc. split.
    + simpl. destruct (n / 10 =? 0); reflexivity.
    + pose proof (Z.mod_pos_bound n 10 ltac:(lia)). unfold is_digit.
      apply andb_true_iff. split; apply N.leb_le; lia.
  - change (digits_fuel (S (S fuel)) n acc)
      with (let acc' := Z.to_N (48 + n mod 10) :: acc in
            if n / 10 =? 0 then acc' else digits_fuel (S fuel) (n / 10) acc').
    cbv zeta. destruct (n / 10 =? 0); [|apply IH].
    eexists _, _. split; [reflexivity|].
    pose proof (Z.mod_pos_bound n 10 ltac:(lia)). unfold is_digit.
    apply andb_true_iff. split; apply N.leb_le; lia.
Qed.

Lemma digits_head n : exists c rest, digits n = c :: rest /\ is_digit c = true.
Proof.
  unfold digits. replace (Z.to_nat (Z.log2 n) + 1)%nat with (S (Z.to_nat (Z.log2 n))) by lia.
  apply digits_fuel_head.
Qed.

Lemma Number_toString_head m e :
  exists c rest, Number_toString (Dec m e) = c :: rest /\ is_space c = false.
Proof.
  unfold Number_toString.
  destruct (m =? 0); [eexists _, _; split; reflexivity|].
  destruct (m <? 0); [eexists _, _; split; reflexivity|].
  destruct (digits_head (Z.abs m)) as (d & rest & -> & Hd).
  apply digit_not_space in Hd. cbn [app]. cbv zeta.
  destruct (_ && _).
  { eexists _, _; split; [reflexivity | exact Hd]. }
  destruct (Z.ltb_spec 0 (len (d :: rest) + e)); cbn [andb].
  - destruct (_ <=? 21).
    + destruct (Z.to_nat (len (d :: rest) + e)) eqn:E; [lia|].
      eexists _, _; split; [reflexivity | exact Hd].
    + destruct (_ && _); [eexists _, _; split; reflexivity|].
      destruct rest; eexists _, _; (split; [reflexivity | exact Hd]).
  - destruct (_ && _); [eexists _, _; split; reflexivity|].
    destruct rest; eexists _, _; (split; [reflexivity | exact Hd]).
Qed.

Lemma stringify_head v :
  exists c rest, JSON_stringify v = c :: rest /\ is_space c = false.
Proof.
  destruct v as [|b|n|s|l|l].
  - eexists _, _; split; reflexivity.
  - destruct b; eexists _, _; split; reflexivity.
  - destruct n as [| |m e]; [eexists _, _; split; reflexivity ..|].
    apply Number_toString_head.
  - eexists _, _; split; reflexivity.
  - eexists _, _; split; reflexivity.
  - eexists _, _; split; reflexivity.
Qed.

Lemma last_index_snoc c s : last_index c (s ++ [c]) = Some (List.length s).
Proof.
  induction s as [|x s IH]; simpl.
  - rewrite N.eqb_refl. reflexivity.
  - rewrite IH. reflexivity.
Qed.

(** Without a fence, a text that is one brace-delimited block, or has
    no opening brace before a closing one, is taken whole. *)
Lemma extract_whole s :
  has_fence s = false ->
  (braces_in_order s = false \/ exists inner, s = 123%N :: inner ++ [125%N]) ->
  extract_json_content s = s.
Proof.
  intros Hf H. unfold extract_json_content.
  rewrite str_match_no_fence by assumption.
  destruct H as [H | [inner ->]].
  - unfold braces_in_order in H. rewrite H. reflexivity.
  - unfold indexOf, lastIndexOf. rewrite lastIndexOf_from_last.
    change (123 :: inner ++ [125])%N with ((123%N :: inner) ++ [125%N]).
    rewrite last_index_snoc.
    change (indexOf_from 0 ((123%N :: inner) ++ [125%N]) 123) with 0.
    cbn [List.length].
    destruct (Z.gtb_spec (0 + Z.of_nat (S (List.length inner)) + 1) 0); [|lia].
    change (negb (0 =? -1) && true) with true. cbv iota.
    replace (0 + Z.of_nat (S (List.length inner)) + 1)
      with (Z.of_nat (List.length ((123%N :: inner) ++ [125%N]))).
    2:{ rewrite List.length_app. simpl. lia. }
    rewrite (slice_within _ 0) by lia.
    rewrite Nat.sub_0_r. apply firstn_all.
Qed.

(** C4, as amended.  Let [v] be a JSON value that [JSON.parse] reads
    back from its own serialisation, and let that serialisation contain
    no run of three backquotes.  Then extraction from the fenced
    serialisation yields [v]; and extraction from the plain
    serialisation yields [v] when [v] is an object, or when the
    serialisation has no opening brace before a closing one. *)
Theorem extraction_round_trip (v : json) :
  JSON_parse (JSON_stringify v) = Some v ->
  has_fence (JSON_stringify v) = false ->
  extractJson (fence (JSON_stringify v)) = Some v
  /\ (is_object v = true \/ braces_in_order (JSON_stringify v) = false ->
      extractJson (JSON_stringify v) = Some v).
Proof.
  intros Hparse Hfence. unfold extractJson. split.
  - destruct (stringify_head v) as (c & rest & E & Hc).
    unfold extract_json_content. rewrite E in *.
    rewrite fence_match by assumption. exact Hparse.
  - intros H. rewrite extract_whole; [exact Hparse | exact Hfence |].
    destruct H as [H | H]; [right | left; exact H].
    destruct v; try discriminate H. eexists. reflexivity.
Qed.

Lemma extraction_round_trip_witness :
  extractJson (fence (JSON_stringify sample_assessment)) = Some sample_assessment
  /\ extractJson (JSON_stringify sample_assessment) = Some sample_assessment.
Proof.
  destruct (extraction_round_trip sample_assessment) as [H1 H2];
    [vm_compute; reflexivity | vm_compute; reflexivity |].
  split; [exact H1 | apply H2; left; reflexivity].
Defined.

(** C4 as stated fails on an array of two objects: the slice from the
    first opening brace to the last closing brace drops the brackets,
    and what is left is not JSON. *)
Lemma array_of_objects_is_not_recovered :
  let v := JArr [obj []; obj []] in
  ~ (JSON_parse (JSON_stringify v) = Some v ->
     extractJson (fence (JSON_stringify v)) = Some v
     /\ extractJson (JSON_stringify v) = Some v).
Proof.
  intros v H. destruct H as [_ H]; [vm_compute; reflexivity|].
  vm_compute in H. discriminate.
Qed.

(** Nor is a string that holds three backquotes recovered from its
    fenced serialisation: the lazy group stops at them. *)
Example fenced_backquotes_are_not_recovered :
  let v := jstr "```" in
  JSON_parse (JSON_stringify v) = Some v
  /\ extractJson (fence (JSON_stringify v)) = None.
Proof. split; vm_compute; reflexivity. Qed.

(** ** Computations that only read *)

Lemma member_object l k : member (Some (JObj l)) k = ret (assoc (js k) l).
Proof. reflexivity. Qed.

Lemma member_non_null v k : v <> JNull -> member (Some v) k = ret (get v (js k)).
Proof. destruct v; intros H; [congruence | reflexivity ..]. Qed.

Lemma bind_ret {A B} (a : A) (f : A -> M B) w : bind (ret a) f w = f a w.
Proof. reflexivity. Qed.

(** ** Soft-skills: validation *)

Lemma format_response_returns index response w :
  (index < 5)%nat -> response <> JNull ->
  exists d, SoftSkills.format_response index response w = (Ret d, w).
Proof.
  intros Hi Hr. unfold SoftSkills.format_response.
  destruct (nth_error SoftSkills.SOFT_SKILLS_QUESTIONS index) as [q|] eqn:E.
  - rewrite bind_ret, member_non_null by assumption. rewrite bind_ret. eauto.
  - apply nth_error_None in E. change (5 <= index)%nat in E. lia.
Qed.

Lemma format_all_returns items : forall index w,
  (index + List.length items <= 5)%nat -> Forall (fun r => r <> JNull) items ->
  exists formatted,
    mapM_index SoftSkills.format_response index items w = (Ret formatted, w).
Proof.
  induction items as [|r items IH]; intros index w Hlen Hall.
  - exists []. reflexivity.
  - inversion Hall as [|? ? Hr Hrest]; subst. simpl in Hlen.
    destruct (format_response_returns index r w ltac:(lia) Hr) as [d Hd].
    destruct (IH (S index) w ltac:(lia) Hrest) as [ds Hds].
    exists (d :: ds). cbn [mapM_index]. unfold bind at 1. rewrite Hd.
    unfold bind at 1. rewrite Hds. reflexivity.
Qed.

(** C7.  The body of a request is what the JSON body parser leaves:
    an object or an array, never [null].  A request whose [responses]
    is missing, is not an array, or is an array of a length other than
    five is answered with status 400; the world is left as it was: no
    request has been sent to the completion service, to the analysis
    service or to the database, and no fallback has been computed. *)
Theorem soft_skills_validation req_body now groq w :
  req_body <> JNull ->
  ~ (exists items, get req_body (js "responses") = Some (JArr items)
                   /\ List.length items = 5%nat) ->
  SoftSkills.analyze req_body now groq w =
  (Ret (Response 400
          (obj [ "success" ~> JBool false;
                 "error" ~> jstr "All 5 question responses are required" ])),
   w).
Proof.
  intros Hbody H. unfold SoftSkills.analyze, try_catch.
  rewrite !member_non_null by assumption. rewrite !bind_ret.
  destruct (get req_body (js "responses")) as [[| b | n | s | items | l]|] eqn:E;
    try reflexivity.
  - destruct b; reflexivity.
  - destruct (truthy (JNum n)) eqn:T; unfold truthy_opt; rewrite T; reflexivity.
  - destruct s; reflexivity.
  - cbn [truthy_opt truthy isArray negb orb length_of].
    destruct (Z.eqb_spec (Z.of_nat (List.length items)) 5) as [L|L].
    + exfalso. apply H. exists items. split; [reflexivity | lia].
    + reflexivity.
Qed.

Lemma soft_skills_validation_witness :
  SoftSkills.analyze (JObj four_answers) a_date (Fails timeout_error) idle_world
  = (Ret (Response 400
            (obj [ "success" ~> JBool false;
                   "error" ~> jstr "All 5 question responses are required" ])),
     idle_world).
Proof.
  apply soft_skills_validation; [discriminate|].
  intros (items & H & L). vm_compute in H. injection H as <-. discriminate L.
Defined.

(** ** Soft-skills: the analysis object *)

Lemma normalize_non_null a now formatted :
  a <> JNull ->
  SoftSkills.normalize a now formatted = ret (normalized a now formatted).
Proof.
  intros H. unfold SoftSkills.normalize. rewrite !member_non_null by assumption.
  reflexivity.
Qed.

Lemma analysis_of_returns content now formatted w :
  SoftSkills.analysis_of content now formatted w =
  (Ret (analysis_data content now formatted), w).
Proof.
  unfold SoftSkills.analysis_of, analysis_data, try_catch, parse.
  destruct (JSON_parse (extract_json_content content)) as [a|]; [|reflexivity].
  rewrite bind_ret.
  destruct a; try (rewrite normalize_non_null by discriminate; reflexivity).
  reflexivity.
Qed.

Lemma persist_returns studentId data w :
  exists w', SoftSkills.persist studentId data w = (Ret tt, w').
Proof.
  unfold SoftSkills.persist. destruct (truthy_opt studentId); [|eauto].
  unfold try_catch. destruct (bind _ _ w) as [[[]|e] w']; eauto.
Qed.

Lemma soft_skills_answered fields items now completion w :
  well_formed fields items ->
  exists formatted w',
    SoftSkills.analyze (JObj fields) now (Replies completion) w =
    (Ret (Response 200
            (obj [ "success" ~> JBool true;
                   "data" ~> analysis_data (content_or completion []) now (JArr formatted);
                   "message" ~> jstr "Soft skills assessment completed successfully" ])),
     w').
Proof.
  intros (E & L & Hall).
  destruct (format_all_returns items 0 w ltac:(lia) Hall) as [formatted Hf].
  destruct (persist_returns (assoc (js "studentId") fields)
              (analysis_data (content_or completion []) now (JArr formatted))
              (note Groq w)) as [w' Hp].
  exists formatted, w'.
  unfold SoftSkills.analyze, try_catch.
  rewrite !member_object, !bind_ret. rewrite E.
  cbn [truthy_opt truthy isArray negb orb length_of elements_of]. rewrite L.
  change (Z.of_nat 5 =? 5) with true. cbn [negb].
  unfold bind at 1. rewrite Hf.
  unfold bind at 1. unfold request at 1.
  unfold bind at 1. rewrite analysis_of_returns.
  unfold bind at 1. rewrite Hp. reflexivity.
Qed.

Lemma soft_skills_unanswered fields items now e w :
  well_formed fields items ->
  SoftSkills.analyze (JObj fields) now (Fails e) w =
  (Ret (Response 500
          (obj [ "success" ~> JBool false;
                 "error" ~> jstr "Error analyzing soft skills responses";
                 "details" ~> JStr (emessage e) ])),
   note Groq w).
Proof.
  intros (E & L & Hall).
  destruct (format_all_returns items 0 w ltac:(lia) Hall) as [formatted Hf].
  unfold SoftSkills.analyze, try_catch.
  rewrite !member_object, !bind_ret. rewrite E.
  cbn [truthy_opt truthy isArray negb orb length_of elements_of]. rewrite L.
  change (Z.of_nat 5 =? 5) with true. cbn [negb].
  unfold bind at 1. rewrite Hf. reflexivity.
Qed.

(** C5, as amended.  When the text extracted from the completion is
    not JSON, a well-formed request is answered with status 200 and the
    static payload of the handler, whose [overallSoftSkillsScore] is 70;
    that payload has no [source] and no [provenance] field. *)
Theorem soft_skills_prose fields items now completion w :
  well_formed fields items ->
  JSON_parse (extract_json_content (content_or completion [])) = None ->
  exists formatted w',
    SoftSkills.analyze (JObj fields) now (Replies completion) w =
    (Ret (Response 200
            (obj [ "success" ~> JBool true;
                   "data" ~> SoftSkills.parse_failure_payload now (JArr formatted);
                   "message" ~> jstr "Soft skills assessment completed successfully" ])),
     w')
    /\ get (SoftSkills.parse_failure_payload now (JArr formatted))
         (js "overallSoftSkillsScore") = Some (jnum 70)
    /\ get (SoftSkills.parse_failure_payload now (JArr formatted)) (js "source") = None
    /\ get (SoftSkills.parse_failure_payload now (JArr formatted)) (js "provenance") = None.
Proof.
  intros Hwf Hparse.
  destruct (soft_skills_answered fields items now completion w Hwf)
    as (formatted & w' & H).
  exists formatted, w'. split; [|repeat split; reflexivity].
  rewrite H. unfold analysis_data. rewrite Hparse. reflexivity.
Qed.

Lemma five_answers_well_formed :
  well_formed five_answers
    [ obj ["answer" ~> jstr "I split the work."];
      obj ["answer" ~> jstr "We talked it through."];
      obj ["answer" ~> jstr "I read the manual."];
      obj ["answer" ~> jstr "I volunteered."];
      obj ["answer" ~> jstr "I asked for examples."] ].
Proof.
  split; [reflexivity|]. split; [reflexivity|].
  repeat constructor; discriminate.
Defined.

Lemma soft_skills_prose_witness :
  exists formatted w',
    SoftSkills.analyze (JObj five_answers) a_date (Replies (Some prose)) idle_world =
    (Ret (Response 200
            (obj [ "success" ~> JBool true;
                   "data" ~> SoftSkills.parse_failure_payload a_date (JArr formatted);
                   "message" ~> jstr "Soft skills assessment completed successfully" ])),
     w')
    /\ get (SoftSkills.parse_failure_payload a_date (JArr formatted))
         (js "overallSoftSkillsScore") = Some (jnum 70)
    /\ get (SoftSkills.parse_failure_payload a_date (JArr formatted)) (js "source") = None
    /\ get (SoftSkills.parse_failure_payload a_date (JArr formatted)) (js "provenance") = None.
Proof.
  apply (soft_skills_prose five_answers _ a_date (Some prose) idle_world
           five_answers_well_formed).
  vm_compute. reflexivity.
Defined.

(** C5 as stated fails on its provenance part: on a completion in
    plain prose the payload has the score 70 but neither a [source] nor
    a [provenance] field. *)
Lemma soft_skills_prose_has_no_provenance :
  let res := SoftSkills.analyze (JObj five_answers) a_date (Replies (Some prose))
               idle_world in
  ~ (get_opt (reply_data res) (js "overallSoftSkillsScore") = Some (jnum 70)
     /\ (get_opt (reply_data res) (js "source") = Some (jstr "basic-fallback")
         \/ get_opt (reply_data res) (js "provenance") = Some (jstr "basic-fallback"))).
Proof.
  intros res [_ [H | H]]; vm_compute in H; discriminate.
Qed.

(** ** Computations that leave the upload directory alone *)

Section Frames.
Context {A B : Type}.

Lemma pu_ret (a : A) : preserves_uploads (ret a).
Proof. intros w. reflexivity. Qed.

Lemma pu_throw e : preserves_uploads (@throw A e).
Proof. intros w. reflexivity. Qed.

Lemma pu_bind (m : M A) (f : A -> M B) :
  preserves_uploads m -> (forall a, preserves_uploads (f a)) ->
  preserves_uploads (bind m f).
Proof.
  intros Hm Hf w. unfold bind. specialize (Hm w).
  destruct (m w) as [[a|e] w1]; simpl in *; [|assumption].
  rewrite Hf. assumption.
Qed.

Lemma pu_try_catch (m : M A) (h : exn -> M A) :
  preserves_uploads m -> (forall e, preserves_uploads (h e)) ->
  preserves_uploads (try_catch m h).
Proof.
  intros Hm Hh w. unfold try_catch. specialize (Hm w).
  destruct (m w) as [[a|e] w1]; simpl in *; [assumption|].
  rewrite Hh. assumption.
Qed.

Lemma pu_request s (r : reply A) : preserves_uploads (request s r).
Proof. intros w. reflexivity. Qed.
End Frames.

Lemma pu_member v k : preserves_uploads (member v k).
Proof. destruct v as [[]|]; intros w; reflexivity. Qed.

Lemma pu_parse text : preserves_uploads (parse text).
Proof. unfold parse. destruct (JSON_parse text); intros w; reflexivity. Qed.

Lemma pu_readFileSync path : preserves_uploads (readFileSync path).
Proof. intros w. unfold readFileSync. destruct (uploads w !! path); reflexivity. Qed.

Lemma pu_mapM {A B} (f : A -> M B) l :
  (forall a, preserves_uploads (f a)) -> preserves_uploads (mapM f l).
Proof.
  intros Hf. induction l as [|x l IH]; simpl.
  - apply pu_ret.
  - apply pu_bind; [apply Hf|]. intros y. apply pu_bind; [exact IH|].
    intros ys. apply pu_ret.
Qed.

Ltac frame :=
  repeat first
    [ apply pu_mapM; intros ?
    | apply pu_ret | apply pu_throw | apply pu_request | apply pu_member
    | apply pu_parse | apply pu_readFileSync
    | apply pu_bind; [|intros ?]
    | apply pu_try_catch; [|intros ?]
    | match goal with
      | |- preserves_uploads (if ?b then _ else _) => destruct b
      | |- preserves_uploads (match ?x with _ => _ end) => destruct x
      end ].

(** After the removal in a [try], the file is gone, whether or not it
    was there. *)
Lemma unlink_in_try path w :
  exists w', try_catch (unlinkSync path) (fun _ => ret tt) w = (Ret tt, w')
             /\ uploads w' !! path = None
             /\ sent w' = sent w /\ students w' = students w.
Proof.
  unfold try_catch, unlinkSync.
  destruct (uploads w !! path) eqn:E.
  - eexists. split; [reflexivity|]. simpl. split; [apply lookup_delete_eq | auto].
  - eexists. split; [reflexivity|]. auto.
Qed.

Lemma cleanup_removes f w :
  exists w', cleanup (Some f) w = (Ret tt, w') /\ uploads w' !! f_path f = None.
Proof.
  unfold cleanup.
  change (f_path f) with (117%N :: skipn 1 (js "uploads/") ++ f_filename f) at 1.
  destruct (unlink_in_try (f_path f) w) as (w' & H & Hgone & _).
  exists w'. split; assumption.
Qed.

(** ** Resume analysis: what each path returns *)

Lemma bind_inv {A B} (m : M A) (f : A -> M B) w b w' :
  bind m f w = (Ret b, w') ->
  exists a w1, m w = (Ret a, w1) /\ f a w1 = (Ret b, w').
Proof.
  unfold bind. destruct (m w) as [[a|e] w1]; [eauto | discriminate].
Qed.

Lemma member_inv v k x w w' :
  member v k w = (Ret x, w') ->
  w' = w /\ exists v', v = Some v' /\ v' <> JNull /\ x = get v' (js k).
Proof.
  destruct v as [v|]; [|discriminate].
  destruct v; try discriminate; intros [= <- <-];
    (split; [reflexivity | eexists; repeat split; discriminate]).
Qed.

Lemma array_or_array x d : exists l, array_or x (JArr d) = JArr l.
Proof. destruct x as [[]|]; simpl; eauto. Qed.

Lemma structure_of_arrays completion w :
  exists a1 a2 a3 a4,
    Resume.structure_of completion w = (Ret (four_arrays a1 a2 a3 a4), w).
Proof.
  unfold Resume.structure_of, try_catch, parse.
  destruct (JSON_parse _) as [b|].
  - rewrite bind_ret. unfold Resume.sanitize.
    destruct b;
      try (rewrite !member_non_null by discriminate; rewrite !bind_ret;
           unfold ret;
           repeat match goal with
                  | |- context [array_or ?x (JArr [])] =>
                      let l := fresh "l" in let E := fresh "E" in
                      destruct (array_or_array x []) as [l E]; rewrite E; clear E
                  end;
           eexists _, _, _, _; reflexivity).
    eexists _, _, _, _; reflexivity.
  - eexists _, _, _, _; reflexivity.
Qed.

(** The object of the first path, when it completes. *)
Lemma via_app_py_result f appPy structuring w r w' :
  Resume.via_app_py f appPy structuring w = (Ret r, w') ->
  uploads w' = uploads w
  /\ exists a1 a2 a3 a4 d name size,
       r = app_py_result a1 a2 a3 a4 d name size.
Proof.
  unfold Resume.via_app_py. intros H.
  apply bind_inv in H as (buf & w1 & H1 & H).
  assert (uploads w1 = uploads w) as U1 by (pose proof (pu_readFileSync (f_path f) w) as P; rewrite H1 in P; exact P).
  apply bind_inv in H as (data & w2 & H2 & H).
  assert (uploads w2 = uploads w1) as U2 by (pose proof (pu_request AppPy appPy w1) as P; rewrite H2 in P; exact P).
  apply bind_inv in H as (success & w3 & H3 & H).
  apply member_inv in H3 as (-> & _ & [= <-] & Hdata & _).
  destruct (truthy_opt success).
  - apply bind_inv in H as (analysis & w4 & H4 & H).
    apply member_inv in H4 as (-> & _).
    apply bind_inv in H as (d & w5 & H5 & H).
    destruct analysis as [[]|]; try discriminate H5. injection H5 as <- <-.
    apply bind_inv in H as (completion & w6 & H6 & H).
    assert (uploads w6 = uploads w2) as U6 by (pose proof (pu_request Groq structuring w2) as P; rewrite H6 in P; exact P).
    apply bind_inv in H as (basic & w7 & H7 & H).
    destruct (structure_of_arrays completion w6) as (a1 & a2 & a3 & a4 & Hs).
    rewrite Hs in H7. injection H7 as <- <-.
    rewrite !member_non_null, !bind_ret in H by assumption.
    injection H as <- <-. split; [congruence|].
    eexists _, _, _, _, _, _, _. reflexivity.
  - apply bind_inv in H as (error & w4 & _ & H). discriminate H.
Qed.

Lemma via_app_py_preserves f appPy structuring :
  preserves_uploads (Resume.via_app_py f appPy structuring).
Proof.
  unfold Resume.via_app_py, Resume.structure_of, Resume.sanitize. frame.
Qed.

Lemma groq_fallback_non_null g f fileContent :
  g <> JNull ->
  Resume.groq_fallback g f fileContent = ret (groq_fallback_of g f (len fileContent)).
Proof.
  intros H. unfold Resume.groq_fallback. rewrite !member_non_null by assumption.
  reflexivity.
Qed.

(** The second path always returns one of its three objects. *)
Lemma groq_only_result f groq w :
  exists r w',
    Resume.groq_only f groq w = (Ret r, w')
    /\ uploads w' = uploads w
    /\ (r = Resume.upload_only f \/ r = Resume.basic_fallback f
        \/ exists g n, g <> JNull /\ r = groq_fallback_of g f n).
Proof.
  assert (preserves_uploads (Resume.groq_only f groq)) as P.
  { unfold Resume.groq_only, Resume.groq_fallback. frame. }
  specialize (P w).
  unfold Resume.groq_only in *. unfold try_catch at 1 in P. unfold try_catch at 1.
  destruct (bind _ _ w) as [[r|e] w'] eqn:E.
  - exists r, w'. split; [reflexivity|]. split; [exact P|].
    apply bind_inv in E as (fileContent & w1 & _ & E).
    apply bind_inv in E as (completion & w2 & _ & E).
    unfold try_catch, parse in E.
    destruct (JSON_parse _) as [g|].
    + rewrite bind_ret in E. destruct g;
        try (rewrite groq_fallback_non_null in E by discriminate;
             injection E as <- <-; right; right; eexists _, _;
             split; [|reflexivity]; discriminate).
      injection E as <- <-. auto.
    + injection E as <- <-. auto.
  - exists (Resume.upload_only f), w'. split; [reflexivity|]. split; [exact P | auto].
Qed.

Lemma resume_shape_app_py a1 a2 a3 a4 d name size :
  resume_shape (app_py_result a1 a2 a3 a4 d name size) = true.
Proof. reflexivity. Qed.

Lemma resume_shape_groq_fallback g f n : resume_shape (groq_fallback_of g f n) = true.
Proof.
  unfold groq_fallback_of.
  repeat match goal with
         | |- context [array_or ?x (JArr ?d)] =>
             let l := fresh "l" in let E := fresh "E" in
             destruct (array_or_array x d) as [l E]; rewrite E; clear E
         end.
  reflexivity.
Qed.

(** The resume handler always answers 200 with one of its objects, and
    leaves no staged file behind. *)
Lemma resume_analyze_total f health appPy structuring groq w :
  exists r w',
    Resume.analyze (Some f) health appPy structuring groq w
    = (Ret (Response 200 r), w')
    /\ resume_shape r = true
    /\ uploads w' !! f_path f = None.
Proof.
  unfold Resume.analyze. unfold try_catch at 1.
  (* the health probe *)
  set (probe := try_catch _ (fun _ => ret false)).
  assert (exists b, probe w = (Ret b, note AppPy w)) as [b Hprobe].
  { subst probe. unfold try_catch, bind, request. destruct health; eauto. }
  unfold bind at 1. rewrite Hprobe.
  (* the first path *)
  set (w1 := note AppPy w).
  set (first := if b then _ else _).
  assert (exists b' ar w2,
             first w1 = (Ret (b', ar), w2) /\ uploads w2 = uploads w1
             /\ (b' = true -> exists r, ar = Some r /\ resume_shape r = true)) as Hfirst.
  { subst first. destruct b.
    - unfold try_catch, bind.
      pose proof (via_app_py_preserves f appPy structuring w1) as P.
      destruct (Resume.via_app_py f appPy structuring w1) as [[r|e] w2] eqn:E.
      + apply via_app_py_result in E as (_ & a1 & a2 & a3 & a4 & d & nm & sz & ->).
        eexists _, _, _. split; [reflexivity|]. split; [exact P|].
        intros _. eexists. split; [reflexivity | apply resume_shape_app_py].
      + eexists _, _, _. split; [reflexivity|]. split; [exact P | discriminate].
    - eexists _, _, _. split; [reflexivity|]. split; [reflexivity | discriminate]. }
  destruct Hfirst as (b' & ar & w2 & Hfirst & U2 & Har).
  unfold bind at 1. rewrite Hfirst. cbv iota beta.
  (* the second path *)
  set (second := if negb b' || negb (truthy_opt ar) then _ else _).
  assert (exists r w3, second w2 = (Ret (Some r), w3) /\ uploads w3 = uploads w2
                       /\ resume_shape r = true) as (r & w3 & Hsecond & U3 & Hr).
  { subst second. destruct b'.
    - destruct (Har eq_refl) as (r & -> & Hr).
      assert (truthy_opt (Some r) = true) as ->.
      { destruct r as [| | | | |l]; try discriminate Hr. reflexivity. }
      eexists _, _. split; [reflexivity|]. auto.
    - cbn [negb orb]. unfold bind.
      destruct (groq_only_result f groq w2) as (r & w3 & -> & U & Hcases).
      eexists _, _. split; [reflexivity|]. split; [exact U|].
      destruct Hcases as [-> | [-> | (g & n & _ & ->)]];
        [reflexivity | reflexivity | apply resume_shape_groq_fallback]. }
  unfold bind at 1. rewrite Hsecond.
  (* the removal *)
  destruct (unlink_in_try (f_path f) w3) as (w4 & Hunlink & Hgone & _).
  unfold bind at 1. rewrite Hunlink.
  exists r, w4. split; [reflexivity|]. auto.
Qed.

(** ** Staged files *)

Lemma unlinkSync_inv path w w' :
  unlinkSync path w = (Ret tt, w') -> uploads w' !! path = None.
Proof.
  unfold unlinkSync. destruct (uploads w !! path); [|discriminate].
  intros [= <-]. apply lookup_delete_eq.
Qed.

Lemma marks_of_preserves completion detailedAnalysis :
  preserves_uploads (Marks.marks_of completion detailedAnalysis).
Proof.
  unfold Marks.marks_of, Marks.normalize, Marks.gpa_fallback. frame.
Qed.

Lemma marks_file_removed f appPy groq w :
  uploads (snd (Marks.analyze (Some f) appPy groq w)) !! f_path f = None.
Proof.
  unfold Marks.analyze. unfold try_catch at 1.
  destruct (bind _ _ w) as [[r|e] w1] eqn:E.
  - simpl.
    apply bind_inv in E as (buf & w2 & H2 & E).
    apply bind_inv in E as (data & w3 & H3 & E).
    apply bind_inv in E as ([] & w4 & H4 & E).
    apply unlinkSync_inv in H4.
    match type of E with
    | ?m w4 = _ =>
        assert (preserves_uploads m) as P
          by (unfold res_status; frame; apply marks_of_preserves)
    end.
    specialize (P w4). rewrite E in P. simpl in P. rewrite P. exact H4.
  - destruct (cleanup_removes f w1) as (w' & Hc & Hgone).
    unfold bind. rewrite Hc. exact Hgone.
Qed.

Lemma photo_file_removed f cloudinary w :
  uploads (snd (upload_photo (Some f) cloudinary w)) !! f_path f = None.
Proof.
  unfold upload_photo. unfold try_catch at 1.
  destruct (bind _ _ w) as [[r|e] w1] eqn:E.
  - simpl.
    apply bind_inv in E as (result & w2 & H2 & E).
    apply bind_inv in E as ([] & w3 & H3 & E).
    apply unlinkSync_inv in H3.
    apply bind_inv in E as (url & w4 & H4 & E).
    apply member_inv in H4 as (-> & _). injection E as _ <-. exact H3.
  - destruct (cleanup_removes f w1) as (w' & Hc & Hgone).
    unfold bind. rewrite Hc. exact Hgone.
Qed.

(** C8.  Whatever the other services answer, when the photo, resume or
    marks handler returns, the file that the upload middleware staged
    for the request is no longer in the upload directory. *)
Theorem staged_file_is_removed (f : file) (w : world) :
  (forall cloudinary,
      uploads (snd (upload_photo (Some f) cloudinary w)) !! f_path f = None)
  /\ (forall health appPy structuring groq,
         uploads (snd (Resume.analyze (Some f) health appPy structuring groq w))
           !! f_path f = None)
  /\ (forall appPy groq,
         uploads (snd (Marks.analyze (Some f) appPy groq w)) !! f_path f = None).
Proof.
  split; [|split].
  - intros. apply photo_file_removed.
  - intros.
    destruct (resume_analyze_total f health appPy structuring groq w)
      as (r & w' & -> & _ & H). exact H.
  - intros. apply marks_file_removed.
Qed.

(** A resume that is staged before the request and gone after it,
    here with every other service failing. *)
Example staged_resume_is_removed :
  uploads staged_world !! f_path a_resume = Some (js "resume text")
  /\ uploads (snd (Resume.analyze (Some a_resume) (Fails timeout_error)
                     (Fails timeout_error) (Fails timeout_error)
                     (Fails timeout_error) staged_world))
       !! f_path a_resume = None.
Proof. split; vm_compute; reflexivity. Qed.

(** ** Transport and parse errors, endpoint by endpoint *)

(** Marks: when either service fails, the body of the handler throws. *)
Lemma marks_failure f appPy groq w :
  (exists e, appPy = Fails e) \/ (exists e, groq = Fails e) ->
  exists w',
    Marks.analyze (Some f) appPy groq w = (Ret (Response 200 Marks.error_reply), w').
Proof.
  intros Hfail. unfold Marks.analyze. unfold try_catch at 1.
  destruct (bind _ _ w) as [[r|e] w1] eqn:E.
  - exfalso.
    apply bind_inv in E as (buf & w2 & _ & E).
    apply bind_inv in E as (data & w3 & H3 & E).
    destruct Hfail as [[e ->] | [e ->]]; [discriminate H3|].
    apply bind_inv in E as ([] & w4 & _ & E).
    apply bind_inv in E as (success & w5 & _ & E).
    destruct (truthy_opt success).
    + apply bind_inv in E as (da & w6 & _ & E).
      apply bind_inv in E as (completion & w7 & H7 & _). discriminate H7.
    + apply bind_inv in E as (err & w6 & _ & E). discriminate E.
  - destruct (cleanup_removes f w1) as (w' & Hc & _).
    exists w'. unfold bind. rewrite Hc. reflexivity.
Qed.

(** Profile: with the student on record, a failed completion and an
    unparsable completion both end in status 500. *)
Lemma profile_failures usn student w :
  mongo_up w = true ->
  List.find (has_usn (toUpperCase usn)) (students w) = Some student ->
  (forall e,
      Profile.analyze usn (Fails e) w =
      (Ret (Response 500 (obj ["error" ~> jstr "Error analyzing student data"])),
       note Groq (note Mongo w)))
  /\ (forall completion,
         JSON_parse (extract_profile_content (content_or completion [])) = None ->
         Profile.analyze usn (Replies completion) w =
         (Ret (Response 500 (obj ["error" ~> jstr "Error generating analysis"])),
          note Groq (note Mongo w))).
Proof.
  intros Hup Hfind. split.
  - intros e. unfold Profile.analyze, try_catch, bind, findOne_usn, query.
    rewrite Hup, Hfind. reflexivity.
  - intros completion Hparse.
    unfold Profile.analyze, try_catch, bind, findOne_usn, query, parse.
    rewrite Hup, Hfind. cbn [request]. rewrite Hparse. reflexivity.
Qed.

Lemma analysis_data_keys content now formatted :
  keys (analysis_data content now formatted) = soft_skills_fields.
Proof.
  unfold analysis_data.
  destruct (JSON_parse _) as [[]|]; reflexivity.
Qed.

(** C1, as amended.  Only the resume handler absorbs every transport
    and parse error: it always answers 200 with a fully populated
    object tagged with one of its four sources.  The soft-skills handler
    absorbs a parse error (200, all ten fields) but answers 500 when the
    completion service fails.  The profile handler answers 500 both when
    the completion service fails and when its answer cannot be parsed.
    The marks handler answers 200 with [success: false] and an empty
    data object when either service fails. *)
Theorem enrichment_error_handling :
  (forall f health appPy structuring groq w,
      exists r w',
        Resume.analyze (Some f) health appPy structuring groq w
        = (Ret (Response 200 r), w')
        /\ resume_shape r = true)
  /\ (forall fields items now w,
         well_formed fields items ->
         (forall completion,
             exists data w',
               SoftSkills.analyze (JObj fields) now (Replies completion) w
               = (Ret (Response 200
                         (obj [ "success" ~> JBool true;
                                "data" ~> data;
                                "message" ~>
                                  jstr "Soft skills assessment completed successfully" ])),
                  w')
               /\ keys data = soft_skills_fields)
         /\ (forall e,
                SoftSkills.analyze (JObj fields) now (Fails e) w
                = (Ret (Response 500
                          (obj [ "success" ~> JBool false;
                                 "error" ~> jstr "Error analyzing soft skills responses";
                                 "details" ~> JStr (emessage e) ])),
                   note Groq w)))
  /\ (forall usn student w,
         mongo_up w = true ->
         List.find (has_usn (toUpperCase usn)) (students w) = Some student ->
         (forall e,
             Profile.analyze usn (Fails e) w =
             (Ret (Response 500 (obj ["error" ~> jstr "Error analyzing student data"])),
              note Groq (note Mongo w)))
         /\ (forall completion,
                JSON_parse (extract_profile_content (content_or completion [])) = None ->
                Profile.analyze usn (Replies completion) w =
                (Ret (Response 500 (obj ["error" ~> jstr "Error generating analysis"])),
                 note Groq (note Mongo w))))
  /\ (forall f appPy groq w,
         (exists e, appPy = Fails e) \/ (exists e, groq = Fails e) ->
         exists w',
           Marks.analyze (Some f) appPy groq w
           = (Ret (Response 200 Marks.error_reply), w')).
Proof.
  split; [|split; [|split]].
  - intros.
    destruct (resume_analyze_total f health appPy structuring groq w)
      as (r & w' & H & Hs & _). eauto.
  - intros fields items now w Hwf. split.
    + intros completion.
      destruct (soft_skills_answered fields items now completion w Hwf)
        as (formatted & w' & H).
      eexists _, w'. split; [exact H | apply analysis_data_keys].
    + intros e. eapply soft_skills_unanswered; eassumption.
  - intros usn student w Hup Hfind. exact (profile_failures usn student w Hup Hfind).
  - intros. apply marks_failure; assumption.
Qed.

Lemma enrichment_error_handling_witness :
  (exists r w',
      Resume.analyze (Some a_resume) (Fails timeout_error) (Fails timeout_error)
        (Fails timeout_error) (Fails timeout_error) staged_world
      = (Ret (Response 200 r), w')
      /\ resume_shape r = true)
  /\ SoftSkills.analyze (JObj five_answers) a_date (Fails timeout_error) idle_world
     = (Ret (Response 500
               (obj [ "success" ~> JBool false;
                      "error" ~> jstr "Error analyzing soft skills responses";
                      "details" ~> JStr (emessage timeout_error) ])),
        note Groq idle_world)
  /\ Profile.analyze (js "1ms21cs001") (Replies (Some prose)) campus
     = (Ret (Response 500 (obj ["error" ~> jstr "Error generating analysis"])),
        note Groq (note Mongo campus))
  /\ exists w',
       Marks.analyze (Some a_resume) (Fails timeout_error) (Replies None) staged_world
       = (Ret (Response 200 Marks.error_reply), w').
Proof.
  destruct enrichment_error_handling as (Hr & Hs & Hp & Hm).
  split; [apply Hr|]. split.
  { apply (Hs five_answers _ a_date idle_world five_answers_well_formed). }
  split.
  { apply (Hp (js "1ms21cs001") enrolled campus eq_refl); vm_compute; reflexivity. }
  apply Hm. left. eexists. reflexivity.
Defined.

(** C1 as stated fails at the soft-skills handler: when the request to
    the completion service fails, the caller gets status 500. *)
Lemma soft_skills_transport_error_is_surfaced :
  let res := SoftSkills.analyze (JObj five_answers) a_date (Fails timeout_error)
               idle_world in
  ~ (reply_status res = Some 200).
Proof.
  intros res H. vm_compute in H. discriminate.
Qed.

(** ** Running a handler step by step *)

Section Steps.
Context {A B : Type}.

Lemma bind_step (m : M A) (f : A -> M B) w a w1 :
  m w = (Ret a, w1) -> bind m f w = f a w1.
Proof. unfold bind. intros ->. reflexivity. Qed.

Lemma bind_fail (m : M A) (f : A -> M B) w e w1 :
  m w = (Throw e, w1) -> bind m f w = (Throw e, w1).
Proof. unfold bind. intros ->. reflexivity. Qed.

Lemma try_ok (m : M A) (h : exn -> M A) w a w1 :
  m w = (Ret a, w1) -> try_catch m h w = (Ret a, w1).
Proof. unfold try_catch. intros ->. reflexivity. Qed.

Lemma try_fail (m : M A) (h : exn -> M A) w e w1 :
  m w = (Throw e, w1) -> try_catch m h w = h e w1.
Proof. unfold try_catch. intros ->. reflexivity. Qed.
End Steps.

Lemma readFileSync_staged path text w :
  uploads w !! path = Some text -> readFileSync path w = (Ret text, w).
Proof. unfold readFileSync. intros ->. reflexivity. Qed.

Ltac step := erewrite bind_step by reflexivity.

(** ** Resume analysis: which source after which failure *)

Lemma structure_of_unparsable completion w :
  JSON_parse (extract_json_content (content_or completion (js "{}"))) = None ->
  Resume.structure_of completion w = (Ret Resume.placeholder_structure, w).
Proof.
  intros H. unfold Resume.structure_of, try_catch, parse. rewrite H. reflexivity.
Qed.

Section ResumeTiers.
Variables (f : file) (text : jsstring) (fields : list (jsstring * json))
          (analysis : jsstring) (w : world).
Hypothesis staged : uploads w !! f_path f = Some text.
Hypothesis success : truthy_opt (assoc (js "success") fields) = true.
Hypothesis analysed : assoc (js "analysis") fields = Some (JStr analysis).

(** The structuring answer cannot be parsed: the first path keeps its
    place-holder structure and its tag. *)
Lemma via_app_py_unparsable completion w1 :
  uploads w1 = uploads w ->
  JSON_parse (extract_json_content (content_or completion (js "{}"))) = None ->
  Resume.via_app_py f (Replies (JObj fields)) (Replies completion) w1
  = (Ret (unstructured_result f fields analysis), note Groq (note AppPy w1)).
Proof.
  intros U Hparse. unfold Resume.via_app_py.
  erewrite bind_step by (apply readFileSync_staged; rewrite U; exact staged).
  step. step. cbn [get]. rewrite success. step. cbn [get]. rewrite analysed. step. step.
  erewrite bind_step by (apply structure_of_unparsable; exact Hparse).
  step. step. reflexivity.
Qed.

(** The structuring request fails: the first path throws. *)
Lemma via_app_py_fails e w1 :
  uploads w1 = uploads w ->
  Resume.via_app_py f (Replies (JObj fields)) (Fails e) w1
  = (Throw e, note Groq (note AppPy w1)).
Proof.
  intros U. unfold Resume.via_app_py.
  erewrite bind_step by (apply readFileSync_staged; rewrite U; exact staged).
  step. step. cbn [get]. rewrite success. step. cbn [get]. rewrite analysed. step.
  erewrite bind_fail by reflexivity. reflexivity.
Qed.

Lemma resume_reply (first : json) groq w2 :
  uploads w2 = uploads w -> truthy first = true ->
  exists w',
    (analysisResult <-
       (if negb true || negb (truthy_opt (Some first))
        then r <- Resume.groq_only f groq ;; ret (Some r)
        else ret (Some first)) ;;
     try_catch (unlinkSync (f_path f)) (fun cleanupError => ret tt) ;;;
     match analysisResult with
     | Some r => res_json r
     | None => throw TypeError
     end) w2
    = (Ret (Response 200 first), w').
Proof.
  intros U T. cbn [truthy_opt]. rewrite T. cbn [negb orb].
  step. destruct (unlink_in_try (f_path f) w2) as (w' & Hu & _).
  erewrite bind_step by exact Hu. eauto.
Qed.

Lemma structuring_unparsable completion groq :
  JSON_parse (extract_json_content (content_or completion (js "{}"))) = None ->
  exists w',
    Resume.analyze (Some f) (Replies 200) (Replies (JObj fields))
      (Replies completion) groq w
    = (Ret (Response 200 (unstructured_result f fields analysis)), w').
Proof.
  intros Hparse. unfold Resume.analyze.
  destruct (resume_reply (unstructured_result f fields analysis) groq
              (note Groq (note AppPy (note AppPy w))) eq_refl eq_refl) as (w' & H).
  exists w'. apply try_ok. step.
  erewrite bind_step
    by (apply try_ok; erewrite bind_step
          by (apply via_app_py_unparsable; [reflexivity | exact Hparse]);
        reflexivity).
  exact H.
Qed.

(** The structuring request fails: the answer is that of the second
    path. *)
Lemma structuring_fails e groq r w2 :
  Resume.groq_only f groq (note Groq (note AppPy (note AppPy w))) = (Ret r, w2) ->
  exists w',
    Resume.analyze (Some f) (Replies 200) (Replies (JObj fields)) (Fails e) groq w
    = (Ret (Response 200 r), w').
Proof.
  intros Hg. unfold Resume.analyze.
  destruct (unlink_in_try (f_path f) w2) as (w' & Hu & _).
  exists w'. apply try_ok. step. change (200 =? 200) with true. cbv iota.
  erewrite bind_step
    by (erewrite try_fail
          by (erewrite bind_fail by (apply via_app_py_fails; reflexivity);
              reflexivity);
        reflexivity).
  cbv iota beta. cbn [negb orb].
  erewrite bind_step by (erewrite bind_step by exact Hg; reflexivity).
  erewrite bind_step by exact Hu. reflexivity.
Qed.

Lemma groq_only_fails e w1 :
  uploads w1 = uploads w ->
  exists w2, Resume.groq_only f (Fails e) w1 = (Ret (Resume.upload_only f), w2).
Proof.
  intros U. unfold Resume.groq_only.
  destruct (Str.eqb _ _).
  - eexists. erewrite try_fail; [reflexivity|].
    erewrite bind_step by (apply readFileSync_staged; rewrite U; exact staged).
    erewrite bind_fail by reflexivity. reflexivity.
  - eexists. erewrite try_fail; [reflexivity|]. step.
    erewrite bind_fail by reflexivity. reflexivity.
Qed.

Lemma groq_only_unparsable completion w1 :
  uploads w1 = uploads w ->
  JSON_parse (extract_json_content (content_or completion (js "{}"))) = None ->
  exists w2,
    Resume.groq_only f (Replies completion) w1 = (Ret (Resume.basic_fallback f), w2).
Proof.
  intros U Hparse. unfold Resume.groq_only.
  destruct (Str.eqb _ _).
  - eexists. apply try_ok.
    erewrite bind_step by (apply readFileSync_staged; rewrite U; exact staged).
    step. erewrite try_fail; [reflexivity|].
    unfold parse. rewrite Hparse. reflexivity.
  - eexists. apply try_ok. step. step.
    erewrite try_fail; [reflexivity|].
    unfold parse. rewrite Hparse. reflexivity.
Qed.

Lemma groq_only_parsed completion g w1 :
  uploads w1 = uploads w ->
  JSON_parse (extract_json_content (content_or completion (js "{}"))) = Some g ->
  g <> JNull ->
  exists n w2,
    Resume.groq_only f (Replies completion) w1 = (Ret (groq_fallback_of g f n), w2).
Proof.
  intros U Hparse Hg. unfold Resume.groq_only.
  destruct (Str.eqb _ _).
  - eexists _, _. apply try_ok.
    erewrite bind_step by (apply readFileSync_staged; rewrite U; exact staged).
    step. apply try_ok. unfold parse. rewrite Hparse. step.
    rewrite groq_fallback_non_null by exact Hg. reflexivity.
  - eexists _, _. apply try_ok. step. step.
    apply try_ok. unfold parse. rewrite Hparse. step.
    rewrite groq_fallback_non_null by exact Hg. reflexivity.
Qed.
End ResumeTiers.

(** C6, as amended.  Take a resume whose file is staged and for which
    the analysis service has answered with [success] and an analysis
    text.  If the structuring answer cannot be parsed, the reply keeps
    the source [app.py], with place-holder lists.  If the structuring
    request itself fails, the reply is that of the second path: source
    [upload-only] when the second request fails too, [basic-fallback]
    when its answer cannot be parsed, [groq-fallback] when it parses to
    a value other than [null].  The status is 200 throughout; the source
    [error-fallback] does not occur. *)
Theorem resume_extract_failure f text fields analysis w :
  uploads w !! f_path f = Some text ->
  truthy_opt (assoc (js "success") fields) = true ->
  assoc (js "analysis") fields = Some (JStr analysis) ->
  (forall completion groq,
      unparsable completion ->
      exists w',
        Resume.analyze (Some f) (Replies 200) (Replies (JObj fields))
          (Replies completion) groq w
        = (Ret (Response 200 (unstructured_result f fields analysis)), w')
        /\ source_of (unstructured_result f fields analysis) = Some (jstr "app.py"))
  /\ (forall e e',
         exists w',
           Resume.analyze (Some f) (Replies 200) (Replies (JObj fields))
             (Fails e) (Fails e') w
           = (Ret (Response 200 (Resume.upload_only f)), w')
           /\ source_of (Resume.upload_only f) = Some (jstr "upload-only"))
  /\ (forall e completion,
         unparsable completion ->
         exists w',
           Resume.analyze (Some f) (Replies 200) (Replies (JObj fields))
             (Fails e) (Replies completion) w
           = (Ret (Response 200 (Resume.basic_fallback f)), w')
           /\ source_of (Resume.basic_fallback f) = Some (jstr "basic-fallback"))
  /\ (forall e completion g,
         JSON_parse (extract_json_content (content_or completion (js "{}"))) = Some g ->
         g <> JNull ->
         exists r w',
           Resume.analyze (Some f) (Replies 200) (Replies (JObj fields))
             (Fails e) (Replies completion) w
           = (Ret (Response 200 r), w')
           /\ source_of r = Some (jstr "groq-fallback")).
Proof.
  intros staged success analysed. split; [|split; [|split]].
  - intros completion groq Hparse.
    destruct (structuring_unparsable f text fields analysis w staged success analysed
                completion groq Hparse) as (w' & H).
    exists w'. split; [exact H | reflexivity].
  - intros e e'.
    destruct (groq_only_fails f text w staged e'
                (note Groq (note AppPy (note AppPy w))) eq_refl) as (w2 & Hg).
    destruct (structuring_fails f text fields analysis w staged success analysed
                e (Fails e') _ _ Hg) as (w' & H).
    exists w'. split; [exact H | reflexivity].
  - intros e completion Hparse.
    destruct (groq_only_unparsable f text w staged completion
                (note Groq (note AppPy (note AppPy w))) eq_refl Hparse) as (w2 & Hg).
    destruct (structuring_fails f text fields analysis w staged success analysed
                e (Replies completion) _ _ Hg) as (w' & H).
    exists w'. split; [exact H | reflexivity].
  - intros e completion g Hparse Hnull.
    destruct (groq_only_parsed f text w staged completion g
                (note Groq (note AppPy (note AppPy w))) eq_refl Hparse Hnull)
      as (n & w2 & Hg).
    destruct (structuring_fails f text fields analysis w staged success analysed
                e (Replies completion) _ _ Hg) as (w' & H).
    exists (groq_fallback_of g f n), w'. split; [exact H | reflexivity].
Qed.

Lemma resume_extract_failure_witness :
  exists w',
    Resume.analyze (Some a_resume) (Replies 200) (Replies (JObj analysis_reply))
      (Replies (Some prose)) (Fails timeout_error) staged_world
    = (Ret (Response 200
              (unstructured_result a_resume analysis_reply
                 (js "Experienced in Python and SQL."))), w')
    /\ source_of (unstructured_result a_resume analysis_reply
                    (js "Experienced in Python and SQL.")) = Some (jstr "app.py").
Proof.
  destruct (resume_extract_failure a_resume (js "resume text") analysis_reply
              (js "Experienced in Python and SQL.") staged_world)
    as (H & _); [vm_compute; reflexivity | reflexivity | reflexivity |].
  apply (H (Some prose) (Fails timeout_error)). vm_compute. reflexivity.
Defined.

(** C6 as stated fails: with the analysis service answering and the
    structuring answer in plain prose, the reply is tagged [app.py]. *)
Lemma unparsable_structure_keeps_primary_source :
  let res := Resume.analyze (Some a_resume) (Replies 200) (Replies (JObj analysis_reply))
               (Replies (Some prose)) (Fails timeout_error) staged_world in
  ~ (reply_source res = Some (jstr "basic-fallback")
     \/ reply_source res = Some (jstr "error-fallback")).
Proof.
  intros res [H | H]; vm_compute in H; discriminate.
Qed.

(** ** USNs *)

Lemma eqb_refl (k : jsstring) : Str.eqb k k = true.
Proof. unfold Str.eqb. apply bool_decide_eq_true. reflexivity. Qed.

Lemma eqb_eq (k k' : jsstring) : Str.eqb k k' = true -> k = k'.
Proof. unfold Str.eqb. apply bool_decide_eq_true. Qed.

Lemma eqb_neq (k k' : jsstring) : k <> k' -> Str.eqb k k' = false.
Proof. unfold Str.eqb. apply bool_decide_eq_false. Qed.

Lemma assoc_obj_set_same k v l : assoc k (obj_set k v l) = Some v.
Proof.
  induction l as [|[k' v'] l IH]; simpl.
  - rewrite eqb_refl. reflexivity.
  - destruct (Str.eqb k k') eqn:E; simpl; rewrite ?eqb_refl, ?E; auto.
Qed.

Lemma assoc_obj_set_other k k' v l : k <> k' -> assoc k (obj_set k' v l) = assoc k l.
Proof.
  intros Hne. induction l as [|[k0 v0] l IH]; simpl.
  - rewrite eqb_neq by assumption. reflexivity.
  - destruct (Str.eqb k' k0) eqn:E; simpl.
    + apply eqb_eq in E as <-. rewrite !eqb_neq by assumption. reflexivity.
    + destruct (Str.eqb k k0); auto.
Qed.

Lemma not_upper_stored d s w :
  In d (students w) -> get d (js "usn") = Some (JStr s) -> toUpperCase s <> s ->
  ~ upper_stored w.
Proof.
  intros Hin Hget Hne Hup. unfold upper_stored in Hup.
  rewrite List.Forall_forall in Hup. apply Hne, (Hup d Hin). exact Hget.
Qed.

Lemma find_app_none {A} (p : A -> bool) l1 l2 :
  List.find p l1 = None -> List.find p (l1 ++ l2) = List.find p l2.
Proof.
  induction l1 as [|x l1 IH]; simpl; [reflexivity|].
  destruct (p x); [discriminate | exact IH].
Qed.

Lemma assoc_absent k l : k ∉ List.map fst l -> assoc k l = None.
Proof.
  induction l as [|[k0 v0] l IH]; simpl; [reflexivity|].
  intros H. apply not_elem_of_cons in H as [Hne Hl].
  rewrite eqb_neq by assumption. apply IH. exact Hl.
Qed.

Lemma assoc_present k v l : assoc k l = Some v -> k ∈ List.map fst l.
Proof.
  induction l as [|[k0 v0] l IH]; simpl; [discriminate|].
  destruct (Str.eqb k k0) eqn:E.
  - apply eqb_eq in E as <-. intros _. left.
  - intros H. right. apply IH. exact H.
Qed.

Lemma assoc_filter (p : jsstring -> bool) k l :
  p k = true -> assoc k (List.filter (fun kv => p (fst kv)) l) = assoc k l.
Proof.
  intros Hk. induction l as [|[k0 v0] l IH]; [reflexivity|].
  cbn [List.filter fst]. destruct (p k0) eqn:E; cbn [assoc].
  - rewrite IH. reflexivity.
  - rewrite IH. rewrite eqb_neq; [reflexivity|]. intros ->. congruence.
Qed.

Lemma get_set_field_same k v d x :
  get d (js k) = Some x -> get (set_field k (Some v) d) (js k) = Some v.
Proof.
  destruct d; try discriminate. intros _. cbn [set_field get].
  apply assoc_obj_set_same.
Qed.

Lemma get_set_field_other k k' v d :
  k <> js k' -> get (set_field k' v d) k = get d k.
Proof.
  intros Hne. destruct d, v; try reflexivity. cbn [set_field get].
  apply assoc_obj_set_other. exact Hne.
Qed.

Lemma get_cast_path_other cast k k' d :
  k <> js k' -> get (cast_path cast k' d) k = get d k.
Proof.
  intros Hne. unfold cast_path. destruct (cast _); try reflexivity.
  apply get_set_field_other. exact Hne.
Qed.

(** A USN that is a string is kept as it is by [new Student(..)]. *)
Lemma new_Student_usn data id s :
  get data (js "usn") = Some (JStr s) ->
  get (Students.new_Student data id) (js "usn") = Some (JStr s).
Proof.
  intros H.
  assert (get (cast_student data) (js "usn") = Some (JStr s)) as Hc.
  { unfold cast_student.
    rewrite get_cast_path_other by discriminate.
    rewrite get_cast_path_other by discriminate.
    assert (get (cast_path castString "name" (cast_path castObjectId "_id" (strict data)))
              (js "usn") = Some (JStr s)) as H0.
    { rewrite !get_cast_path_other by discriminate.
      destruct data; try discriminate H. cbn [strict get] in *.
      rewrite (assoc_filter declared_path) by reflexivity. exact H. }
    unfold cast_path at 1. rewrite H0. cbn [castString].
    apply (get_set_field_same "usn" _ _ _ H0). }
  unfold Students.new_Student. destruct (get (cast_student data) (js "_id")); [exact Hc|].
  rewrite get_set_field_other by discriminate. exact Hc.
Qed.

Lemma normalize_usn_result body body' w w' :
  Students.normalize_usn body w = (Ret body', w') ->
  w' = w
  /\ (body' = body /\ truthy_opt (get body (js "usn")) = false
      \/ exists l s, body = JObj l /\ assoc (js "usn") l = Some (JStr s)
                     /\ body' = JObj (obj_set (js "usn") (JStr (toUpperCase s)) l)).
Proof.
  unfold Students.normalize_usn. intros H.
  apply bind_inv in H as (usn & w1 & H1 & H).
  apply member_inv in H1 as (-> & v' & [= <-] & Hnull & ->).
  destruct (truthy_opt (get body (js "usn"))) eqn:T.
  - destruct (get body (js "usn")) as [[]|] eqn:G; try discriminate H.
    injection H as <- <-. split; [reflexivity|]. right.
    destruct body as [| | | | |l]; try discriminate G.
    eexists _, _. repeat split. exact G.
  - injection H as <- <-. auto.
Qed.

(** The USN that [normalize_usn] leaves, when the body has a string. *)
Lemma normalize_usn_string body body' w w' s :
  Students.normalize_usn body w = (Ret body', w') ->
  get body (js "usn") = Some (JStr s) ->
  w' = w /\ get body' (js "usn") = Some (JStr (toUpperCase s)).
Proof.
  intros H Hs. apply normalize_usn_result in H as (-> & [[-> T] | (l & s0 & -> & A & ->)]).
  - split; [reflexivity|]. rewrite Hs in T. destruct s; [exact Hs | discriminate T].
  - split; [reflexivity|]. cbn [get] in *. rewrite A in Hs. injection Hs as ->.
    apply assoc_obj_set_same.
Qed.

Lemma findOne_usn_inv s found w w' :
  findOne_usn (Some (JStr s)) w = (Ret found, w') ->
  mongo_up w = true /\ w' = note Mongo w
  /\ found = List.find (has_usn s) (students w).
Proof.
  unfold findOne_usn, query. destruct (mongo_up w); [|discriminate].
  intros [= <- <-]. auto.
Qed.

Lemma insert_inv d w w' :
  Students.insert d w = (Ret tt, w') ->
  mongo_up w = true /\ w' = with_students (students w ++ [d]) w.
Proof.
  unfold Students.insert.
  destruct (validate d ++ _); [|discriminate].
  destruct (castObjectId _); try discriminate.
  destruct (mongo_up w); [|discriminate]. cbn [negb].
  destruct (_ || _); [discriminate|]. intros [= <-]. auto.
Qed.

(** A student created from a body whose USN is a string is stored
    under the upper-case spelling of that USN, and the lookup by USN
    then answers with the stored record for every spelling of it. *)
Lemma created_is_found body id w d w' s :
  Students.create body id w = (Ret (Response 201 d), w') ->
  get body (js "usn") = Some (JStr s) ->
  get d (js "usn") = Some (JStr (toUpperCase s))
  /\ In d (students w')
  /\ forall u, toUpperCase u = toUpperCase s ->
       Students.get_by_usn u w' = (Ret (Response 200 d), note Mongo w').
Proof.
  intros H Hs. unfold Students.create in H. unfold try_catch at 1 in H.
  destruct (bind _ _ w) as [[r|e] w1] eqn:E.
  2:{ exfalso. destruct (_ =? _); [discriminate H|].
      destruct (Str.eqb _ _); discriminate H. }
  injection H as -> ->.
  apply bind_inv in E as (body' & w2 & E1 & E).
  apply (normalize_usn_string _ _ _ _ s) in E1 as (-> & Hb); [|exact Hs].
  apply bind_inv in E as (usn & w3 & E2 & E).
  apply member_inv in E2 as (-> & b & [= <-] & _ & ->).
  rewrite Hb in E.
  apply bind_inv in E as (existing & w4 & E3 & E).
  apply findOne_usn_inv in E3 as (Hup & -> & ->).
  destruct (List.find _ (students w)) as [x|] eqn:Hfind; [discriminate E|].
  apply bind_inv in E as ([] & w5 & E4 & E).
  injection E as <- <-.
  apply insert_inv in E4 as (_ & ->).
  pose proof (new_Student_usn _ id _ Hb) as Hd.
  split; [exact Hd|]. split.
  { cbn [students with_students note]. apply in_or_app. right. left. reflexivity. }
  intros u Hu. unfold Students.get_by_usn, try_catch, bind, findOne_usn, query.
  cbn [mongo_up with_students note students]. rewrite Hup, Hu.
  rewrite (find_app_none _ _ _ Hfind). cbn [List.find].
  unfold has_usn at 1. rewrite Hd, eqb_refl. reflexivity.
Qed.

(** The duplicate check of a creation looks for the upper-case spelling
    of the USN given: when a record has it, the creation is refused
    with 400 and nothing is written. *)
Lemma create_refuses_known_usn fields id s x w :
  assoc (js "usn") fields = Some (JStr s) ->
  mongo_up w = true ->
  List.find (has_usn (toUpperCase s)) (students w) = Some x ->
  Students.create (JObj fields) id w
  = (Ret (Response 400 (obj ["error" ~> jstr "Student with this USN already exists"])),
     note Mongo w).
Proof.
  intros Hs Hup Hfind.
  assert (exists body', Students.normalize_usn (JObj fields) w = (Ret body', w)
                        /\ get body' (js "usn") = Some (JStr (toUpperCase s))) as (body' & E & Hb).
  { unfold Students.normalize_usn. rewrite member_object, bind_ret, Hs.
    destruct s as [|c s]; cbn [truthy_opt truthy].
    - eexists. split; [reflexivity | exact Hs].
    - eexists. split; [reflexivity|]. cbn [set_field get]. apply assoc_obj_set_same. }
  unfold Students.create. erewrite try_ok; [reflexivity|].
  erewrite bind_step by exact E.
  assert (body' <> JNull) as Hn by (intros ->; discriminate Hb).
  rewrite (member_non_null _ _ Hn), bind_ret, Hb.
  unfold bind at 1, findOne_usn, query. rewrite Hup, Hfind. reflexivity.
Qed.

(** An update under an [id] that is neither 24 hexadecimal digits nor
    12 characters long is answered 400 'Invalid student ID format'
    before the collection is reached, whatever else the body holds,
    provided that its USN, when truthy, is a string. *)
Theorem update_refuses_malformed_id id fields w :
  is_object_id id = false -> len id <> 12 ->
  (forall v, assoc (js "usn") fields = Some v -> truthy v = true -> exists s, v = JStr s) ->
  Students.update id (JObj fields) w
  = (Ret (Response 400 (obj ["error" ~> jstr "Invalid student ID format"])), w).
Proof.
  intros Hid _ Husn.
  assert (exists body', Students.normalize_usn (JObj fields) w = (Ret body', w)) as (body' & E).
  { unfold Students.normalize_usn. rewrite member_object, bind_ret.
    destruct (assoc (js "usn") fields) as [v|] eqn:A; cbn [truthy_opt]; [|eauto].
    destruct (truthy v) eqn:T; [|eauto].
    destruct (Husn v eq_refl T) as (s & ->). eauto. }
  unfold Students.update. rewrite (try_fail _ _ w CastError w); [reflexivity|].
  erewrite bind_step by exact E.
  apply bind_fail. unfold Students.findByIdAndUpdate.
  cbn [castObjectId get ToString]. rewrite Hid. reflexivity.
Qed.

Lemma update_refuses_malformed_id_witness :
  Students.update (js "42") (obj ["semester" ~> jnum 6]) campus
  = (Ret (Response 400 (obj ["error" ~> jstr "Invalid student ID format"])), campus).
Proof.
  apply update_refuses_malformed_id; [vm_compute; reflexivity | discriminate |].
  intros v H. vm_compute in H. discriminate H.
Defined.

(** *** What an update leaves on record *)

Lemma assoc_app k l1 l2 :
  assoc k (l1 ++ l2) = match assoc k l1 with Some v => Some v | None => assoc k l2 end.
Proof.
  induction l1 as [|[k0 v0] l1 IH]; [reflexivity|].
  cbn [app assoc]. destruct (Str.eqb k k0); [reflexivity | exact IH].
Qed.

Lemma assoc_rev k l : NoDup (List.map fst l) -> assoc k (rev l) = assoc k l.
Proof.
  induction l as [|[k0 v0] l IH]; [reflexivity|].
  cbn [List.map fst rev]. intros Hnd. apply NoDup_cons in Hnd as [Hnot Hnd].
  rewrite assoc_app, IH by assumption. cbn [assoc].
  destruct (assoc k l) as [v|] eqn:A; [|destruct (Str.eqb k k0); reflexivity].
  rewrite eqb_neq; [reflexivity|]. intros ->. apply Hnot.
  apply (assoc_present _ _ _ A).
Qed.

Lemma assoc_fold_assign k l : forall acc,
  assoc k (fold_left Students.assign l acc)
  = match assoc k (rev l) with Some v => Some v | None => assoc k acc end.
Proof.
  induction l as [|[k0 v0] l IH]; intros acc; [reflexivity|].
  cbn [fold_left rev]. rewrite IH, assoc_app.
  destruct (assoc k (rev l)); [reflexivity|].
  unfold Students.assign. cbn [fst snd assoc].
  destruct (Str.eqb k k0) eqn:E.
  - apply eqb_eq in E as <-. apply assoc_obj_set_same.
  - apply assoc_obj_set_other. intros ->. rewrite eqb_refl in E. discriminate.
Qed.

Lemma obj_set_key x k v l :
  x ∈ List.map fst (obj_set k v l) -> x = k \/ x ∈ List.map fst l.
Proof.
  induction l as [|[k0 v0] l IH]; cbn [obj_set List.map fst].
  - intros H. apply list_elem_of_singleton in H. auto.
  - destruct (Str.eqb k k0) eqn:E; cbn [List.map fst]; intros H.
    + apply eqb_eq in E as <-. right. exact H.
    + apply elem_of_cons in H as [->|H]; [right; left|].
      destruct (IH H) as [->|H']; [auto | right; right; exact H'].
Qed.

Lemma obj_set_distinct k v l :
  NoDup (List.map fst l) -> NoDup (List.map fst (obj_set k v l)).
Proof.
  induction l as [|[k0 v0] l IH]; cbn [obj_set List.map fst]; intros Hnd.
  - apply NoDup_singleton.
  - apply NoDup_cons in Hnd as [Hnot Hnd].
    destruct (Str.eqb k k0) eqn:E; cbn [List.map fst].
    + apply eqb_eq in E as <-. apply NoDup_cons. auto.
    + apply NoDup_cons. split; [|apply IH; exact Hnd].
      intros H. apply obj_set_key in H as [->|H]; [|auto].
      rewrite eqb_refl in E. discriminate.
Qed.

Lemma fold_assign_distinct l : forall acc,
  NoDup (List.map fst acc) -> NoDup (List.map fst (fold_left Students.assign l acc)).
Proof.
  induction l as [|kv l IH]; intros acc Hnd; [exact Hnd|].
  cbn [fold_left]. apply IH. apply obj_set_distinct. exact Hnd.
Qed.

Lemma cast_update_keys given : forall fields,
  Students.cast_update given = Some fields ->
  forall x, x ∈ List.map fst fields -> x ∈ List.map fst given.
Proof.
  induction given as [|[k v] given IH]; intros fields H x Hx.
  - injection H as <-. exact Hx.
  - cbn [Students.cast_update] in H. cbn [List.map fst].
    destruct (negb (declared_path k)); [right; eapply IH; eassumption|].
    destruct (match caster k with Some _ => _ | None => _ end) as [y|]; [|discriminate].
    destruct (Students.cast_update given) as [rest|]; [|discriminate].
    injection H as <-. cbn [List.map fst] in Hx.
    apply elem_of_cons in Hx as [->|Hx]; [left | right; eapply IH; eauto].
Qed.

Lemma cast_update_distinct given : forall fields,
  Students.cast_update given = Some fields ->
  NoDup (List.map fst given) -> NoDup (List.map fst fields).
Proof.
  induction given as [|[k v] given IH]; intros fields H Hnd.
  - injection H as <-. exact Hnd.
  - cbn [List.map fst] in Hnd. apply NoDup_cons in Hnd as [Hnot Hnd].
    cbn [Students.cast_update] in H.
    destruct (negb (declared_path k)); [apply IH; assumption|].
    destruct (match caster k with Some _ => _ | None => _ end) as [y|]; [|discriminate].
    destruct (Students.cast_update given) as [rest|] eqn:R; [|discriminate].
    injection H as <-. cbn [List.map fst]. apply NoDup_cons. split; [|apply IH; auto].
    intros Hin. apply Hnot. eapply cast_update_keys; eauto.
Qed.

(** A USN that is a string goes through the casting as it is. *)
Lemma cast_update_usn given : forall fields s,
  Students.cast_update given = Some fields ->
  assoc (js "usn") given = Some (JStr s) ->
  assoc (js "usn") fields = Some (JStr s).
Proof.
  induction given as [|[k v] given IH]; intros fields s H A; [discriminate A|].
  cbn [Students.cast_update] in H. cbn [assoc] in A.
  destruct (Str.eqb (js "usn") k) eqn:E.
  - apply eqb_eq in E as <-. injection A as ->.
    change (negb (declared_path (js "usn"))) with false in H.
    change (caster (js "usn")) with (Some castString) in H.
    cbn [castString] in H. cbv iota in H.
    destruct (Students.cast_update given); [|discriminate].
    injection H as <-. cbn [assoc]. rewrite eqb_refl. reflexivity.
  - destruct (negb (declared_path k)); [eapply IH; eassumption|].
    destruct (match caster k with Some _ => _ | None => _ end) as [y|]; [|discriminate].
    destruct (Students.cast_update given) as [rest|] eqn:R; [|discriminate].
    injection H as <-. cbn [assoc]. rewrite E. eapply IH; eauto.
Qed.

Lemma assoc_apply_update k fields : forall l,
  NoDup (List.map fst fields) -> k <> js "_id" ->
  assoc k (fold_left
             (fun acc kv =>
                if Str.eqb (fst kv) (js "_id") then acc
                else obj_set (fst kv) (snd kv) acc)
             fields l)
  = match assoc k fields with
    | Some v => Some v
    | None => assoc k l
    end.
Proof.
  induction fields as [|[k0 v0] fields IH]; intros l Hnd Hk; [reflexivity|].
  inversion Hnd as [|? ? Hnotin Hnd']; subst.
  cbn [fold_left fst snd assoc]. rewrite IH by assumption.
  destruct (Str.eqb k k0) eqn:E.
  - apply eqb_eq in E as <-. rewrite assoc_absent by assumption.
    rewrite eqb_neq by assumption. apply assoc_obj_set_same.
  - destruct (assoc k fields); [reflexivity|].
    destruct (Str.eqb k0 (js "_id")); [reflexivity|].
    apply assoc_obj_set_other. intros ->. rewrite eqb_refl in E. discriminate.
Qed.

Lemma In_replace_or_add d l : In d (replace_or_add d l).
Proof.
  induction l as [|d' l IH]; cbn [replace_or_add]; [left; reflexivity|].
  destruct (same_id d d'); [left; reflexivity | right; exact IH].
Qed.

Lemma set_of_usn l given s :
  NoDup (List.map fst l) ->
  assoc (js "usn") l = Some (JStr s) ->
  Students.set_of (JObj l) = Ret given ->
  NoDup (List.map fst given) /\ assoc (js "usn") given = Some (JStr s).
Proof.
  intros Hnd A H.
  set (plain := List.filter (fun kv => negb (Students.is_operator (fst kv))) l).
  assert (forall g,
             NoDup (List.map fst (fold_left Students.assign (g ++ plain) []))
             /\ assoc (js "usn") (fold_left Students.assign (g ++ plain) [])
                = Some (JStr s)) as Hover.
  { intros g. split; [apply fold_assign_distinct; constructor|]. subst plain.
    rewrite assoc_fold_assign, rev_app_distr, assoc_app, assoc_rev.
    - rewrite (assoc_filter (fun k => negb (Students.is_operator k))) by reflexivity.
      rewrite A. reflexivity.
    - clear -Hnd. induction l as [|[k v] l IH]; [constructor|].
      cbn [List.map fst] in Hnd. apply NoDup_cons in Hnd as [Hnot Hnd].
      cbn [List.filter fst]. destruct (negb _); [|auto].
      cbn [List.map fst]. apply NoDup_cons. split; [|auto].
      intros Hin. apply Hnot. clear -Hin.
      induction l as [|[k0 v0] l IH]; [exact Hin|].
      cbn [List.filter fst] in Hin. cbn [List.map fst].
      destruct (negb _); [|right; auto].
      cbn [List.map fst] in Hin. apply elem_of_cons in Hin as [->|Hin]; [left | right; auto]. }
  unfold Students.set_of in H. fold plain in H.
  destruct (assoc (js "$set") l) as [[| | | | |]|];
    repeat match type of H with
           | context [match ?x with _ => _ end] => destruct x
           end;
    try discriminate H; injection H as <-; first [apply Hover | exact (Hover [])].
Qed.

Lemma update_inv id body d w w' :
  Students.update id body w = (Ret (Response 200 d), w') ->
  exists body', Students.normalize_usn body w = (Ret body', w)
                /\ Students.findByIdAndUpdate id body' w = (Ret (Some d), w').
Proof.
  unfold Students.update. unfold try_catch at 1.
  destruct (bind _ _ w) as [[r|e] w1] eqn:E.
  2:{ intros H. exfalso. destruct (Str.eqb _ _); [discriminate H|].
      destruct (Str.eqb _ _); discriminate H. }
  intros [= -> ->].
  apply bind_inv in E as (body' & w2 & E1 & E).
  pose proof (normalize_usn_result _ _ _ _ E1) as [-> _].
  exists body'. split; [exact E1|].
  apply bind_inv in E as ([d'|] & w3 & E2 & E); [|discriminate E].
  injection E as <- <-. exact E2.
Qed.

Lemma findByIdAndUpdate_inv id update d w w' :
  Students.findByIdAndUpdate id update w = (Ret (Some d), w') ->
  exists id' given fields d0,
    Students.set_of update = Ret given
    /\ Students.cast_update given = Some fields
    /\ List.find (has_id id') (students w) = Some d0
    /\ d = Students.apply_update fields d0
    /\ w' = with_students (replace_or_add d (students w)) w.
Proof.
  unfold Students.findByIdAndUpdate.
  destruct (castObjectId _) as [|[| | |id'| |]|]; try discriminate;
    destruct (Students.set_of update) as [given|]; try discriminate.
  destruct (Students.cast_update given) as [fields|] eqn:C; [|discriminate].
  destruct (Students.validate_update fields); [|discriminate].
  destruct (negb (mongo_up w)); [discriminate|].
  destruct (List.find _ _) as [d0|] eqn:F; [|discriminate].
  destruct (Students.changes_id _ _); [discriminate|].
  destruct (usn_taken _ _); [discriminate|].
  intros [= <- <-]. eexists _, _, _, _. repeat split; eauto.
Qed.

Lemma normalize_usn_keys body body' w w' :
  Students.normalize_usn body w = (Ret body', w') -> keys body' = keys body.
Proof.
  intros H. apply normalize_usn_result in H as (_ & [[-> _] | (l & s & -> & A & ->)]).
  - reflexivity.
  - cbn [keys]. clear -A. revert A.
    induction l as [|[k0 v0] l IH]; simpl; [discriminate|].
    destruct (Str.eqb (js "usn") k0) eqn:E; simpl.
    + apply eqb_eq in E as <-. reflexivity.
    + intros H. rewrite IH by assumption. reflexivity.
Qed.

(** An update that is answered 200 and whose body gives a string as
    USN at top level leaves the record under the upper-case spelling of
    that USN, whatever the body holds under [$set]. *)
Lemma update_stores_upper_case id body s d w w' :
  NoDup (keys body) ->
  get body (js "usn") = Some (JStr s) ->
  Students.update id body w = (Ret (Response 200 d), w') ->
  get d (js "usn") = Some (JStr (toUpperCase s)) /\ In d (students w').
Proof.
  intros Hnd Hs H.
  apply update_inv in H as (body' & E & H).
  pose proof (normalize_usn_keys _ _ _ _ E) as Hk.
  apply (normalize_usn_string _ _ _ _ s) in E as (_ & Hb); [|exact Hs].
  apply findByIdAndUpdate_inv in H as (id' & given & fields & d0 & S & C & F & -> & ->).
  destruct body' as [| | | | |l']; try discriminate Hb.
  cbn [get] in Hb. rewrite <- Hk in Hnd. cbn [keys] in Hnd.
  destruct (set_of_usn _ _ _ Hnd Hb S) as [Hg Ag].
  pose proof (cast_update_distinct _ _ C Hg) as Hf.
  pose proof (cast_update_usn _ _ _ C Ag) as Af.
  split; [|apply In_replace_or_add].
  apply List.find_some in F as [_ F]. unfold has_id in F.
  destruct d0 as [| | | | |l0]; try discriminate F.
  cbn [Students.apply_update get].
  rewrite assoc_apply_update by (assumption || discriminate).
  rewrite Af. reflexivity.
Qed.

(** The lookup by USN answers with the first record under the
    upper-case spelling of its argument. *)
Lemma get_by_usn_queries_upper_case u w :
  mongo_up w = true ->
  Students.get_by_usn u w
  = (Ret (match List.find (has_usn (toUpperCase u)) (students w) with
          | Some d => Response 200 d
          | None => Response 404 (obj ["error" ~> jstr "Student not found"])
          end),
     note Mongo w).
Proof.
  intros Hup. unfold Students.get_by_usn, try_catch, bind, findOne_usn, query.
  rewrite Hup. destruct (List.find _ _); reflexivity.
Qed.

(** The analysis by USN answers 404, without a request to the
    completion service, when no record is under the upper-case
    spelling of its argument, and goes on to the analysis otherwise. *)
Lemma analyze_queries_upper_case u groq w :
  mongo_up w = true ->
  match List.find (has_usn (toUpperCase u)) (students w) with
  | None =>
      Profile.analyze u groq w
      = (Ret (Response 404 (obj ["error" ~> jstr "Student not found"])), note Mongo w)
  | Some _ =>
      exists r w', Profile.analyze u groq w = (Ret r, w')
                   /\ (status r = 200 \/ status r = 500)
  end.
Proof.
  intros Hup. unfold Profile.analyze.
  destruct (List.find _ _) as [d|] eqn:F.
  - unfold try_catch at 1. unfold bind at 1, findOne_usn, query. rewrite Hup, F.
    unfold bind at 1. destruct (request Groq groq (note Mongo w)) as [[completion|e] w1].
    + unfold try_catch.
      destruct (bind _ _ w1) as [[r|e] w2] eqn:E.
      * apply bind_inv in E as (a & w3 & _ & E).
        apply bind_inv in E as (c & w4 & _ & E).
        apply bind_inv in E as ([] & w5 & _ & E).
        injection E as <- <-. eexists _, _. split; [reflexivity|]. left. reflexivity.
      * eexists _, _. split; [reflexivity|]. right. reflexivity.
    + eexists _, _. split; [reflexivity|]. right. reflexivity.
  - unfold try_catch, bind, findOne_usn, query. rewrite Hup, F. reflexivity.
Qed.

(** C10, as amended.  A creation that is answered 201, from a body
    whose [usn] is a string, stores the record under the upper-case
    spelling of that string, and the lookup by USN then finds the
    record under every spelling with the same upper case.  An update
    that is answered 200, from a body with distinct keys whose [usn] at
    top level is a string, leaves the record under the upper-case
    spelling of that string.  When the collection answers, every
    lookup keyed by a USN queries the upper-case spelling of its
    argument: the lookup by USN answers with
    the record stored under it, or 404; the analysis by USN answers 404
    exactly when there is none; and a creation is refused with 400 when
    a record is stored under the upper-case spelling of its [usn]. *)
Theorem string_usn_is_matched_in_any_case :
  (forall body id w d w' s,
      Students.create body id w = (Ret (Response 201 d), w') ->
      get body (js "usn") = Some (JStr s) ->
      get d (js "usn") = Some (JStr (toUpperCase s))
      /\ In d (students w')
      /\ forall u, toUpperCase u = toUpperCase s ->
           Students.get_by_usn u w' = (Ret (Response 200 d), note Mongo w'))
  /\ (forall id body w d w' s,
         NoDup (keys body) ->
         get body (js "usn") = Some (JStr s) ->
         Students.update id body w = (Ret (Response 200 d), w') ->
         get d (js "usn") = Some (JStr (toUpperCase s)) /\ In d (students w'))
  /\ (forall u w,
         mongo_up w = true ->
         Students.get_by_usn u w
         = (Ret (match List.find (has_usn (toUpperCase u)) (students w) with
                 | Some d => Response 200 d
                 | None => Response 404 (obj ["error" ~> jstr "Student not found"])
                 end),
            note Mongo w))
  /\ (forall u groq w,
         mongo_up w = true ->
         match List.find (has_usn (toUpperCase u)) (students w) with
         | None =>
             Profile.analyze u groq w
             = (Ret (Response 404 (obj ["error" ~> jstr "Student not found"])),
                note Mongo w)
         | Some _ =>
             exists r w', Profile.analyze u groq w = (Ret r, w')
                          /\ (status r = 200 \/ status r = 500)
         end)
  /\ (forall fields id s x w,
         assoc (js "usn") fields = Some (JStr s) ->
         mongo_up w = true ->
         List.find (has_usn (toUpperCase s)) (students w) = Some x ->
         Students.create (JObj fields) id w
         = (Ret (Response 400
                   (obj ["error" ~> jstr "Student with this USN already exists"])),
            note Mongo w)).
Proof.
  split; [|split; [|split; [|split]]].
  - intros body id w d w' s. apply created_is_found.
  - intros id body w d w' s. apply update_stores_upper_case.
  - apply get_by_usn_queries_upper_case.
  - apply analyze_queries_upper_case.
  - intros fields id s x w. apply create_refuses_known_usn.
Qed.

Lemma string_usn_is_matched_in_any_case_witness :
  let w' := with_students [enrolled] (note Mongo idle_world) in
  Students.create a_student an_id idle_world = (Ret (Response 201 enrolled), w')
  /\ get enrolled (js "usn") = Some (JStr (toUpperCase (js "1ms21cs001")))
  /\ Students.get_by_usn (js "1Ms21Cs001") w' = (Ret (Response 200 enrolled), note Mongo w')
  /\ (exists r w'', Profile.analyze (js "1Ms21Cs001") (Fails timeout_error) w' = (Ret r, w'')
                    /\ (status r = 200 \/ status r = 500))
  /\ Students.create a_student an_id w'
     = (Ret (Response 400 (obj ["error" ~> jstr "Student with this USN already exists"])),
        note Mongo w')
  /\ get (moved_to "1MS21CS002") (js "usn") = Some (JStr (toUpperCase (js "1ms21cs002")))
  /\ In (moved_to "1MS21CS002") (students (with_students [moved_to "1MS21CS002"] campus)).
Proof.
  cbv zeta.
  destruct string_usn_is_matched_in_any_case as (Hcreate & Hupdate & _ & Hanalyze & Hdup).
  assert (Students.create a_student an_id idle_world
          = (Ret (Response 201 enrolled),
             with_students [enrolled] (note Mongo idle_world))) as E
    by (vm_compute; reflexivity).
  destruct (Hcreate a_student an_id idle_world enrolled _ (js "1ms21cs001") E eq_refl)
    as (H1 & _ & H3).
  split; [exact E|]. split; [exact H1|].
  split; [apply H3; vm_compute; reflexivity|].
  split.
  { pose proof (Hanalyze (js "1Ms21Cs001") (Fails timeout_error)
                  (with_students [enrolled] (note Mongo idle_world)) eq_refl) as H.
    assert (List.find (has_usn (toUpperCase (js "1Ms21Cs001")))
              (students (with_students [enrolled] (note Mongo idle_world)))
            = Some enrolled) as F by (vm_compute; reflexivity).
    rewrite F in H. exact H. }
  split.
  { apply (Hdup _ an_id (js "1ms21cs001") enrolled); vm_compute; reflexivity. }
  refine (Hupdate an_id (obj ["usn" ~> jstr "1ms21cs002"]) campus _ _ (js "1ms21cs002") _ _ _).
  - apply NoDup_singleton.
  - reflexivity.
  - vm_compute. reflexivity.
Defined.

(** C10 as stated fails on an update that gives the USN under [$set].
    The record [enrolled] is the only one of the collection.  A PUT
    whose body gives a USN at top level stores it in upper case.  A
    PUT whose body gives the same USN under [$set] is answered 200 as
    well, and stores the USN as it is written, small letters included:
    the USNs on record are no longer all upper case, and the lookup by
    USN and the analysis by USN, which query the upper-case spelling,
    answer 404 for the USN of that record, however it is spelled. *)
Lemma set_operator_stores_usn_as_written :
  let at_top_level := obj ["usn" ~> jstr "1ms21cs002"] in
  let under_set := obj ["$set" ~> obj ["usn" ~> jstr "1ms21cs002"]] in
  let not_found := Response 404 (obj ["error" ~> jstr "Student not found"]) in
  Students.update an_id at_top_level campus
  = (Ret (Response 200 (moved_to "1MS21CS002")),
     with_students [moved_to "1MS21CS002"] campus)
  /\ Students.update an_id under_set campus
     = (Ret (Response 200 (moved_to "1ms21cs002")),
        with_students [moved_to "1ms21cs002"] campus)
  /\ ~ upper_stored (with_students [moved_to "1ms21cs002"] campus)
  /\ Forall
       (fun spelling =>
          let w := with_students [moved_to "1ms21cs002"] campus in
          Students.get_by_usn (js spelling) w = (Ret not_found, note Mongo w)
          /\ forall groq,
               Profile.analyze (js spelling) groq w = (Ret not_found, note Mongo w))
       ["1ms21cs002"; "1MS21CS002"; "1Ms21Cs002"]%string.
Proof.
  cbv zeta. split; [vm_compute; reflexivity|].
  split; [vm_compute; reflexivity|].
  split.
  - apply (not_upper_stored (moved_to "1ms21cs002") (js "1ms21cs002")).
    + left. reflexivity.
    + vm_compute. reflexivity.
    + vm_compute. discriminate.
  - repeat constructor; try (intros groq); vm_compute; reflexivity.
Qed.

(** The guard lets the value [false] through, and the schema stores
    it as the text [false], on creation and on update alike. *)
Example false_usn_is_stored_as_text :
  let body := obj [ "name" ~> jstr "Asha Rao"; "usn" ~> JBool false;
                    "email" ~> jstr "asha@example.edu"; "semester" ~> jnum 5 ] in
  Students.create body an_id idle_world
  = (Ret (Response 201 (moved_to "false")),
     with_students [moved_to "false"] (note Mongo idle_world))
  /\ Students.update an_id (obj ["usn" ~> JBool false]) campus
     = (Ret (Response 200 (moved_to "false")), with_students [moved_to "false"] campus).
Proof. split; vm_compute; reflexivity. Qed.

(** ** Normalisation *)

Lemma normalized_fields parsed now formatted k dflt :
  In (k, dflt) soft_skills_defaults ->
  get (normalized parsed now formatted) k = Some (or_default (get parsed k) dflt).
Proof.
  intros H. simpl in H.
  repeat (destruct H as [[= <- <-] | H]; [reflexivity|]).
  destruct H.
Qed.

(** C2, as amended.  On every parsed value other than [null] the
    soft-skills normalisation returns an object with exactly the ten
    declared fields; each of the eight fields that come from the model
    holds the parsed value when that value is truthy, of whatever type,
    and the literal default of the handler otherwise; the default of
    [skillBreakdown] is the empty object.  On [null] the normalisation
    throws.  Because the handler runs it inside a [try], the analysis
    object of the handler always has the ten fields; and in the static
    payload of the [catch] all eight skills have a numeric score and a
    feedback text. *)
Theorem soft_skills_normalization now formatted w :
  (forall parsed,
      parsed <> JNull ->
      exists d,
        SoftSkills.normalize parsed now formatted w = (Ret d, w)
        /\ keys d = soft_skills_fields
        /\ forall k dflt,
             In (k, dflt) soft_skills_defaults ->
             get d k = Some (or_default (get parsed k) dflt))
  /\ SoftSkills.normalize JNull now formatted w = (Throw TypeError, w)
  /\ (forall content,
         exists d,
           SoftSkills.analysis_of content now formatted w = (Ret d, w)
           /\ keys d = soft_skills_fields)
  /\ (forall skill,
         In skill skill_names ->
         exists score,
           get_opt (get (SoftSkills.parse_failure_payload now formatted)
                      (js "skillBreakdown")) skill
           = Some (SoftSkills.skill score)).
Proof.
  split; [|split; [|split]].
  - intros parsed Hnull. exists (normalized parsed now formatted).
    rewrite normalize_non_null by assumption.
    split; [reflexivity|]. split; [reflexivity|].
    intros k dflt. apply normalized_fields.
  - reflexivity.
  - intros content. eexists. split; [apply analysis_of_returns|].
    apply analysis_data_keys.
  - intros skill H. simpl in H.
    repeat (destruct H as [<- | H]; [eexists; reflexivity|]).
    destruct H.
Qed.

Lemma soft_skills_normalization_witness :
  exists d,
    SoftSkills.normalize sample_assessment a_date (JArr []) idle_world
    = (Ret d, idle_world)
    /\ keys d = soft_skills_fields
    /\ get d (js "overallSoftSkillsScore") = Some (jnum 85)
    /\ get d (js "skillBreakdown") = Some (obj []).
Proof.
  destruct (soft_skills_normalization a_date (JArr []) idle_world) as (H & _).
  destruct (H sample_assessment ltac:(discriminate)) as (d & E & K & F).
  exists d. split; [exact E|]. split; [exact K|]. split.
  - apply (F (js "overallSoftSkillsScore") (jnum 50)). left. reflexivity.
  - apply (F (js "skillBreakdown") (obj [])). right. left. reflexivity.
Defined.

(** C2 as stated fails: from a parsed object without [skillBreakdown]
    the normalisation returns an empty breakdown, so none of the eight
    entries is there. *)
Lemma empty_object_leaves_breakdown_empty :
  let res := SoftSkills.normalize (obj []) a_date (JArr []) idle_world in
  ~ (exists d,
        fst res = Ret d
        /\ forall skill, In skill skill_names ->
             is_Some (get_opt (get d (js "skillBreakdown")) skill)).
Proof.
  intros res (d & E & H). vm_compute in E. injection E as <-.
  destruct (H (js "communication")) as [x Hx]; [left; reflexivity|].
  vm_compute in Hx. discriminate.
Qed.

(** Nor is a field of the wrong type replaced: a string given for
    [strengths] is kept. *)
Example wrong_type_is_kept :
  exists d,
    fst (SoftSkills.normalize (obj ["strengths" ~> jstr "curious"]) a_date (JArr [])
           idle_world) = Ret d
    /\ get d (js "strengths") = Some (jstr "curious").
Proof. eexists. split; reflexivity. Qed.








(** At the soft-skills handler a parsed [overallSoftSkillsScore] of 0
    comes out as 50. *)
Example zero_score_becomes_default :
  exists d,
    fst (SoftSkills.normalize (obj ["overallSoftSkillsScore" ~> jnum 0]) a_date
           (JArr []) idle_world) = Ret d
    /\ get d (js "overallSoftSkillsScore") = Some (jnum 50).
Proof. eexists. split; reflexivity. Qed.

(** ** Substrings and pieces *)

Lemma starts_with_app p r : starts_with p (p ++ r) = Some r.
Proof.
  induction p as [|c p IH]; [reflexivity|].
  cbn [starts_with app]. rewrite N.eqb_refl. exact IH.
Qed.

Lemma starts_with_inv p : forall s r, starts_with p s = Some r -> s = p ++ r.
Proof.
  induction p as [|c p IH]; intros s r H.
  - cbn in H. injection H as ->. reflexivity.
  - destruct s as [|d s]; [discriminate|].
    cbn [starts_with] in H. destruct (N.eqb_spec c d) as [->|]; [|discriminate].
    cbn [app]. f_equal. apply IH. exact H.
Qed.

Lemma cut_at_inv sep : forall s a b, cut_at sep s = Some (a, b) -> s = a ++ sep ++ b.
Proof.
  induction s as [|c s IH]; intros a b H.
  - cbn [cut_at] in H. destruct (starts_with sep []) eqn:E; [|discriminate].
    injection H as <- <-. apply starts_with_inv in E. exact E.
  - cbn [cut_at] in H. destruct (starts_with sep (c :: s)) eqn:E.
    + injection H as <- <-. apply starts_with_inv in E. exact E.
    + destruct (cut_at sep s) as [[a' b']|] eqn:E'; [|discriminate].
      injection H as <- <-. cbn [app]. f_equal. apply IH. reflexivity.
Qed.

Lemma cut_at_shorter sep s a b :
  sep <> [] -> cut_at sep s = Some (a, b) -> (List.length b < List.length s)%nat.
Proof.
  intros Hsep H. apply cut_at_inv in H. subst s.
  rewrite !length_app. destruct sep; [congruence|]. cbn [List.length]. lia.
Qed.

Lemma split_fuel_enough sep : sep <> [] -> forall f f' s,
  (List.length s <= f)%nat -> (List.length s <= f')%nat ->
  split_fuel f s sep = split_fuel f' s sep.
Proof.
  intros Hsep. induction f as [|f IH]; intros f' s Hf Hf'.
  - destruct s; [|cbn in Hf; lia]. destruct f'; [reflexivity|].
    cbn [split_fuel]. destruct (cut_at sep []) as [[a b]|] eqn:E; [|reflexivity].
    apply cut_at_shorter in E; [|exact Hsep]. cbn in E. lia.
  - cbn [split_fuel]. destruct (cut_at sep s) as [[a b]|] eqn:E.
    + pose proof (cut_at_shorter _ _ _ _ Hsep E) as Hb.
      destruct f' as [|f']; [lia|]. cbn [split_fuel]. rewrite E. f_equal.
      apply IH; lia.
    + destruct f'; cbn [split_fuel]; [|rewrite E]; reflexivity.
Qed.

Lemma split_cut s sep a b :
  sep <> [] -> cut_at sep s = Some (a, b) -> split s sep = a :: split b sep.
Proof.
  intros Hsep H. unfold split. destruct sep as [|x sep]; [congruence|].
  pose proof (cut_at_shorter _ _ _ _ Hsep H) as Hb.
  destruct s as [|c s]; [cbn in Hb; lia|].
  cbn [List.length split_fuel]. rewrite H. f_equal.
  apply split_fuel_enough; [exact Hsep| |]; cbn [List.length] in Hb; lia.
Qed.

Lemma split_whole s sep : sep <> [] -> cut_at sep s = None -> split s sep = [s].
Proof.
  intros Hsep H. unfold split. destruct sep as [|x sep]; [congruence|].
  destruct s as [|c s]; [reflexivity|]. cbn [List.length split_fuel]. rewrite H. reflexivity.
Qed.

(** The second piece, [s.split(sep)[1]]. *)
Lemma split_second s sep :
  sep <> [] ->
  nth_error (split s sep) 1 =
  match cut_at sep s with
  | Some (_, b) =>
      Some match cut_at sep b with
           | Some (a', _) => a'
           | None => b
           end
  | None => None
  end.
Proof.
  intros Hsep. destruct (cut_at sep s) as [[a b]|] eqn:E.
  - rewrite (split_cut _ _ _ _ Hsep E). cbn [nth_error].
    destruct (cut_at sep b) as [[a' b']|] eqn:E'.
    + rewrite (split_cut _ _ _ _ Hsep E'). reflexivity.
    + rewrite (split_whole _ _ Hsep E'). reflexivity.
  - rewrite (split_whole _ _ Hsep E). reflexivity.
Qed.

(** The first piece, [s.split(sep)[0]]. *)
Lemma split_first s sep :
  sep <> [] ->
  nth_error (split s sep) 0 =
  Some match cut_at sep s with
       | Some (a, _) => a
       | None => s
       end.
Proof.
  intros Hsep. destruct (cut_at sep s) as [[a b]|] eqn:E.
  - rewrite (split_cut _ _ _ _ Hsep E). reflexivity.
  - rewrite (split_whole _ _ Hsep E). reflexivity.
Qed.

Lemma cut_at_skip sep a r :
  no_start sep a r ->
  cut_at sep (a ++ r) =
  match cut_at sep r with
  | Some (x, y) => Some (a ++ x, y)
  | None => None
  end.
Proof.
  induction a as [|c a IH]; intros H.
  - cbn [app]. destruct (cut_at sep r) as [[x y]|]; reflexivity.
  - destruct H as [H1 H2]. cbn [app cut_at]. rewrite H1.
    rewrite (IH H2). destruct (cut_at sep r) as [[x y]|]; reflexivity.
Qed.

Lemma cut_at_here sep r : cut_at sep (sep ++ r) = Some ([], r).
Proof.
  destruct (sep ++ r) eqn:E; cbn [cut_at]; rewrite <- E, starts_with_app; reflexivity.
Qed.

Lemma cut_at_absent (c : N) sep s :
  c ∈ sep -> c ∉ s -> cut_at sep s = None.
Proof.
  intros Hin Hs. destruct (cut_at sep s) as [[a b]|] eqn:E; [|reflexivity].
  apply cut_at_inv in E. subst s. exfalso. apply Hs.
  apply elem_of_app. right. apply elem_of_app. left. exact Hin.
Qed.

Lemma no_start_absent (c : N) sep rest a r :
  sep = c :: rest -> c ∉ a -> no_start sep a r.
Proof.
  intros -> H. induction a as [|d a IH]; [exact I|].
  split.
  - cbn [starts_with]. destruct (N.eqb_spec c d) as [->|]; [|reflexivity].
    exfalso. apply H. left.
  - apply IH. intros Hc. apply H. right. exact Hc.
Qed.

(** ** 32-bit integers *)

Lemma ToInt32_range z : - 2 ^ 31 <= ToInt32 z < 2 ^ 31.
Proof.
  unfold ToInt32. pose proof (Z.mod_pos_bound (z + 2 ^ 31) (2 ^ 32) ltac:(lia)). lia.
Qed.

Lemma ToInt32_shift z k : ToInt32 (z + k * 2 ^ 32) = ToInt32 z.
Proof.
  unfold ToInt32. replace (z + k * 2 ^ 32 + 2 ^ 31) with (z + 2 ^ 31 + k * 2 ^ 32) by ring.
  rewrite Z.mod_add by lia. reflexivity.
Qed.

Lemma ToInt32_eqm z : exists k, ToInt32 z = z + k * 2 ^ 32.
Proof.
  exists (- ((z + 2 ^ 31) / 2 ^ 32)). unfold ToInt32.
  pose proof (Z.div_mod (z + 2 ^ 31) (2 ^ 32) ltac:(lia)). lia.
Qed.

Lemma ToInt32_small z : - 2 ^ 31 <= z < 2 ^ 31 -> ToInt32 z = z.
Proof.
  intros H. unfold ToInt32. rewrite Z.mod_small by lia. lia.
Qed.

Lemma hash_step_spec a c :
  LeetCode.hash_step (ToInt32 a) [c] = ToInt32 (31 * a + Z.of_N c).
Proof.
  unfold LeetCode.hash_step, band, shl. rewrite Z.land_diag, Z.shiftl_mul_pow2 by lia.
  rewrite (ToInt32_small (ToInt32 a)) by apply ToInt32_range.
  destruct (ToInt32_eqm a) as [k Hk].
  destruct (ToInt32_eqm (ToInt32 a * 2 ^ 5)) as [k' Hk'].
  rewrite Hk'. rewrite Hk.
  replace ((a + k * 2 ^ 32) * 2 ^ 5 + k' * 2 ^ 32 - (a + k * 2 ^ 32) + Z.of_N c)
    with (31 * a + Z.of_N c + (31 * k + k') * 2 ^ 32) by ring.
  apply ToInt32_shift.
Qed.

(** ** LeetCode data *)

Lemma fold_left_cons {A B} (f : A -> B -> A) x l a :
  fold_left f (x :: l) a = fold_left f l (f a x).
Proof. reflexivity. Qed.

Lemma userHash_fold s : forall a,
  fold_left LeetCode.hash_step (List.map (fun c => [c]) s) (ToInt32 a)
  = ToInt32 (fold_left (fun a c => 31 * a + Z.of_N c) s a).
Proof.
  induction s as [|c s IH]; intros a; [reflexivity|].
  rewrite map_cons, !fold_left_cons, hash_step_spec. apply IH.
Qed.

(** The user hash is the polynomial hash of the name's code units
    with multiplier 31, reduced to a signed 32-bit integer. *)
Theorem user_hash_is_polynomial (name : jsstring) :
  LeetCode.userHash (split name []) = ToInt32 (poly31 name)
  /\ - 2 ^ 31 <= LeetCode.userHash (split name []) < 2 ^ 31.
Proof.
  assert (H : LeetCode.userHash (split name []) = ToInt32 (poly31 name)).
  { unfold LeetCode.userHash, split, poly31.
    change 0 with (ToInt32 0) at 1. apply userHash_fold. }
  split; [exact H|]. rewrite H. apply ToInt32_range.
Qed.

Lemma leetcode_named fields name now random w :
  assoc (js "username") fields = Some (JStr name) -> name <> [] ->
  LeetCode.fetch_leetcode_data (JObj fields) now random w
  = (Ret (Response 200
            (LeetCode.mockLeetCodeData (assoc (js "leetcodeUrl") fields) (JStr name)
               (LeetCode.userHash (split name [])) now)), w).
Proof.
  intros Hname Hne. destruct name as [|c name]; [congruence|].
  unfold LeetCode.fetch_leetcode_data, try_catch.
  rewrite !member_object. cbn [bind ret]. rewrite Hname.
  cbn [truthy_opt truthy negb]. rewrite andb_false_r.
  destruct (assoc (js "leetcodeUrl") fields) as [url|]; reflexivity.
Qed.

Lemma scaled_bounds h k c : 0 < k -> c <= LeetCode.scaled h k c <= c + k - 1.
Proof.
  intros Hk. unfold LeetCode.scaled.
  pose proof (Z.rem_bound_abs h k ltac:(lia)). pose proof (Z.abs_nonneg (Z.rem h k)). lia.
Qed.

Lemma toFixed1_two_digits k :
  10 <= k <= 99 -> toFixed1 (num_of_Z k) = Number_toString (num_of_Z k) ++ js ".0".
Proof.
  intros H. assert (Hk : k = 10 + Z.of_nat (Z.to_nat (k - 10))) by lia.
  assert (Hn : (Z.to_nat (k - 10) < 90)%nat) by lia.
  rewrite Hk. generalize dependent (Z.to_nat (k - 10)). clear. intros n _ Hn.
  do 90 (destruct n as [|n]; [vm_compute; reflexivity|]). lia.
Qed.

(** Whatever the user name, the generated figures lie in fixed
    ranges, and the acceptance rate is a whole number of percent between
    60 and 89 printed with one decimal. *)
Theorem leetcode_figures_in_range fields name now random w :
  assoc (js "username") fields = Some (JStr name) -> name <> [] ->
  exists data,
    LeetCode.fetch_leetcode_data (JObj fields) now random w = (Ret (Response 200 data), w)
    /\ get data (js "username") = Some (JStr name)
    /\ in_range data "totalSolved" 200 999
    /\ in_range data "easySolved" 100 399
    /\ in_range data "mediumSolved" 80 429
    /\ in_range data "hardSolved" 20 169
    /\ in_range data "contestRating" 1200 2199
    /\ in_range data "ranking" 5000 84999
    /\ in_range data "submissions" 1000 3999
    /\ exists rate, 60 <= rate <= 89
         /\ get data (js "acceptanceRate")
            = Some (JStr (Number_toString (num_of_Z rate) ++ js ".0")).
Proof.
  intros Hname Hne. eexists. split; [apply (leetcode_named fields name); assumption|].
  set (h := LeetCode.userHash _).
  (split; [reflexivity|]).
  repeat (split; [eexists; split; [reflexivity|apply scaled_bounds; lia]|]).
  exists (LeetCode.scaled h 30 60). pose proof (scaled_bounds h 30 60 ltac:(lia)).
  split; [lia|]. rewrite <- toFixed1_two_digits by lia. reflexivity.
Qed.

Lemma leetcode_figures_in_range_witness :
  exists data,
    LeetCode.fetch_leetcode_data (obj ["username" ~> jstr "alice"]) a_date
      (fun _ => NaN) idle_world = (Ret (Response 200 data), idle_world)
    /\ get data (js "username") = Some (jstr "alice")
    /\ in_range data "totalSolved" 200 999
    /\ in_range data "easySolved" 100 399
    /\ in_range data "mediumSolved" 80 429
    /\ in_range data "hardSolved" 20 169
    /\ in_range data "contestRating" 1200 2199
    /\ in_range data "ranking" 5000 84999
    /\ in_range data "submissions" 1000 3999
    /\ exists rate, 60 <= rate <= 89
         /\ get data (js "acceptanceRate")
            = Some (JStr (Number_toString (num_of_Z rate) ++ js ".0")).
Proof.
  apply (leetcode_figures_in_range ["username" ~> jstr "alice"] (js "alice")).
  - reflexivity.
  - discriminate.
Defined.

Lemma cut_at_before_last (c : N) p q s :
  q <> [] -> c ∉ s -> cut_at (p ++ c :: q) (s ++ [c]) = None.
Proof.
  intros Hq Hs. destruct (cut_at (p ++ c :: q) (s ++ [c])) as [[a b]|] eqn:E; [|reflexivity].
  apply cut_at_inv in E. exfalso. apply Hs.
  destruct (exists_last (l := q ++ b)) as (y' & y & Hy).
  { destruct q; [congruence|discriminate]. }
  rewrite <- (app_assoc p), <- app_comm_cons, Hy in E.
  rewrite (app_assoc a), app_comm_cons, (app_assoc (a ++ p)) in E.
  apply app_inj_tail in E. destruct E as [-> _].
  apply elem_of_app. right. left.
Qed.

Lemma extract_profile name w :
  47%N ∉ name ->
  LeetCode.extract (JStr (profile_of name)) None w = (Ret (Some (JStr name)), w).
Proof.
  intros Hname. unfold LeetCode.extract, LeetCode.includes_of, GitHub.split_of, includes.
  assert (Hcut : cut_at (js "leetcode.com/u/") (profile_of name)
                 = Some (js "https://", name ++ js "/")).
  { unfold profile_of.
    change (js "https://leetcode.com/u/") with (js "https://" ++ js "leetcode.com/u/").
    rewrite <- app_assoc, cut_at_skip, cut_at_here.
    - rewrite app_nil_r. reflexivity.
    - apply (no_start_absent 108%N _ (js "eetcode.com/u/")); [reflexivity|].
      rewrite list_elem_of_In. vm_compute. intros H.
      repeat (destruct H as [H|H]; [discriminate|]). exact H. }
  rewrite Hcut. cbn [bind ret]. rewrite split_second, Hcut by discriminate.
  replace (cut_at (js "leetcode.com/u/") (name ++ js "/")) with (@None (jsstring * jsstring)).
  2:{ symmetry.
      apply (cut_at_before_last 47%N (js "leetcode.com") (js "u/")); [discriminate|exact Hname]. }
  rewrite split_first by discriminate.
  replace (cut_at (js "/") (name ++ js "/")) with (Some (name, @nil N)); [reflexivity|].
  symmetry. rewrite cut_at_skip.
  - change (js "/") with (js "/" ++ []) at 2. rewrite cut_at_here, app_nil_r. reflexivity.
  - apply (no_start_absent 47%N _ []); [reflexivity|exact Hname].
Qed.

Lemma leetcode_addressed name now random w :
  name <> [] -> 47%N ∉ name ->
  LeetCode.fetch_leetcode_data (obj ["leetcodeUrl" ~> JStr (profile_of name)]) now random w
  = (Ret (Response 200
            (LeetCode.mockLeetCodeData (Some (JStr (profile_of name))) (JStr name)
               (LeetCode.userHash (split name [])) now)), w).
Proof.
  intros Hne Hname. destruct name as [|c name]; [congruence|].
  unfold LeetCode.fetch_leetcode_data, try_catch, obj.
  rewrite !member_object. cbn [bind ret].
  change (assoc (js "leetcodeUrl") ["leetcodeUrl" ~> JStr (profile_of (c :: name))])
    with (Some (JStr (profile_of (c :: name)))).
  change (assoc (js "username") ["leetcodeUrl" ~> JStr (profile_of (c :: name))])
    with (@None json).
  change (truthy_opt (Some (JStr (profile_of (c :: name))))) with true.
  cbn [truthy_opt negb andb].
  change (truthy (JStr (profile_of (c :: name)))) with true.
  cbv iota. unfold try_catch, bind.
  rewrite extract_profile by exact Hname. reflexivity.
Qed.

(** The profile address that the handler writes when it is given a
    user name, sent back as the address, yields the same reply. *)
Theorem leetcode_profile_round_trip name now random w :
  name <> [] -> 47%N ∉ name ->
  LeetCode.fetch_leetcode_data (obj ["leetcodeUrl" ~> JStr (profile_of name)]) now random w
  = LeetCode.fetch_leetcode_data (obj ["username" ~> JStr name]) now random w
  /\ get_opt (reply_body (LeetCode.fetch_leetcode_data (obj ["username" ~> JStr name])
                            now random w)) (js "profileUrl")
     = Some (JStr (profile_of name)).
Proof.
  intros Hne Hname.
  rewrite (leetcode_named ["username" ~> JStr name] name) by (reflexivity || exact Hne).
  rewrite leetcode_addressed by assumption.
  destruct name as [|c name]; [congruence|]. split; reflexivity.
Qed.

Lemma leetcode_profile_round_trip_witness :
  LeetCode.fetch_leetcode_data (obj ["leetcodeUrl" ~> jstr "https://leetcode.com/u/alice/"])
    a_date (fun _ => NaN) idle_world
  = LeetCode.fetch_leetcode_data (obj ["username" ~> jstr "alice"]) a_date
      (fun _ => NaN) idle_world
  /\ get_opt (reply_body (LeetCode.fetch_leetcode_data (obj ["username" ~> jstr "alice"])
                            a_date (fun _ => NaN) idle_world)) (js "profileUrl")
     = Some (jstr "https://leetcode.com/u/alice/").
Proof.
  apply (leetcode_profile_round_trip (js "alice")).
  - discriminate.
  - rewrite list_elem_of_In. vm_compute. intros H.
    repeat (destruct H as [H|H]; [discriminate|]). exact H.
Defined.

Lemma extract_pure url username w :
  exists o, LeetCode.extract url username w = (o, w).
Proof.
  unfold LeetCode.extract, LeetCode.includes_of, GitHub.split_of.
  destruct url as [| | |s|l|]; try (eexists; reflexivity);
    repeat (cbv beta iota delta [bind ret throw];
            match goal with
            | |- context [if ?b then _ else _] => destruct b
            | |- context [match ?x with _ => _ end] => destruct x
            end);
    eexists; reflexivity.
Qed.

Lemma leetcode_generated leetcodeUrl extractedUsername now random w :
  exists r,
    try_catch
      (units <- GitHub.split_of extractedUsername [] ;;
       res_json (LeetCode.mockLeetCodeData leetcodeUrl extractedUsername
                   (LeetCode.userHash units) now))
      (fun apiError =>
         res_json (LeetCode.fallbackData leetcodeUrl extractedUsername random)) w
    = (Ret r, w) /\ status r = 200.
Proof.
  destruct extractedUsername; eexists; (split; [reflexivity|reflexivity]).
Qed.



(** ** Decimal arithmetic *)





Lemma int_denotes x v : int_value x = Some v -> denotes x 0 v.
Proof.
  destruct x as [| |m e]; cbn [denotes int_value]; try discriminate.
  rewrite Z.add_0_r. destruct (Z.leb_spec 0 e); [|discriminate].
  intros Hv. injection Hv as <-. split; [lia|reflexivity].
Qed.






(** ** GitHub data *)

Lemma github_site_units :
  js "github.com/" = [103; 105; 116; 104; 117; 98; 46; 99; 111; 109; 47]%N.
Proof. reflexivity. Qed.

Lemma no_start_github user rest :
  47%N ∉ user -> 46%N ∉ user -> ends_name rest ->
  no_start (js "github.com/") user rest.
Proof.
  intros Hslash Hdot Hrest. induction user as [|c user IH]; [exact I|].
  split.
  2:{ apply IH; intros H; [apply Hslash|apply Hdot]; right; exact H. }
  clear IH Hslash. destruct (starts_with _ _) as [r|] eqn:E; [|reflexivity]. exfalso.
  apply starts_with_inv in E. rewrite github_site_units in E.
  destruct Hrest as [->|[t ->]].
  - do 6 (destruct user as [|? user]; [discriminate E|]).
    cbn [app] in E. injection E as _ _ _ _ _ _ -> _.
    apply Hdot. rewrite !elem_of_cons. tauto.
  - do 6 (destruct user as [|? user]; [discriminate E|]).
    cbn [app] in E. injection E as _ _ _ _ _ _ -> _.
    apply Hdot. rewrite !elem_of_cons. tauto.
Qed.

Lemma piece_after_name sep user rest :
  sep <> [] -> no_start sep user rest -> ends_name rest ->
  starts_with sep rest = None ->
  exists x, ends_name x
    /\ match cut_at sep (user ++ rest) with
       | Some (a, _) => a
       | None => user ++ rest
       end = user ++ x.
Proof.
  intros Hsep Hfree Hrest Hhead. rewrite (cut_at_skip _ _ _ Hfree).
  destruct (cut_at sep rest) as [[x y]|] eqn:E; [|exists rest; split; [exact Hrest|reflexivity]].
  exists x. split; [|reflexivity].
  destruct Hrest as [->|[t ->]].
  - cbn [cut_at] in E. destruct (starts_with sep []); congruence.
  - cbn [cut_at] in E. rewrite Hhead in E.
    destruct (cut_at sep t) as [[a b]|]; [|discriminate].
    injection E as <- <-. right. eexists. reflexivity.
Qed.

Lemma first_segment user x :
  47%N ∉ user -> ends_name x -> nth_error (split (user ++ x) (js "/")) 0 = Some user.
Proof.
  intros Hslash Hx. rewrite split_first by discriminate.
  rewrite cut_at_skip by (apply (no_start_absent 47%N _ []); [reflexivity|exact Hslash]).
  destruct Hx as [->|[t ->]].
  - change (cut_at (js "/") []) with (@None (jsstring * jsstring)).
    cbv iota. rewrite app_nil_r. reflexivity.
  - change (47%N :: t) with (js "/" ++ t). rewrite cut_at_here, app_nil_r. reflexivity.
Qed.

Lemma username_of_named url pre user rest w :
  cut_at (js "github.com/") url = Some (pre, user ++ rest) ->
  47%N ∉ user -> 46%N ∉ user -> ends_name rest ->
  GitHub.username_of (JStr url) w = (Ret (Some user), w).
Proof.
  intros Hcut Hslash Hdot Hrest. unfold GitHub.username_of, GitHub.split_of.
  cbn [bind ret]. rewrite split_second, Hcut by discriminate.
  destruct (piece_after_name (js "github.com/") user rest) as (x & Hx & ->).
  - discriminate.
  - apply no_start_github; assumption.
  - exact Hrest.
  - destruct Hrest as [->|[t ->]]; reflexivity.
  - rewrite (first_segment _ _ Hslash Hx). reflexivity.
Qed.

Lemma username_of_unnamed url w :
  cut_at (js "github.com/") url = None
  \/ (exists pre rest, cut_at (js "github.com/") url = Some (pre, rest) /\ ends_name rest) ->
  exists name, GitHub.username_of (JStr url) w = (Ret name, w)
               /\ (name = None \/ name = Some []).
Proof.
  intros H. unfold GitHub.username_of, GitHub.split_of.
  cbn [bind ret]. rewrite split_second by discriminate.
  destruct H as [->|(pre & rest & -> & Hrest)].
  - eexists. split; [reflexivity|]. left. reflexivity.
  - eexists. split; [reflexivity|]. right.
    destruct (piece_after_name (js "github.com/") [] rest) as (x & Hx & Ex).
    + discriminate.
    + exact I.
    + exact Hrest.
    + destruct Hrest as [->|[t ->]]; reflexivity.
    + cbn [app] in Ex. rewrite Ex. apply (first_segment [] x); [|exact Hx].
      apply not_elem_of_nil.
Qed.

Lemma github_named fields url user users repos random w :
  assoc (js "githubUrl") fields = Some (JStr url) -> names_user url user ->
  GitHub.fetch_github_data (JObj fields) users repos random w
  = try_catch
      (GitHub.get_or_fail (users user) (fun userData =>
       GitHub.get_or_fail (repos user) (fun reposData =>
         l <- GitHub.array_of reposData ;;
         languages <- GitHub.forEach GitHub.add_language l [] ;;
         topRepos <- mapM GitHub.top_repo l ;;
         data <- GitHub.githubData userData languages topRepos random ;;
         res_json data)))
      (fun error => GitHub.failed None) w.
Proof.
  intros Hurl (pre & rest & Hcut & Hne & Hslash & Hdot & Hrest).
  unfold GitHub.fetch_github_data. rewrite member_object, Hurl.
  unfold try_catch. cbn [bind ret].
  assert (Htruthy : truthy (JStr url) = true).
  { apply cut_at_inv in Hcut. subst url. destruct pre; reflexivity. }
  rewrite Htruthy. cbn [negb]. unfold bind at 1.
  rewrite (username_of_named _ _ _ _ _ Hcut Hslash Hdot Hrest).
  destruct user as [|c user]; [congruence|]. reflexivity.
Qed.

(** An address without [github.com/], or with nothing between it
    and the next slash, is refused with status 400, whatever the API
    would answer. *)
Theorem github_invalid_address fields url users repos random w :
  assoc (js "githubUrl") fields = Some (JStr url) -> url <> [] ->
  cut_at (js "github.com/") url = None
  \/ (exists pre rest, cut_at (js "github.com/") url = Some (pre, rest) /\ ends_name rest) ->
  GitHub.fetch_github_data (JObj fields) users repos random w
  = (Ret (Response 400 (obj ["error" ~> jstr "Invalid GitHub URL"])), w).
Proof.
  intros Hurl Hne Hcut. unfold GitHub.fetch_github_data. rewrite member_object, Hurl.
  unfold try_catch. cbn [bind ret].
  destruct url as [|c url]; [congruence|]. cbn [truthy negb]. unfold bind.
  destruct (username_of_unnamed (c :: url) w Hcut) as (name & -> & [->| ->]); reflexivity.
Qed.

Lemma github_invalid_address_witness :
  GitHub.fetch_github_data (obj ["githubUrl" ~> jstr "https://gitlab.com/octocat"])
    (fun _ => GitHub.Status 404) (fun _ => GitHub.Status 404) NaN idle_world
  = (Ret (Response 400 (obj ["error" ~> jstr "Invalid GitHub URL"])), idle_world).
Proof.
  apply (github_invalid_address _ (js "https://gitlab.com/octocat")).
  - reflexivity.
  - discriminate.
  - left. vm_compute. reflexivity.
Defined.

(** When the address names a user, the reply is determined by what
    the API answers about that user, and a refusal of the API is passed
    on as 404 or 403, and as 500 for every other status. *)
Theorem github_asks_named_user fields url user users repos random w :
  assoc (js "githubUrl") fields = Some (JStr url) -> names_user url user ->
  (forall users' repos',
      users' user = users user -> repos' user = repos user ->
      GitHub.fetch_github_data (JObj fields) users' repos' random w
      = GitHub.fetch_github_data (JObj fields) users repos random w)
  /\ (forall code,
         users user = GitHub.Status code
         \/ (exists userData, users user = GitHub.Data userData)
            /\ repos user = GitHub.Status code ->
         exists body,
           GitHub.fetch_github_data (JObj fields) users repos random w
           = (Ret (Response (refusal_status code) body), w))
  /\ (forall e,
         users user = GitHub.Unreachable e
         \/ (exists userData, users user = GitHub.Data userData)
            /\ repos user = GitHub.Unreachable e ->
         GitHub.fetch_github_data (JObj fields) users repos random w
         = (Ret (Response 500 (obj ["error" ~> jstr "Failed to fetch GitHub data"])), w)).
Proof.
  intros Hurl Hnames. split; [|split].
  - intros users' repos' Hu Hr.
    rewrite !(github_named _ _ _ _ _ _ _ Hurl Hnames), Hu, Hr. reflexivity.
  - intros code H. rewrite (github_named _ _ _ _ _ _ _ Hurl Hnames).
    assert (Hfailed : exists body,
      GitHub.failed (Some code) w = (Ret (Response (refusal_status code) body), w)).
    { unfold refusal_status, GitHub.failed.
      destruct (Z.eqb_spec code 404) as [->|H404]; [eexists; reflexivity|].
      destruct (Z.eqb_spec code 403) as [->|H403]; [eexists; reflexivity|].
      destruct code as [|p|p]; try (eexists; reflexivity).
      do 9 (destruct p as [p|p|]; try (eexists; reflexivity)); congruence. }
    destruct Hfailed as (body & Hfailed). exists body.
    destruct H as [->|[[userData ->] ->]]; unfold try_catch, GitHub.get_or_fail;
      rewrite Hfailed; reflexivity.
  - intros e H. rewrite (github_named _ _ _ _ _ _ _ Hurl Hnames).
    destruct H as [->|[[userData ->] ->]]; reflexivity.
Qed.

Lemma octocat_named : names_user (js "https://github.com/octocat/hello") (js "octocat").
Proof.
  exists (js "https://"), (js "/hello"). split; [vm_compute; reflexivity|].
  split; [discriminate|].
  split; [|split].
  - rewrite list_elem_of_In. vm_compute. intros H.
    repeat (destruct H as [H|H]; [discriminate|]). exact H.
  - rewrite list_elem_of_In. vm_compute. intros H.
    repeat (destruct H as [H|H]; [discriminate|]). exact H.
  - right. eexists. reflexivity.
Qed.

Lemma github_asks_named_user_witness :
  GitHub.fetch_github_data (obj ["githubUrl" ~> jstr "https://github.com/octocat/hello"])
    (known (js "octocat") octocat) (fun _ => GitHub.Status 403) NaN idle_world
  = GitHub.fetch_github_data (obj ["githubUrl" ~> jstr "https://github.com/octocat/hello"])
      (fun _ => GitHub.Data octocat) (fun _ => GitHub.Status 403) NaN idle_world
  /\ exists body,
       GitHub.fetch_github_data (obj ["githubUrl" ~> jstr "https://github.com/octocat/hello"])
         (fun _ => GitHub.Data octocat) (fun _ => GitHub.Status 403) NaN idle_world
       = (Ret (Response 403 body), idle_world).
Proof.
  destruct (github_asks_named_user
              ["githubUrl" ~> jstr "https://github.com/octocat/hello"]
              (js "https://github.com/octocat/hello") (js "octocat")
              (fun _ => GitHub.Data octocat) (fun _ => GitHub.Status 403) NaN idle_world
              eq_refl octocat_named) as (Hsame & Hrefused & _).
  split.
  - apply Hsame; reflexivity.
  - apply (Hrefused 403). right. split; [eexists|]; reflexivity.
Defined.








Lemma same_value_zero_string s x :
  GitHub.same_value_zero (JStr s) x = true -> x = JStr s.
Proof.
  destruct x; try discriminate. cbn [GitHub.same_value_zero].
  intros H. apply eqb_eq in H as ->. reflexivity.
Qed.





(** ** Uploads that the filter refuses *)

(** A file whose name ends in [.txt], in any letter case, or has no
    extension, is refused by the filter whatever its declared type, and
    the error handler answers 500 with the message of the filter. *)
Theorem text_upload_is_refused f req_path :
  toLowerCase (extname (f_originalname f)) = js ".txt"
  \/ extname (f_originalname f) = [] ->
  fileFilter f = Throw (Error invalid_file_type)
  /\ error_handler (Other (Error invalid_file_type)) req_path
     = Response 500 (obj [ "error" ~> JStr invalid_file_type; "path" ~> JStr req_path ]).
Proof.
  intros H. split; [|reflexivity].
  unfold fileFilter. destruct H as [-> | ->].
  - change (regex_test allowedTypes (js ".txt")) with false.
    rewrite andb_false_r. reflexivity.
  - change (regex_test allowedTypes (toLowerCase [])) with false.
    rewrite andb_false_r. reflexivity.
Qed.

Lemma text_upload_is_refused_witness :
  fileFilter notes_txt = Throw (Error invalid_file_type)
  /\ error_handler (Other (Error invalid_file_type)) (js "/api/analyze-resume")
     = Response 500 (obj [ "error" ~> JStr invalid_file_type;
                           "path" ~> jstr "/api/analyze-resume" ]).
Proof.
  apply (text_upload_is_refused notes_txt). left. vm_compute. reflexivity.
Defined.

(** ** Service status *)

Lemma json_null_dec (v : json) : v = JNull \/ v <> JNull.
Proof. destruct v; [left; reflexivity | right; discriminate ..]. Qed.


(** The health check always answers 200 with status [online], after
    one request to the analysis service: the database counts as
    connected exactly when its state is 1, the analysis service exactly
    when it answers with the status [healthy]. *)
Theorem health_is_always_online readyState appPy now NODE_ENV w :
  exists body services,
    Health.health readyState appPy now NODE_ENV w
    = (Ret (Response 200 body), note AppPy w)
    /\ get body (js "status") = Some (jstr "online")
    /\ get body (js "services") = Some services
    /\ (get services (js "mongodb") = Some (jstr "connected") <-> readyState = 1)
    /\ (get services (js "appPy") = Some (jstr "connected")
        <-> exists data, appPy = Replies data
                         /\ get data (js "status") = Some (jstr "healthy")).
Proof.
  unfold Health.health.
  assert (exists appPyStatus,
    try_catch
      (data <- request AppPy appPy ;;
       status <- member (Some data) "status" ;;
       ret (match status with
            | Some (JStr s) =>
                if Str.eqb s (js "healthy") then jstr "connected" else jstr "partial"
            | _ => jstr "partial"
            end))
      (fun error => ret (jstr "disconnected")) w = (Ret appPyStatus, note AppPy w)
    /\ (appPyStatus = jstr "connected"
        <-> exists data, appPy = Replies data
                         /\ get data (js "status") = Some (jstr "healthy")))
    as (appPyStatus & E & Hstatus).
  { destruct appPy as [e|data].
    - eexists. split; [reflexivity|]. split; [discriminate|].
      intros (data & H & _). discriminate H.
    - destruct (json_null_dec data) as [->|Hdata].
      + eexists. split; [reflexivity|]. split; [discriminate|].
        intros (data & [= <-] & H). discriminate H.
      + unfold try_catch, bind, request. rewrite (member_non_null _ _ Hdata).
        eexists. split; [reflexivity|].
        destruct (get data (js "status")) as [[| | |s| |]|] eqn:G;
          try (split; [discriminate | intros (d & [= <-] & H); rewrite G in H; discriminate H]).
        destruct (Str.eqb s (js "healthy")) eqn:Es.
        * apply eqb_eq in Es as ->. split; [|reflexivity].
          intros _. exists data. split; [reflexivity | exact G].
        * split; [discriminate|]. intros (d & [= <-] & H).
          rewrite G in H. injection H as ->. rewrite eqb_refl in Es. discriminate. }
  eexists _, _. split.
  { unfold try_catch at 1. erewrite bind_step by exact E. reflexivity. }
  split; [reflexivity|]. split; [reflexivity|]. split.
  - cbn [get obj assoc]. change (Str.eqb (js "mongodb") (js "mongodb")) with true. cbv iota.
    destruct (Z.eqb_spec readyState 1) as [->|Hne].
    + split; reflexivity.
    + split; [intros H; discriminate H | intros H; contradiction].
  - rewrite <- Hstatus. cbn [get obj assoc].
    change (Str.eqb (js "appPy") (js "mongodb")) with false.
    change (Str.eqb (js "appPy") (js "appPy")) with true. cbv iota.
    split; [intros [= ->]; reflexivity | intros ->; reflexivity].
Qed.
